(** * Board-game simulator, Q-learning agent and balance analyzer

    A shallow embedding of [game_simulator.py], [ai_player.py] and
    [balance_analyzer.py].

    Conventions of the embedding:
    - Python [int] is [Z]; player ids, which always come from [range], are [nat].
    - Python [float] is modelled by exact rationals [Q]; equalities between
      computed rationals are stated with [==] ([Qeq]).
    - A Python [dict] is an insertion-ordered association list with unique
      keys ([dict K V]); the nested per-player dicts of a game state live in a
      heap and the state refers to them by location, so that [state.copy()]
      (a shallow copy) shares them.
    - An uncaught Python exception is [None].
    - Draws of the [random] module are read from a tape of rationals. *)

From Stdlib Require Import QArith Qpower Qminmax Qround Qabs Lqa Lia String Ascii List.
From stdpp Require Import base option list strings pretty gmap.

Local Open Scope Z_scope.
Local Open Scope string_scope.
Local Open Scope list_scope.

(** ** Python dictionaries *)

Module PyDict.
Section Dict.
Context {K V : Type} `{EqDecision K}.

Definition dict := list (K * V).

(** [d.get(k)] *)
Fixpoint get (k : K) (d : dict) : option V :=
  match d with
  | [] => None
  | (k', v) :: d' => if decide (k = k') then Some v else get k d'
  end.

(** [d[k] = v]: replaces the value in place, or appends a new entry. *)
Fixpoint set (k : K) (v : V) (d : dict) : dict :=
  match d with
  | [] => [(k, v)]
  | (k', v') :: d' =>
      if decide (k = k') then (k', v) :: d' else (k', v') :: set k v d'
  end.

Definition keys (d : dict) : list K := map fst d.
Definition values (d : dict) : list V := map snd d.

(** [{kf(x): vf(x) for x in l}] *)
Definition comprehension {A : Type} (kf : A -> K) (vf : A -> V) (l : list A) : dict :=
  fold_left (fun d x => set (kf x) (vf x) d) l [].

End Dict.
Global Arguments dict : clear implicits.
End PyDict.

Abbreviation dict := PyDict.dict.

(** ** Values stored in the per-player dicts

    A position is a scalar on a racing track and a pair on a grid; resources
    and scores are integers. *)

Inductive value :=
| VInt (z : Z)
| VTuple (x y : Z).

Global Instance value_eq_dec : EqDecision value.
Proof. solve_decision. Defined.

(** Python [==] on these values: an int never equals a tuple. *)
Definition value_eqb (a b : value) : bool := bool_decide (a = b).

(** [str(v)] as an f-string renders it. *)
Definition str_value (v : value) : string :=
  match v with
  | VInt z => pretty z
  | VTuple x y => "(" ++ pretty x ++ ", " ++ pretty y ++ ")"
  end.

(** ** The heap of shared dict objects *)

Definition loc := nat.
Abbreviation heap := (gmap loc (dict nat value)).

Definition fresh_loc (h : heap) : loc := fresh (dom h).

(** ** Game configuration: every field is read with [.get] and a default *)

Record GameConfig := {
  cfg_genre : option string;
  cfg_board_size : option Z;
  cfg_board_length : option Z;
  cfg_num_players : option Z;
  cfg_pieces_per_player : option Z;
  cfg_win_type : option string;
  cfg_target_resources : option Z;
  cfg_control_percentage : option Q;
  cfg_goal_position : option (Z * Z);
  cfg_base_movement : option Z;
  cfg_dice_modifier : option bool;
  cfg_collection_rate : option Z
}.

Definition empty_config : GameConfig :=
  {| cfg_genre := None; cfg_board_size := None; cfg_board_length := None;
     cfg_num_players := None; cfg_pieces_per_player := None;
     cfg_win_type := None; cfg_target_resources := None;
     cfg_control_percentage := None; cfg_goal_position := None;
     cfg_base_movement := None; cfg_dice_modifier := None;
     cfg_collection_rate := None |}.

(** ** Game state

    The top-level dict of a state is a record; its three per-player dicts
    are locations in the heap.  The keys [can_collect_resource] and
    [can_attack] are only ever read (with default [False]). *)

(** The shape of the [board] array: [np.zeros(length)] for a track,
    [np.zeros((size, size))] for a grid.  The array is display data. *)
Inductive Board :=
| Track (length : Z)
| Grid (size : Z).

Record GameState := {
  turn : Z;
  board_size : Z;
  genre : string;
  track_length : Z;
  player_positions : loc;
  player_resources : loc;
  player_scores : loc;
  eliminated_players : list nat;
  board : Board;
  game_over : bool;
  winner : option nat;
  can_collect_resource : bool;
  can_attack : bool
}.

Definition set_turn (t : Z) (s : GameState) : GameState :=
  {| turn := t; board_size := board_size s; genre := genre s;
     track_length := track_length s; player_positions := player_positions s;
     player_resources := player_resources s; player_scores := player_scores s;
     eliminated_players := eliminated_players s; board := board s;
     game_over := game_over s; winner := winner s; can_collect_resource := can_collect_resource s;
     can_attack := can_attack s |}.

Definition set_won (p : nat) (s : GameState) : GameState :=
  {| turn := turn s; board_size := board_size s; genre := genre s;
     track_length := track_length s; player_positions := player_positions s;
     player_resources := player_resources s; player_scores := player_scores s;
     eliminated_players := eliminated_players s; board := board s;
     game_over := true; winner := Some p; can_collect_resource := can_collect_resource s;
     can_attack := can_attack s |}.

(** [state.copy()]: a new top-level dict with the same field values, hence
    the same three locations. *)
Definition copy (s : GameState) : GameState :=
  {| turn := turn s; board_size := board_size s; genre := genre s;
     track_length := track_length s; player_positions := player_positions s;
     player_resources := player_resources s; player_scores := player_scores s;
     eliminated_players := eliminated_players s; board := board s;
     game_over := game_over s; winner := winner s; can_collect_resource := can_collect_resource s;
     can_attack := can_attack s |}.

(** [state[field][player_id]]: [None] is a [KeyError]. *)
Definition read (h : heap) (l : loc) (p : nat) : option value :=
  d ← h !! l; PyDict.get p d.

(** [state[field][player_id] = v] *)
Definition write (h : heap) (l : loc) (p : nat) (v : value) : option heap :=
  d ← h !! l; Some (<[l := PyDict.set p v d]> h).


(** ** The [random] module

    Draws are read from a tape of rationals in [[0, 1)]; every call
    consumes one draw. *)

Record Rng := { draws : nat -> Q; cursor : nat }.

(** [random.random()] *)
Definition random_random (r : Rng) : Q * Rng :=
  (draws r (cursor r), {| draws := draws r; cursor := S (cursor r) |}).

(** [random.randint(a, b)] *)
Definition random_randint (a b : Z) (r : Rng) : Z * Rng :=
  let '(u, r') := random_random r in
  (Z.min b (Z.max a (a + Qfloor (u * inject_Z (b - a + 1)))), r').

(** [random.choice(l)]: an [IndexError] on the empty list. *)
Definition random_choice {A : Type} (l : list A) (r : Rng) : option (A * Rng) :=
  let '(u, r') := random_random r in
  let i := (Z.to_nat (Qfloor (u * inject_Z (Z.of_nat (length l)))) mod length l)%nat in
  x ← l !! i; Some (x, r').

(** ** Strings *)

Definition underscore : ascii := "_"%char.

(** [s.rsplit(sep, 1)]: [None] when [sep] does not occur in [s] (Python
    returns the one-element list [[s]]), otherwise the parts before and after
    the last occurrence. *)
Fixpoint rsplit1 (sep : ascii) (s : string) : option (string * string) :=
  match s with
  | EmptyString => None
  | String c s' =>
      match rsplit1 sep s' with
      | Some (a, b) => Some (String c a, b)
      | None => if decide (c = sep) then Some (EmptyString, s') else None
      end
  end.

(** [max(l, default=d)] *)
Definition max_default (l : list Q) (d : Q) : Q :=
  match l with
  | [] => d
  | x :: xs => fold_left Qmax xs x
  end.

(** ** The Q-learning agent ([ai_player.py]) *)

Record QLearningPlayer := {
  player_id : nat;
  learning_rate : Q;
  discount_factor : Q;
  epsilon : Q;
  q_table : dict (string * string) Q;
  wins : Z;
  games_played : Z;
  total_reward : Q
}.

(** [QLearningPlayer(player_id)] with the default hyper-parameters. *)
Definition new_player (pid : nat) : QLearningPlayer :=
  {| player_id := pid; learning_rate := 1 # 10; discount_factor := 9 # 10;
     epsilon := 2 # 10; q_table := []; wins := 0; games_played := 0;
     total_reward := 0 |}.

Definition with_q_table (t : dict (string * string) Q) (a : QLearningPlayer) : QLearningPlayer :=
  {| player_id := player_id a; learning_rate := learning_rate a;
     discount_factor := discount_factor a; epsilon := epsilon a;
     q_table := t; wins := wins a; games_played := games_played a;
     total_reward := total_reward a |}.

Definition with_total_reward (r : Q) (a : QLearningPlayer) : QLearningPlayer :=
  {| player_id := player_id a; learning_rate := learning_rate a;
     discount_factor := discount_factor a; epsilon := epsilon a;
     q_table := q_table a; wins := wins a; games_played := games_played a;
     total_reward := r |}.

Definition with_epsilon (e : Q) (a : QLearningPlayer) : QLearningPlayer :=
  {| player_id := player_id a; learning_rate := learning_rate a;
     discount_factor := discount_factor a; epsilon := e;
     q_table := q_table a; wins := wins a; games_played := games_played a;
     total_reward := total_reward a |}.

Definition with_stats (w g : Z) (r : Q) (a : QLearningPlayer) : QLearningPlayer :=
  {| player_id := player_id a; learning_rate := learning_rate a;
     discount_factor := discount_factor a; epsilon := epsilon a;
     q_table := q_table a; wins := w; games_played := g; total_reward := r |}.

(** [state.get(field, {}).get(player_id, default)] *)
Definition read_default (h : heap) (l : loc) (p : nat) (d : value) : value :=
  default d (PyDict.get p (default [] (h !! l))).

Definition get_state_key (a : QLearningPlayer) (h : heap) (state : GameState) : string :=
  let player_pos := read_default h (player_positions state) (player_id a) (VTuple 0 0) in
  let pos_str :=
    match player_pos with
    | VTuple x y => pretty x +:+ "_" +:+ pretty y
    | VInt z => pretty z
    end in
  let opponent_count :=
    length (filter (fun p => p <> player_id a)
                   (PyDict.keys (default [] (h !! player_positions state)))) in
  let resources := read_default h (player_resources state) (player_id a) (VInt 0) in
  pos_str +:+ "_" +:+ pretty opponent_count +:+ "_" +:+ str_value resources
          +:+ "_" +:+ pretty (turn state mod 10).

Definition get_q_value (a : QLearningPlayer) (state_key action : string) : Q :=
  default 0%Q (PyDict.get (state_key, action) (q_table a)).

(** [get_valid_actions]: comparing a tuple position with the track length
    (genre racing on a grid position) is a [TypeError]. *)
Definition get_valid_actions (a : QLearningPlayer) (h : heap) (game_state : GameState)
  : option (list string) :=
  let player_pos := read_default h (player_positions game_state) (player_id a) (VTuple 0 0) in
  let bs := board_size game_state in
  match player_pos with
  | VInt p =>
      Some ((if (p <? track_length game_state - 1)%Z then ["move_right"; "move_down"] else [])
              ++ ["stay"])
  | VTuple x y =>
      if decide (genre game_state = "racing") then None
      else
        Some ((if (0 <? x)%Z then ["move_left"] else [])
                ++ (if (x <? bs - 1)%Z then ["move_right"] else [])
                ++ (if (0 <? y)%Z then ["move_up"] else [])
                ++ (if (y <? bs - 1)%Z then ["move_down"] else [])
                ++ (if can_collect_resource game_state then ["collect"] else [])
                ++ (if can_attack game_state then ["attack"] else [])
                ++ ["stay"])
  end.

(** [choose_action]: epsilon-greedy; the exploration draw is made only when
    [training] holds. *)
Definition choose_action (a : QLearningPlayer) (h : heap) (game_state : GameState)
    (training : bool) (r : Rng) : option (string * Rng) :=
  valid_actions ← get_valid_actions a h game_state;
  let exploit (r : Rng) :=
    let state_key := get_state_key a h game_state in
    let q_values := map (get_q_value a state_key) valid_actions in
    let max_q := max_default q_values 0 in
    let best_actions :=
      map fst (filter (fun aq => Qeq_bool (snd aq) max_q = true)
                      (zip valid_actions q_values)) in
    random_choice best_actions r in
  match valid_actions with
  | [] => Some ("stay", r)
  | _ =>
      if training then
        let '(u, r1) := random_random r in
        if Qlt_le_dec u (epsilon a) then random_choice valid_actions r1 else exploit r1
      else exploit r
  end.

(** The target of the update: [reward] on a terminal transition, else
    [reward + gamma * max_a' Q(next, a')]. *)
Definition target_q (a : QLearningPlayer) (h : heap) (reward : Q)
    (next_state : GameState) (done : bool) : option Q :=
  if done then Some reward
  else
    let next_state_key := get_state_key a h next_state in
    valid_next_actions ← get_valid_actions a h next_state;
    let max_next_q := max_default (map (get_q_value a next_state_key) valid_next_actions) 0 in
    Some (reward + discount_factor a * max_next_q)%Q.

Definition update_q_value (a : QLearningPlayer) (h : heap) (state : GameState)
    (action : string) (reward : Q) (next_state : GameState) (done : bool)
  : option QLearningPlayer :=
  let state_key := get_state_key a h state in
  let current_q := get_q_value a state_key action in
  tq ← target_q a h reward next_state done;
  let new_q := (current_q + learning_rate a * (tq - current_q))%Q in
  Some (with_total_reward (total_reward a + reward)%Q
          (with_q_table (PyDict.set (state_key, action) new_q (q_table a)) a)).

Definition record_game_result (a : QLearningPlayer) (won : bool) : QLearningPlayer :=
  with_stats (if won then wins a + 1 else wins a) (games_played a + 1) (total_reward a) a.

Definition decay_epsilon (decay_rate min_epsilon : Q) (a : QLearningPlayer) : QLearningPlayer :=
  with_epsilon (Qmax min_epsilon (epsilon a * decay_rate)) a.

(** [decay_epsilon()] with its default arguments. *)
Definition decay_epsilon_default (a : QLearningPlayer) : QLearningPlayer :=
  decay_epsilon (995 # 1000) (1 # 100) a.

Definition get_win_rate (a : QLearningPlayer) : Q :=
  if (0 <? games_played a)%Z then (inject_Z (wins a) / inject_Z (games_played a))%Q else 0%Q.

(** ** Model persistence

    A JSON document is the value [json.load] returns: objects are dicts.
    A file holds either a JSON document or text that is not JSON. *)

Unset Elimination Schemes.
Inductive json :=
| JNull
| JBool (b : bool)
| JInt (z : Z)
| JFloat (q : Q)
| JString (s : string)
| JArray (l : list json)
| JObject (o : list (string * json)).
Set Elimination Schemes.

Inductive file :=
| JsonFile (j : json)
| GarbageFile (text : string).

Abbreviation filesystem := (gmap string file).

Definition get_stats (a : QLearningPlayer) : json :=
  JObject
    [ ("player_id", JInt (Z.of_nat (player_id a)));
      ("games_played", JInt (games_played a));
      ("wins", JInt (wins a));
      ("win_rate", JFloat (get_win_rate a));
      ("total_reward", JFloat (total_reward a));
      ("avg_reward",
        if (0 <? games_played a)%Z
        then JFloat (total_reward a / inject_Z (games_played a))%Q else JInt 0);
      ("q_table_size", JInt (Z.of_nat (length (q_table a))));
      ("epsilon", JFloat (epsilon a)) ].

(** The textual encoding [f"{k[0]}_{k[1]}"] of a table key. *)
Definition encode_key (k : string * string) : string := fst k +:+ "_" +:+ snd k.

Definition model_data (a : QLearningPlayer) : json :=
  JObject
    [ ("player_id", JInt (Z.of_nat (player_id a)));
      ("q_table",
        JObject (PyDict.comprehension (fun kv => encode_key (fst kv))
                                      (fun kv => JFloat (snd kv)) (q_table a)));
      ("stats", get_stats a) ].

Definition save_model (a : QLearningPlayer) (filepath : string) (fs : filesystem)
  : filesystem :=
  <[filepath := JsonFile (model_data a)]> fs.

(** Outcome of [load_model].  [Reported] is the [except] branch: the error
    is printed and the agent is left as the [try] body had made it so far.
    The source stores whatever JSON value it finds; an agent record holds
    numbers only, so a table value or statistic of another JSON type is
    outside the model ([Untyped]). *)
Inductive load_result :=
| Loaded (a : QLearningPlayer)
| Reported (a : QLearningPlayer)
| Untyped.

Definition json_float (j : json) : option Q :=
  match j with
  | JInt z => Some (inject_Z z)
  | JFloat q => Some q
  | _ => None
  end.

Definition json_int (j : json) : option Z :=
  match j with
  | JInt z => Some z
  | _ => None
  end.

(** The loop [for key, value in model_data['q_table'].items()] run on the
    agent [a]. *)
Fixpoint load_entries (items : list (string * json)) (a : QLearningPlayer) : load_result :=
  match items with
  | [] => Loaded a
  | (key, value) :: rest =>
      match rsplit1 underscore key with
      | None => Reported a
      | Some (state, action) =>
          match json_float value with
          | None => Untyped
          | Some v =>
              load_entries rest (with_q_table (PyDict.set (state, action) v (q_table a)) a)
          end
      end
  end.

(** [stats.get(field, 0)] read as a number. *)
Definition stats_get {A : Type} (conv : json -> option A) (zero : A)
    (field : string) (stats : list (string * json)) : option A :=
  match PyDict.get field stats with
  | None => Some zero
  | Some j => conv j
  end.

Definition restore_stats (model : list (string * json)) (a : QLearningPlayer) : load_result :=
  match PyDict.get "stats" model with
  | None => Loaded a
  | Some (JObject stats) =>
      match stats_get json_int 0 "wins" stats,
            stats_get json_int 0 "games_played" stats,
            stats_get json_float 0%Q "total_reward" stats with
      | Some w, Some g, Some r => Loaded (with_stats w g r a)
      | _, _, _ => Untyped
      end
  | Some _ => Reported a
  end.

Definition load_model (a : QLearningPlayer) (filepath : string) (fs : filesystem)
  : load_result :=
  match fs !! filepath with
  | None => Reported a
  | Some (GarbageFile _) => Reported a
  | Some (JsonFile doc) =>
      let a0 := with_q_table [] a in
      match doc with
      | JObject model =>
          match PyDict.get "q_table" model with
          | Some (JObject items) =>
              match load_entries items a0 with
              | Loaded a1 => restore_stats model a1
              | r => r
              end
          | _ => Reported a0
          end
      | _ => Reported a0
      end
  end.

(** ** What the simulator asks of a player object

    [simulate_game] is duck-typed: it calls these four methods. *)

Class AIPlayer (A : Type) := {
  player_choose_action : A -> heap -> GameState -> bool -> Rng -> option (string * Rng);
  player_update_q_value : A -> heap -> GameState -> string -> Q -> GameState -> bool -> option A;
  player_record_game_result : A -> bool -> A;
  player_decay_epsilon : A -> A
}.

Global Instance QLearningPlayer_AIPlayer : AIPlayer QLearningPlayer := {
  player_choose_action := choose_action;
  player_update_q_value := update_q_value;
  player_record_game_result := record_game_result;
  player_decay_epsilon := decay_epsilon_default
}.

(** A scripted player: plays a fixed action and learns nothing. *)
Record ScriptedPlayer := { script_action : string; script_games : Z; script_wins : Z }.

Global Instance ScriptedPlayer_AIPlayer : AIPlayer ScriptedPlayer := {
  player_choose_action p _ _ _ r := Some (script_action p, r);
  player_update_q_value p _ _ _ _ _ _ := Some p;
  player_record_game_result p won :=
    {| script_action := script_action p; script_games := script_games p + 1;
       script_wins := if won then script_wins p + 1 else script_wins p |};
  player_decay_epsilon p := p
}.

(** ** The simulator ([game_simulator.py]) *)

(** The arguments of one call [ai_player.update_q_value(state, action,
    reward, next_state, done)], with the heap at the time of the call and
    the heap before the action was executed. *)
Record UpdateCall := {
  call_player : nat;
  call_heap_before : heap;
  call_heap : heap;
  call_state : GameState;
  call_action : string;
  call_reward : Q;
  call_next_state : GameState;
  call_done : bool
}.

Record SimulationResult := {
  res_winner : option nat;
  res_turns : Z;
  res_final_scores : dict nat value;
  res_final_resources : dict nat value
}.

(** The state of the turn loop of [simulate_game].

    The loop state: the heap, the current [state], the players, the random
    tape, and (ghost) the log of the [update_q_value] calls made so far. *)

Record Sim (A : Type) := {
  sim_heap : heap;
  sim_state : GameState;
  sim_players : list A;
  sim_rng : Rng;
  sim_calls : list UpdateCall
}.
Arguments sim_heap {A}.
Arguments sim_state {A}.
Arguments sim_players {A}.
Arguments sim_rng {A}.
Arguments sim_calls {A}.

Section Simulator.
Variable game_config : GameConfig.

(** Fields set by [__init__]. *)
Definition sim_genre : string := default "strategy" (cfg_genre game_config).
Definition sim_board_size : Z := default 8 (cfg_board_size game_config).
Definition sim_num_players : Z := default 2 (cfg_num_players game_config).
Definition max_turns : nat := 100.

Definition config_track_length : Z := default 30 (cfg_board_length game_config).

Definition corners : list (Z * Z) :=
  [ (0, 0); (0, sim_board_size - 1);
    (sim_board_size - 1, 0); (sim_board_size - 1, sim_board_size - 1) ].

Definition _get_starting_position (player_id : nat) : value :=
  match corners !! (player_id mod length corners)%nat with
  | Some (x, y) => VTuple x y
  | None => VTuple 0 0
  end.

(** The starting position given to one player by the loop body of
    [initialize_game_state]. *)
Definition initial_position (player_id : nat) : value :=
  let pieces_per_player := default 1 (cfg_pieces_per_player game_config) in
  if decide (pieces_per_player = 1) then
    if decide (sim_genre <> "racing") then VTuple 0 0 else VInt 0
  else _get_starting_position player_id.

Definition players : list nat := seq 0 (Z.to_nat sim_num_players).

(** The largest size in bytes of an array ([NPY_MAX_INTP] of a 64-bit
    build); a cell of [np.zeros] takes 8 bytes. *)
Definition np_max_size : Z := 2 ^ 63 - 1.

(** [_initialize_board]: [np.zeros] refuses a negative dimension and an
    array whose size in bytes exceeds [np_max_size] ([ValueError]).  An
    allocation that the machine's memory cannot serve ([MemoryError]) is
    outside the model. *)
Definition _initialize_board : option Board :=
  if decide (sim_genre = "racing") then
    let track_length := config_track_length in
    if decide (0 <= track_length /\ 8 * track_length <= np_max_size)
    then Some (Track track_length) else None
  else
    if decide (0 <= sim_board_size
               /\ 8 * (sim_board_size * sim_board_size) <= np_max_size)
    then Some (Grid sim_board_size) else None.

(** [initialize_game_state]: allocates the board and the three per-player
    dicts and fills the dicts for [range(num_players)]. *)
Definition initialize_game_state (h : heap) : option (heap * GameState) :=
  board ← _initialize_board;
  let positions := PyDict.comprehension id initial_position players in
  let resources := PyDict.comprehension id (fun _ => VInt 0) players in
  let scores := PyDict.comprehension id (fun _ => VInt 0) players in
  let lp := fresh_loc h in
  let h1 := <[lp := positions]> h in
  let lr := fresh_loc h1 in
  let h2 := <[lr := resources]> h1 in
  let ls := fresh_loc h2 in
  let h3 := <[ls := scores]> h2 in
  Some (h3, {| turn := 0; board_size := sim_board_size; genre := sim_genre;
               track_length := config_track_length;
               player_positions := lp; player_resources := lr; player_scores := ls;
               eliminated_players := []; board := board;
               game_over := false; winner := None;
               can_collect_resource := false; can_attack := false |}).

(** [_move_position]: unpacking a scalar position is a [TypeError]. *)
Definition _move_position (current_pos : value) (action : string) : option value :=
  match current_pos with
  | VInt _ => None
  | VTuple x y =>
      Some (if decide (action = "move_left") then VTuple (Z.max 0 (x - 1)) y
            else if decide (action = "move_right") then VTuple (Z.min (sim_board_size - 1) (x + 1)) y
            else if decide (action = "move_up") then VTuple x (Z.max 0 (y - 1))
            else if decide (action = "move_down") then VTuple x (Z.min (sim_board_size - 1) (y + 1))
            else VTuple x y)
  end.

(** [_is_unclaimed_territory]: the random draw is made only when no player
    stands on [position]. *)
Definition _is_unclaimed_territory (h : heap) (state : GameState) (position : value)
    (r : Rng) : option (bool * Rng) :=
  positions ← h !! player_positions state;
  if existsb (fun pos => value_eqb pos position) (PyDict.values positions)
  then Some (false, r)
  else let '(u, r') := random_random r in
       Some (if Qlt_le_dec (7 # 10) u then true else false, r').

(** [d[p] += n] on an integer entry. *)
Definition add_to (h : heap) (l : loc) (p : nat) (n : Z) : option heap :=
  v ← read h l p;
  match v with
  | VInt z => write h l p (VInt (z + n))
  | VTuple _ _ => None
  end.

Definition _execute_racing_action (h : heap) (state : GameState) (player_id : nat)
    (action : string) (r : Rng) : option (heap * Q * Rng) :=
  current_pos ← read h (player_positions state) player_id;
  let track_length := config_track_length in
  let '(movement, r') :=
    if decide (action = "move_right" \/ action = "move_down") then
      let movement := default 2 (cfg_base_movement game_config) in
      if default false (cfg_dice_modifier game_config) then
        let '(d, r') := random_randint 0 2 r in (movement + d, r')
      else (movement, r)
    else (0, r) in
  match current_pos with
  | VTuple _ _ => None
  | VInt p =>
      let new_pos := Z.min (p + movement) (track_length - 1) in
      h1 ← write h (player_positions state) player_id (VInt new_pos);
      h2 ← write h1 (player_scores state) player_id (VInt new_pos);
      let reward := (inject_Z movement * (5 # 10))%Q in
      let reward := if (track_length - 1 <=? new_pos)%Z then (reward + 100)%Q else reward in
      Some (h2, reward, r')
  end.

Definition _execute_resource_action (h : heap) (state : GameState) (player_id : nat)
    (action : string) : option (heap * Q) :=
  '(h1, reward) ←
    (if decide (action = "collect") then
       let collection_rate := default 2 (cfg_collection_rate game_config) in
       h1 ← add_to h (player_resources state) player_id collection_rate;
       Some (h1, inject_Z collection_rate)
     else if String.prefix "move_" action then
       pos ← read h (player_positions state) player_id;
       new_pos ← _move_position pos action;
       h1 ← write h (player_positions state) player_id new_pos;
       Some (h1, 1 # 10)
     else Some (h, 0%Q));
  res ← read h1 (player_resources state) player_id;
  h2 ← write h1 (player_scores state) player_id res;
  Some (h2, reward).

Definition _execute_territory_action (h : heap) (state : GameState) (player_id : nat)
    (action : string) (r : Rng) : option (heap * Q * Rng) :=
  if String.prefix "move_" action then
    pos ← read h (player_positions state) player_id;
    new_pos ← _move_position pos action;
    '(unclaimed, r') ← _is_unclaimed_territory h state new_pos r;
    '(h1, reward) ←
      (if unclaimed : bool then
         h1 ← add_to h (player_scores state) player_id 3; Some (h1, 5%Q)
       else Some (h, 0%Q));
    h2 ← write h1 (player_positions state) player_id new_pos;
    Some (h2, reward, r')
  else Some (h, 0%Q, r).

Definition goal_position : Z * Z :=
  default (sim_board_size - 1, sim_board_size - 1) (cfg_goal_position game_config).

Definition _execute_strategy_action (h : heap) (state : GameState) (player_id : nat)
    (action : string) : option (heap * Q) :=
  let goal_pos := goal_position in
  if String.prefix "move_" action then
    pos ← read h (player_positions state) player_id;
    new_pos ← _move_position pos action;
    match pos, new_pos with
    | VTuple x y, VTuple x' y' =>
        let old_dist := Z.abs (x - fst goal_pos) + Z.abs (y - snd goal_pos) in
        let new_dist := Z.abs (x' - fst goal_pos) + Z.abs (y' - snd goal_pos) in
        let reward :=
          if (new_dist <? old_dist)%Z then 1%Q
          else if (old_dist <? new_dist)%Z then (- (5 # 10))%Q else 0%Q in
        h1 ← write h (player_positions state) player_id new_pos;
        h2 ← add_to h1 (player_scores state) player_id 1;
        Some (h2, reward)
    | _, _ => None
    end
  else Some (h, 0%Q).

(** [_execute_action]: the next state is a shallow copy of [state]; the
    executors mutate the per-player dicts it shares with [state]. *)
Definition _execute_action (h : heap) (state : GameState) (player_id : nat)
    (action : string) (r : Rng) : option (heap * GameState * Q * bool * Rng) :=
  let next_state := copy state in
  '(h', reward, r') ←
    (if decide (sim_genre = "racing") then
       _execute_racing_action h next_state player_id action r
     else if decide (sim_genre = "resource_management") then
       '(h', reward) ← _execute_resource_action h next_state player_id action;
       Some (h', reward, r)
     else if decide (sim_genre = "territory_control") then
       _execute_territory_action h next_state player_id action r
     else
       '(h', reward) ← _execute_strategy_action h next_state player_id action;
       Some (h', reward, r));
  Some (h', next_state, (reward - (1 # 100))%Q, false, r').

(** [_check_win_condition].  The final [else] branch of the source takes
    every type that is not one of the first three; the [return False] after
    it is never reached. *)
Definition _check_win_condition (h : heap) (state : GameState) (player_id : nat)
  : option bool :=
  let win_type := default "position_or_elimination" (cfg_win_type game_config) in
  if decide (win_type = "race_finish") then
    pos ← read h (player_positions state) player_id;
    match pos with
    | VInt p => Some (config_track_length - 1 <=? p)%Z
    | VTuple _ _ => None
    end
  else if decide (win_type = "resource_collection") then
    let target := default 50 (cfg_target_resources game_config) in
    res ← read h (player_resources state) player_id;
    match res with
    | VInt n => Some (target <=? n)%Z
    | VTuple _ _ => None
    end
  else if decide (win_type = "territory_control") then
    let required_score := (default (6 # 10) (cfg_control_percentage game_config) * 100)%Q in
    score ← read h (player_scores state) player_id;
    match score with
    | VInt n => Some (if Qlt_le_dec (inject_Z n) required_score then false else true)
    | VTuple _ _ => None
    end
  else
    let goal_pos := goal_position in
    pos ← read h (player_positions state) player_id;
    Some (value_eqb pos (VTuple (fst goal_pos) (snd goal_pos))).

(** *** The turn loop *)

Section Loop.
Context {A : Type} `{AIPlayer A}.
Variable training : bool.

(** One player's move: the body of the inner loop after the elimination
    test.  [ai_players[player_id]] past the end is an [IndexError]. *)
Definition player_turn (player_id : nat) (s : Sim A) : option (Sim A) :=
  let state := sim_state s in
  ai_player ← sim_players s !! player_id;
  '(action, r1) ← player_choose_action ai_player (sim_heap s) state training (sim_rng s);
  '(h1, next_state, reward, done, r2) ←
    _execute_action (sim_heap s) state player_id action r1;
  won ← _check_win_condition h1 next_state player_id;
  let '(next_state, reward, done) :=
    if won : bool then (set_won player_id next_state, (reward + 100)%Q, true)
    else (next_state, reward, done) in
  ai_player' ←
    (if training then player_update_q_value ai_player h1 state action reward next_state done
     else Some ai_player);
  let calls :=
    if training
    then sim_calls s ++
         [ {| call_player := player_id; call_heap_before := sim_heap s;
              call_heap := h1; call_state := state;
              call_action := action; call_reward := reward;
              call_next_state := next_state; call_done := done |} ]
    else sim_calls s in
  Some {| sim_heap := h1; sim_state := next_state;
          sim_players := <[player_id := ai_player']> (sim_players s);
          sim_rng := r2; sim_calls := calls |}.

(** [for player_id in range(num_players)]: skips eliminated players and
    breaks once the game is over. *)
Fixpoint player_loop (ids : list nat) (s : Sim A) : option (Sim A) :=
  match ids with
  | [] => Some s
  | player_id :: rest =>
      if decide (player_id ∈ eliminated_players (sim_state s)) then player_loop rest s
      else
        s' ← player_turn player_id s;
        if game_over (sim_state s') then Some s' else player_loop rest s'
  end.

Definition with_state (st : GameState) (s : Sim A) : Sim A :=
  {| sim_heap := sim_heap s; sim_state := st; sim_players := sim_players s;
     sim_rng := sim_rng s; sim_calls := sim_calls s |}.

(** [for turn in range(max_turns)] *)
Fixpoint turn_loop (turns : list nat) (s : Sim A) : option (Sim A) :=
  match turns with
  | [] => Some s
  | t :: rest =>
      let s0 := with_state (set_turn (Z.of_nat t) (sim_state s)) s in
      s' ← player_loop players s0;
      if game_over (sim_state s') then Some s' else turn_loop rest s'
  end.

(** [for player_id, ai_player in enumerate(ai_players)]: record the result
    and, when training, decay epsilon. *)
Definition record_results (winner : option nat) (ai_players : list A) : list A :=
  imap (fun player_id ai_player =>
          let ai_player := player_record_game_result ai_player (bool_decide (winner = Some player_id)) in
          if training then player_decay_epsilon ai_player else ai_player)
       ai_players.

(** [simulate_game] without [render] (the snapshots are display data) and
    without the simulator's history list, to which the result is appended.
    Returns the result, the players and the final loop state. *)
Definition simulate_game (h : heap) (ai_players : list A) (r : Rng)
  : option (SimulationResult * list A * Sim A) :=
  '(h0, state) ← initialize_game_state h;
  s ← turn_loop (seq 0 max_turns)
        {| sim_heap := h0; sim_state := state; sim_players := ai_players;
           sim_rng := r; sim_calls := [] |};
  let state := sim_state s in
  scores ← sim_heap s !! player_scores state;
  resources ← sim_heap s !! player_resources state;
  Some ({| res_winner := winner state; res_turns := turn state;
           res_final_scores := scores; res_final_resources := resources |},
        record_results (winner state) (sim_players s), s).

End Loop.
End Simulator.

(** ** The balance analyzer ([balance_analyzer.py]) *)

Record BalanceReport := {
  total_games : Z;
  win_distribution : dict nat Q;
  fairness_score : Q;
  average_game_length : Q;
  game_length_std : Q;
  complexity_score : Q;
  engagement_score : Q;
  balance_grade : string
}.

Definition Qsum (l : list Q) : Q := fold_right Qplus 0%Q l.

(** [np.mean]; the mean of an empty list is NaN, which the rationals do not
    have: [None]. *)
Definition np_mean (l : list Q) : option Q :=
  match l with
  | [] => None
  | _ => Some (Qsum l / inject_Z (Z.of_nat (length l)))%Q
  end.

(** [np.var]: the population variance. *)
Definition np_var (l : list Q) : option Q :=
  m ← np_mean l;
  np_mean (map (fun x => ((x - m) * (x - m))%Q) l).

(** [Counter(l)] *)
Definition Counter (l : list nat) : dict nat Z :=
  fold_left (fun d x => PyDict.set x (default 0 (PyDict.get x d) + 1) d) l [].

Definition range (n : Z) : list nat := seq 0 (Z.to_nat n).

Definition _empty_analysis : BalanceReport :=
  {| total_games := 0; win_distribution := []; fairness_score := 0;
     average_game_length := 0; game_length_std := 0; complexity_score := 0;
     engagement_score := 0; balance_grade := "N/A" |}.

Definition _calculate_win_distribution (winners : list nat) (num_players : Z)
  : dict nat Q :=
  match winners with
  | [] => PyDict.comprehension id (fun _ => 0%Q) (range num_players)
  | _ =>
      let win_counts := Counter winners in
      let total_games := Z.of_nat (length winners) in
      PyDict.comprehension id
        (fun player_id =>
           (inject_Z (default 0%Z (PyDict.get player_id win_counts))
              / inject_Z total_games * 100)%Q)
        (range num_players)
  end.

(** [_calculate_fairness_score]: [100.0 / num_players] is a
    [ZeroDivisionError] for no players. *)
Definition _calculate_fairness_score (winners : list nat) (num_players : Z) : option Q :=
  match winners with
  | [] => Some 0%Q
  | _ =>
      let win_dist := _calculate_win_distribution winners num_players in
      let win_percentages := PyDict.values win_dist in
      if decide (num_players = 0) then None
      else
        let ideal_percentage := (100 / inject_Z num_players)%Q in
        variance ← np_var win_percentages;
        let max_variance := (ideal_percentage * ideal_percentage)%Q in
        Some (100 * (1 - Qmin (variance / max_variance) 1))%Q
  end.

Definition _calculate_balance_grade (analysis : BalanceReport) : string :=
  let fairness := fairness_score analysis in
  if Qlt_le_dec fairness 90 then
    if Qlt_le_dec fairness 75 then
      if Qlt_le_dec fairness 60 then
        if Qlt_le_dec fairness 45 then "F (Unbalanced)" else "D (Poor)"
      else "C (Fair)"
    else "B (Good)"
  else "A (Excellent)".

(** The five letter grades of [_calculate_balance_grade]. *)
Definition letter_grades : list string :=
  ["A (Excellent)"; "B (Good)"; "C (Fair)"; "D (Poor)"; "F (Unbalanced)"].

Definition with_balance_grade (g : string) (r : BalanceReport) : BalanceReport :=
  {| total_games := total_games r; win_distribution := win_distribution r;
     fairness_score := fairness_score r;
     average_game_length := average_game_length r;
     game_length_std := game_length_std r; complexity_score := complexity_score r;
     engagement_score := engagement_score r; balance_grade := g |}.

(** [[r['turns'] for r in results]] *)
Definition turns_of (results : list SimulationResult) : list Q :=
  map (fun r => inject_Z (res_turns r)) results.

Section Analyzer.
(** [np.std] is the square root of [np.var]; the root is a parameter. *)
Variable np_sqrt : Q -> Q.

Definition np_std (l : list Q) : option Q := v ← np_var l; Some (np_sqrt v).

Definition _calculate_complexity (results : list SimulationResult) : option Q :=
  match results with
  | [] => Some 0%Q
  | _ =>
      let turns := turns_of results in
      avg_turns ← np_mean turns;
      std_turns ← np_std turns;
      let length_score := Qmin (avg_turns / 50 * 50) 50 in
      let variation_score := Qmin (std_turns / 10 * 50) 50 in
      Some (length_score + variation_score)%Q
  end.

Definition _calculate_engagement (results : list SimulationResult) : option Q :=
  match results with
  | [] => Some 0%Q
  | _ =>
      let turns := turns_of results in
      avg_turns ← np_mean turns;
      let length_engagement :=
        if Qlt_le_dec avg_turns 20 then (avg_turns / 20 * 100)%Q
        else if Qlt_le_dec 40 avg_turns then Qmax 0 (100 - (avg_turns - 40) * 2)
        else 100%Q in
      let score_engagement := 50%Q in
      Some ((length_engagement + score_engagement) / 2)%Q
  end.

(** [analyze_game_results] without the analyzer's history list, to which
    the report is appended. *)
Definition analyze_game_results (simulation_results : list SimulationResult)
    (num_players : Z) : option BalanceReport :=
  match simulation_results with
  | [] => Some _empty_analysis
  | _ =>
      let winners := omap res_winner simulation_results in
      let turns := turns_of simulation_results in
      fairness ← _calculate_fairness_score winners num_players;
      avg ← np_mean turns;
      std ← np_std turns;
      complexity ← _calculate_complexity simulation_results;
      engagement ← _calculate_engagement simulation_results;
      let analysis :=
        {| total_games := Z.of_nat (length simulation_results);
           win_distribution := _calculate_win_distribution winners num_players;
           fairness_score := fairness;
           average_game_length := avg;
           game_length_std := std;
           complexity_score := complexity;
           engagement_score := engagement;
           balance_grade := "N/A" |} in
      Some (with_balance_grade (_calculate_balance_grade analysis) analysis)
  end.

End Analyzer.

(** ** Recommendations and comparison ([balance_analyzer.py]) *)

Definition get_recommendations (analysis : BalanceReport) : list string :=
  let recommendations :=
    (if Qlt_le_dec (fairness_score analysis) 60
     then ["⚠️ Game appears unbalanced. Consider adjusting starting positions or mechanics."]
     else [])
    ++ (if Qlt_le_dec (average_game_length analysis) 10
        then ["⚡ Games are very short. Consider increasing complexity or board size."]
        else if Qlt_le_dec 60 (average_game_length analysis)
        then ["⏱️ Games are quite long. Consider speeding up win conditions."]
        else [])
    ++ (if Qlt_le_dec (complexity_score analysis) 30
        then ["📊 Low complexity detected. Add more mechanics or strategic depth."]
        else if Qlt_le_dec 80 (complexity_score analysis)
        then ["🧩 High complexity. May be too difficult for casual players."]
        else [])
    ++ (if Qlt_le_dec (engagement_score analysis) 50
        then ["😴 Low engagement score. Improve game dynamics and pacing."]
        else []) in
  match recommendations with
  | [] => ["✅ Game shows good balance! Continue training AI for further optimization."]
  | _ => recommendations
  end.

Definition _get_comparison_recommendation (analysis1 analysis2 : BalanceReport) : string :=
  let score1 := ((fairness_score analysis1 + engagement_score analysis1) / 2)%Q in
  let score2 := ((fairness_score analysis2 + engagement_score analysis2) / 2)%Q in
  if Qlt_le_dec (Qabs (score1 - score2)) 5 then "Both games are similarly balanced."
  else if Qlt_le_dec score2 score1
       then "Game 1 shows better overall balance and engagement."
       else "Game 2 shows better overall balance and engagement.".

Record Comparison := {
  game1 : BalanceReport;
  game2 : BalanceReport;
  better_fairness : Z;
  better_engagement : Z;
  recommendation : string
}.

Section Compare.
Variable np_sqrt : Q -> Q.

(** [compare_games]: both batches are analyzed with the same player count. *)
Definition compare_games (game1_results game2_results : list SimulationResult)
    (num_players : Z) : option Comparison :=
  analysis1 ← analyze_game_results np_sqrt game1_results num_players;
  analysis2 ← analyze_game_results np_sqrt game2_results num_players;
  Some {| game1 := analysis1;
          game2 := analysis2;
          better_fairness :=
            if Qlt_le_dec (fairness_score analysis2) (fairness_score analysis1)
            then 1 else 2;
          better_engagement :=
            if Qlt_le_dec (engagement_score analysis2) (engagement_score analysis1)
            then 1 else 2;
          recommendation := _get_comparison_recommendation analysis1 analysis2 |}.

End Compare.

(** ** Turn structure ([game_generator.py]) *)

(** [x in l] on strings. *)
Definition str_in (x : string) (l : list string) : bool := bool_decide (x ∈ l).

Definition _generate_turn_structure (mechanics : list string) : list string :=
  let base_actions := ["move"] in
  let base_actions :=
    if str_in "dice_rolling" mechanics then "roll_dice" :: base_actions else base_actions in
  let base_actions :=
    if str_in "card_drawing" mechanics then "draw_card" :: base_actions else base_actions in
  let base_actions :=
    if str_in "worker_placement" mechanics then base_actions ++ ["place_worker"]
    else base_actions in
  let base_actions :=
    if str_in "tile_placement" mechanics then base_actions ++ ["place_tile"]
    else base_actions in
  base_actions ++ ["end_turn"].

(** * Scenarios and notions used in the statements *)

(** A strategy configuration on an 8x8 board whose win-condition type is not
    one the simulator knows. *)
Definition unrecognized_config : GameConfig :=
  {| cfg_genre := Some "strategy"; cfg_board_size := Some 8; cfg_board_length := None;
     cfg_num_players := Some 2; cfg_pieces_per_player := Some 3;
     cfg_win_type := Some "capture_the_flag"; cfg_target_resources := None;
     cfg_control_percentage := None; cfg_goal_position := None;
     cfg_base_movement := None; cfg_dice_modifier := None;
     cfg_collection_rate := None |}.

(** The state of a fresh game of [unrecognized_config] after player 0 has
    walked to the far corner. *)
Definition at_goal : option (heap * GameState) :=
  '(h, state) ← initialize_game_state unrecognized_config ∅;
  h' ← write h (player_positions state) 0%nat (VTuple 7 7);
  Some (h', state).

(** An agent that has learnt one value, for moving right from the start of
    a two-player grid game. *)
Definition trained_player : QLearningPlayer :=
  with_q_table [(("0_0_1_0_0", "move_right"), 1 # 2)%Q] (new_player 0).

(** An action name without an underscore, such as [stay] or [collect]. *)
Definition plain_action (action : string) : Prop :=
  ~ In underscore (list_ascii_of_string action).

(** A resource game for one player: target 30, collection rate 3. *)
Definition resource_config : GameConfig :=
  {| cfg_genre := Some "resource_management"; cfg_board_size := None;
     cfg_board_length := None; cfg_num_players := Some 1;
     cfg_pieces_per_player := None; cfg_win_type := Some "resource_collection";
     cfg_target_resources := Some 30; cfg_control_percentage := None;
     cfg_goal_position := None; cfg_base_movement := None;
     cfg_dice_modifier := None; cfg_collection_rate := Some 3 |}.

(** The player that collects on every turn. *)
Definition collector : ScriptedPlayer :=
  {| script_action := "collect"; script_games := 0; script_wins := 0 |}.

(** The initial positions the specification describes: scalar 0 in a racing game,
    the corner [corners[id mod 4]] in every other genre. *)
Definition positions_by_genre (cfg : GameConfig) : Prop :=
  forall h state, initialize_game_state cfg ∅ = Some (h, state) ->
  forall p, p ∈ players cfg ->
    read h (player_positions state) p
    = Some (if decide (sim_genre cfg = "racing") then VInt 0
            else _get_starting_position cfg p).

(** A territory game of three players on a 6x6 board, five pieces each. *)
Definition territory_config : GameConfig :=
  {| cfg_genre := Some "territory_control"; cfg_board_size := Some 6;
     cfg_board_length := None; cfg_num_players := Some 3;
     cfg_pieces_per_player := Some 5; cfg_win_type := Some "territory_control";
     cfg_target_resources := None; cfg_control_percentage := Some (6 # 10)%Q;
     cfg_goal_position := None; cfg_base_movement := None;
     cfg_dice_modifier := None; cfg_collection_rate := None |}.

(** [k] calls of [decay_epsilon(decay_rate, min_epsilon)]. *)
Definition decay_steps (k : nat) (decay_rate min_epsilon : Q) (a : QLearningPlayer)
  : QLearningPlayer :=
  Nat.iter k (decay_epsilon decay_rate min_epsilon) a.

(** What holds of a logged call: the heap it sees is the one the action
    produced from the heap before, its two states share the three dicts and
    the turn, and every agent computes the same key for both. *)
Definition call_ok (cfg : GameConfig) (c : UpdateCall) : Prop :=
  (exists r reward r',
      _execute_action cfg (call_heap_before c) (call_state c) (call_player c)
        (call_action c) r
      = Some (call_heap c, copy (call_state c), reward, false, r'))
  /\ player_positions (call_state c) = player_positions (call_next_state c)
  /\ player_resources (call_state c) = player_resources (call_next_state c)
  /\ player_scores (call_state c) = player_scores (call_next_state c)
  /\ turn (call_state c) = turn (call_next_state c)
  /\ forall a : QLearningPlayer,
       get_state_key a (call_heap c) (call_state c)
       = get_state_key a (call_heap c) (call_next_state c).

(** A one-player strategy game on a 2x2 board: the goal is (1, 1). *)
Definition small_grid_config : GameConfig :=
  {| cfg_genre := Some "strategy"; cfg_board_size := Some 2; cfg_board_length := None;
     cfg_num_players := Some 1; cfg_pieces_per_player := None;
     cfg_win_type := Some "position_or_elimination"; cfg_target_resources := None;
     cfg_control_percentage := None; cfg_goal_position := None;
     cfg_base_movement := None; cfg_dice_modifier := None;
     cfg_collection_rate := None |}.

(** A tape on which the agent always explores, moves right on its first
    turn and down on its second. *)
Definition right_then_down : Rng :=
  {| draws := fun n => if (n =? 3)%nat then (1 # 2)%Q else 0%Q; cursor := 0 |}.

Section RationalNotions.
Local Open Scope Q_scope.

(** The win percentage of player [p]: its share of the decided games. *)
Definition win_percentage (winners : list nat) (p : nat) : Q :=
  inject_Z (Z.of_nat (count_occ Nat.eq_dec winners p))
    / inject_Z (Z.of_nat (length winners)) * 100.

(** The win percentages of the players [0 .. num_players - 1]. *)
Definition win_percentages (winners : list nat) (num_players : Z) : list Q :=
  map (win_percentage winners) (range num_players).

(** Four players who each win 25 of 100 decided games. *)
Definition even_winners : list nat :=
  concat (replicate 25 [0; 1; 2; 3]%nat).

(** A racing state in which the agent's position is a grid coordinate: the
    one case in which [get_valid_actions], and with it the update, raises. *)
Definition racing_on_grid (a : QLearningPlayer) (h : heap) (s : GameState) : Prop :=
  genre s = "racing"
  /\ exists x y, read_default h (player_positions s) (player_id a) (VTuple 0 0) = VTuple x y.

(** Agents that agree on identity, hyper-parameters and, up to [==], on
    every table value. *)
Definition agent_equiv (a b : QLearningPlayer) : Prop :=
  player_id a = player_id b
  /\ learning_rate a = learning_rate b
  /\ discount_factor a = discount_factor b
  /\ forall k act, get_q_value a k act == get_q_value b k act.

(** [n] successive calls of [update_q_value] with the same arguments. *)
Fixpoint update_n (n : nat) (a : QLearningPlayer) (h : heap) (s : GameState)
    (action : string) (reward : Q) (s' : GameState) (done : bool)
  : option QLearningPlayer :=
  match n with
  | O => Some a
  | S n =>
      a' ← update_q_value a h s action reward s' done;
      update_n n a' h s action reward s' done
  end.

(** The heap and state of a fresh game with every setting at its default. *)
Definition initial_heap : heap :=
  <[2%nat := [(0%nat, VInt 0); (1%nat, VInt 0)]]>
    (<[1%nat := [(0%nat, VInt 0); (1%nat, VInt 0)]]>
       (<[0%nat := [(0%nat, VTuple 0 0); (1%nat, VTuple 0 0)]]> ∅)).
Definition initial_state : GameState :=
  {| turn := 0; board_size := 8; genre := "strategy"; track_length := 30;
     player_positions := 0%nat; player_resources := 1%nat; player_scores := 2%nat;
     eliminated_players := []; board := Grid 8; game_over := false;
     winner := None; can_collect_resource := false; can_attack := false |}.

End RationalNotions.

(** ** Scenarios and notions of the further properties *)

(** The seven action names. *)
Definition action_names : list string :=
  ["move_left"; "move_right"; "move_up"; "move_down"; "collect"; "attack"; "stay"].

(** A tape whose every draw is 0. *)
Definition zero_tape : Rng := {| draws := fun _ => 0%Q; cursor := 0 |}.

(** Closes a decidable goal by evaluating its decision procedure. *)
Ltac by_decide := refine (bool_decide_unpack _ _); vm_compute; exact I.

(** Agents that differ in their value table at most. *)
Definition same_but_table (a b : QLearningPlayer) : Prop :=
  player_id a = player_id b /\ learning_rate a = learning_rate b
  /\ discount_factor a = discount_factor b /\ epsilon a = epsilon b
  /\ wins a = wins b /\ games_played a = games_played b
  /\ total_reward a = total_reward b.

(** Agents that differ in table and statistics at most. *)
Definition same_parameters (a b : QLearningPlayer) : Prop :=
  player_id a = player_id b /\ learning_rate a = learning_rate b
  /\ discount_factor a = discount_factor b /\ epsilon a = epsilon b.

(** [k] is what [load_model] makes of the text of one of [items]' keys. *)
Definition split_of (items : list (string * json)) (k : string * string) : Prop :=
  exists key v, (key, v) ∈ items /\ rsplit1 underscore key = Some k.

(** A file system with one model file: one table entry and no statistics. *)
Definition one_entry_files : filesystem :=
  <["model.json" := JsonFile (JObject [("q_table", JObject [("s_stay", JFloat 1)])])]> ∅.

(** A racing game for two players: track length 30, base movement 2, no
    dice. *)
Definition racing_config : GameConfig :=
  {| cfg_genre := Some "racing"; cfg_board_size := None; cfg_board_length := Some 30;
     cfg_num_players := Some 2; cfg_pieces_per_player := Some 1;
     cfg_win_type := Some "race_finish"; cfg_target_resources := None;
     cfg_control_percentage := None; cfg_goal_position := None;
     cfg_base_movement := Some 2; cfg_dice_modifier := Some false;
     cfg_collection_rate := None |}.

(** The fresh game of [racing_config]. *)
Definition racing_heap : heap :=
  <[2%nat := [(0%nat, VInt 0); (1%nat, VInt 0)]]>
    (<[1%nat := [(0%nat, VInt 0); (1%nat, VInt 0)]]>
       (<[0%nat := [(0%nat, VInt 0); (1%nat, VInt 0)]]> ∅)).
Definition racing_state : GameState :=
  {| turn := 0; board_size := 8; genre := "racing"; track_length := 30;
     player_positions := 0%nat; player_resources := 1%nat; player_scores := 2%nat;
     eliminated_players := []; board := Track 30; game_over := false;
     winner := None; can_collect_resource := false; can_attack := false |}.

(** A resource game for two players with the real agents: target 30,
    collection rate 3. *)
Definition resource_duel_config : GameConfig :=
  {| cfg_genre := Some "resource_management"; cfg_board_size := Some 8;
     cfg_board_length := None; cfg_num_players := Some 2;
     cfg_pieces_per_player := Some 3; cfg_win_type := Some "resource_collection";
     cfg_target_resources := Some 30; cfg_control_percentage := None;
     cfg_goal_position := None; cfg_base_movement := None;
     cfg_dice_modifier := None; cfg_collection_rate := Some 3 |}.

(** A state in which no winner has been declared. *)
Definition undecided (st : GameState) : Prop :=
  game_over st = false /\ winner st = None.

(** A state in which [p] has been declared the winner, on a heap in which
    [p] meets the win condition. *)
Definition won_by (cfg : GameConfig) (h : heap) (st : GameState) (p : nat) : Prop :=
  game_over st = true /\ winner st = Some p
  /\ _check_win_condition cfg h st p = Some true.

(** The resources dict of a fresh game: 0 for every player. *)
Definition no_resources (cfg : GameConfig) : dict nat value :=
  PyDict.comprehension id (fun _ => VInt 0) (players cfg).

(** What a game in progress keeps of an agent: everything but the value
    table and the total reward, and these too outside training. *)
Definition kept_in_play (training : bool) (a a' : QLearningPlayer) : Prop :=
  player_id a' = player_id a /\ learning_rate a' = learning_rate a
  /\ discount_factor a' = discount_factor a /\ epsilon a' = epsilon a
  /\ wins a' = wins a /\ games_played a' = games_played a
  /\ (training = false -> a' = a).

(** A scripted player that always moves right. *)
Definition racer : ScriptedPlayer :=
  {| script_action := "move_right"; script_games := 0; script_wins := 0 |}.

(** What one training update of a racing game won at the finish looks
    like: the player stood on a scalar position, the movement fits the
    action, the update is terminal exactly when the track end is reached,
    and the reward is half the movement minus 0.01, plus 200 when
    terminal. *)
Definition racing_update (cfg : GameConfig) (c : UpdateCall) : Prop :=
  exists p0 movement : Z,
    read (call_heap_before c) (player_positions (call_state c)) (call_player c)
    = Some (VInt p0)
    /\ (if decide (call_action c = "move_right" \/ call_action c = "move_down")
        then default 2 (cfg_base_movement cfg) <= movement
             <= default 2 (cfg_base_movement cfg) + 2
             /\ (default false (cfg_dice_modifier cfg) = false ->
                 movement = default 2 (cfg_base_movement cfg))
        else movement = 0)
    /\ call_done c = (config_track_length cfg - 1 <=? p0 + movement)%Z
    /\ (call_reward c == inject_Z movement * (5 # 10) - (1 # 100)
                         + (if call_done c then 200 else 0))%Q.

(** A racing game for two players with three pieces each (track length 30,
    board size 8). *)
Definition racing_pieces_config : GameConfig :=
  {| cfg_genre := Some "racing"; cfg_board_size := None; cfg_board_length := Some 30;
     cfg_num_players := Some 2; cfg_pieces_per_player := Some 3;
     cfg_win_type := Some "race_finish"; cfg_target_resources := None;
     cfg_control_percentage := None; cfg_goal_position := None;
     cfg_base_movement := Some 2; cfg_dice_modifier := Some false;
     cfg_collection_rate := None |}.

(** The message [get_recommendations] gives when nothing is found wanting. *)
Definition good_balance_message : string :=
  "✅ Game shows good balance! Continue training AI for further optimization.".

(** Two batches of two games each, all of them ten turns long: in the first
    the two players win one game each, in the second player 0 wins both. *)
Definition even_batch : list SimulationResult :=
  [ {| res_winner := Some 0%nat; res_turns := 10;
       res_final_scores := []; res_final_resources := [] |};
    {| res_winner := Some 1%nat; res_turns := 10;
       res_final_scores := []; res_final_resources := [] |} ].
Definition one_sided_batch : list SimulationResult :=
  [ {| res_winner := Some 0%nat; res_turns := 10;
       res_final_scores := []; res_final_resources := [] |};
    {| res_winner := Some 0%nat; res_turns := 10;
       res_final_scores := []; res_final_resources := [] |} ].

(** A root that is exact at 0, the one variance of the batches above. *)
Definition sqrt_at_zero (v : Q) : Q := v.

(** The steps a turn can have, in the order in which a turn lists them. *)
Definition turn_steps : list string :=
  ["draw_card"; "roll_dice"; "move"; "place_worker"; "place_tile"; "end_turn"].

(** * Properties *)

(** ** Dictionaries *)

Section DictFacts.
Context {K V : Type} `{EqDecision K}.
Implicit Types (k : K) (v : V) (d : dict K V).

Lemma get_set_eq k v d : PyDict.get k (PyDict.set k v d) = Some v.
Proof.
  induction d as [|[k' v'] d IH]; simpl.
  - destruct (decide (k = k)); congruence.
  - destruct (decide (k = k')) as [->|Hne]; simpl.
    + destruct (decide (k' = k')); congruence.
    + destruct (decide (k = k')); congruence.
Qed.

Lemma get_set_ne k k' v d : k <> k' -> PyDict.get k' (PyDict.set k v d) = PyDict.get k' d.
Proof.
  intros Hne. induction d as [|[k0 v0] d IH]; simpl.
  - destruct (decide (k' = k)); congruence.
  - destruct (decide (k = k0)) as [->|Hk]; simpl.
    + destruct (decide (k' = k0)); congruence.
    + destruct (decide (k' = k0)); congruence.
Qed.

Lemma get_set k k' v d :
  PyDict.get k' (PyDict.set k v d) = if decide (k = k') then Some v else PyDict.get k' d.
Proof.
  destruct (decide (k = k')) as [->|Hne];
    [apply get_set_eq | apply get_set_ne, Hne].
Qed.

(** Reading a comprehension whose key function is the identity. *)
Lemma get_fold_set (vf : K -> V) (l : list K) k d :
  PyDict.get k (fold_left (fun d x => PyDict.set x (vf x) d) l d)
  = if decide (k ∈ l) then Some (vf k) else PyDict.get k d.
Proof.
  revert d. induction l as [|x l IH]; intros d; simpl.
  - destruct (decide (k ∈ [])) as [Hin|_]; [inversion Hin | reflexivity].
  - rewrite IH, get_set.
    destruct (decide (k ∈ l)) as [Hl|Hl].
    + rewrite decide_True by (right; exact Hl). reflexivity.
    + destruct (decide (x = k)) as [->|Hx].
      * rewrite decide_True by left. reflexivity.
      * rewrite decide_False; [reflexivity|].
        intros Hin. apply elem_of_cons in Hin. destruct Hin; congruence.
Qed.

Lemma get_comprehension_id (vf : K -> V) (l : list K) k :
  PyDict.get k (PyDict.comprehension id vf l)
  = if decide (k ∈ l) then Some (vf k) else None.
Proof. unfold PyDict.comprehension. apply (get_fold_set vf l k []). Qed.

(** Setting a key that is not in the dict appends the entry. *)
Lemma set_fresh k v d : k ∉ PyDict.keys d -> PyDict.set k v d = d ++ [(k, v)].
Proof.
  induction d as [|[k' v'] d IH]; simpl; intros Hk; [reflexivity|].
  destruct (decide (k = k')) as [->|Hne].
  - exfalso. apply Hk. left.
  - f_equal. apply IH. intros Hin. apply Hk. right. exact Hin.
Qed.

(** A comprehension over distinct keys lists its entries in order. *)
Lemma comprehension_NoDup {A : Type} (kf : A -> K) (vf : A -> V) (l : list A) :
  NoDup (map kf l) -> PyDict.comprehension kf vf l = map (fun x => (kf x, vf x)) l.
Proof.
  unfold PyDict.comprehension.
  assert (Hgen : forall (l : list A) d,
             (forall x, x ∈ map kf l -> x ∉ PyDict.keys d) -> NoDup (map kf l) ->
             fold_left (fun d x => PyDict.set (kf x) (vf x) d) l d
             = d ++ map (fun x => (kf x, vf x)) l).
  { clear l. induction l as [|x l IH]; intros d Hd Hnd; cbn [fold_left map].
    - symmetry. apply app_nil_r.
    - cbn [map] in Hd, Hnd. apply NoDup_cons in Hnd. destruct Hnd as [Hx Hnd].
      rewrite set_fresh by (apply Hd; left).
      rewrite IH; [rewrite <- app_assoc; reflexivity | | exact Hnd].
      intros y Hy. unfold PyDict.keys. rewrite map_app. cbn [map fst].
      intros Hin. apply elem_of_app in Hin. destruct Hin as [Hin|Hin].
      + apply (Hd y); [right; exact Hy | exact Hin].
      + apply list_elem_of_singleton in Hin. subst y. exact (Hx Hy). }
  intros Hnd. apply (Hgen l []); [|exact Hnd].
  intros x _ Hin. inversion Hin.
Qed.

End DictFacts.

(** ** Win-condition dispatch *)

(** Every type other than the first three is evaluated by the goal-position
    rule of the final [else] branch. *)
Lemma check_win_condition_else cfg h state p :
  let win_type := default "position_or_elimination" (cfg_win_type cfg) in
  win_type <> "race_finish" ->
  win_type <> "resource_collection" ->
  win_type <> "territory_control" ->
  _check_win_condition cfg h state p
  = (pos ← read h (player_positions state) p;
     Some (value_eqb pos (VTuple (fst (goal_position cfg)) (snd (goal_position cfg))))).
Proof.
  intros wt H1 H2 H3. unfold _check_win_condition. fold wt.
  rewrite !decide_False by assumption. reflexivity.
Qed.

(** C1: with the unrecognized win-condition type [capture_the_flag], the
    check is satisfied for player 0 standing on the default goal (7, 7): the
    final [else] branch applies the goal-position rule, so the answer is
    [True] where the specification says it is always [False]. *)
Theorem check_win_condition_unrecognized_satisfied :
  (default "position_or_elimination" (cfg_win_type unrecognized_config)
     ∉ ["race_finish"; "resource_collection"; "territory_control";
        "position_or_elimination"])
  /\ (exists h state,
        at_goal = Some (h, state)
        /\ read h (player_positions state) 0%nat = Some (VTuple 7 7)
        /\ _check_win_condition unrecognized_config h state 0%nat = Some true).
Proof.
  split.
  - intros Hin. repeat (apply elem_of_cons in Hin; destruct Hin as [Hin|Hin];
                        [discriminate Hin|]). inversion Hin.
  - destruct at_goal as [[h state]|] eqn:Hgoal; vm_compute in Hgoal;
      [|discriminate Hgoal].
    injection Hgoal as <- <-.
    eexists _, _. split; [reflexivity|].
    split; vm_compute; reflexivity.
Qed.

(** ** Model persistence *)

(** [initial_heap] and [initial_state] are the fresh game of the all-defaults
    configuration, and the key of [trained_player]'s entry is the key the
    agent computes there. *)
Lemma initial_game :
  initialize_game_state empty_config ∅ = Some (initial_heap, initial_state).
Proof. vm_compute. reflexivity. Qed.

Lemma trained_player_key :
  get_state_key trained_player initial_heap initial_state = "0_0_1_0_0"
  /\ get_valid_actions trained_player initial_heap initial_state
     = Some ["move_right"; "move_down"; "stay"].
Proof. vm_compute. split; reflexivity. Qed.

(** A missing file, or one that is not JSON, is reported and changes
    nothing. *)
Lemma load_model_missing a filepath (fs : filesystem) :
  fs !! filepath = None -> load_model a filepath fs = Reported a.
Proof. intros Hfs. unfold load_model. rewrite Hfs. reflexivity. Qed.

Lemma load_model_garbage a filepath (fs : filesystem) text :
  fs !! filepath = Some (GarbageFile text) -> load_model a filepath fs = Reported a.
Proof. intros Hfs. unfold load_model. rewrite Hfs. reflexivity. Qed.

(** A JSON document without a [q_table] object is reported, but only after
    the table has been emptied. *)
Lemma load_model_no_table a filepath (fs : filesystem) model :
  fs !! filepath = Some (JsonFile (JObject model)) ->
  PyDict.get "q_table" model = None ->
  load_model a filepath fs = Reported (with_q_table [] a).
Proof. intros Hfs Hq. unfold load_model. rewrite Hfs, Hq. reflexivity. Qed.

(** C2: loading the well-formed JSON document [{}], which is malformed as
    a model (it has no [q_table]), is reported, and the agent's value table
    is empty afterwards: the learnt entry is lost, where the specification
    says the table is what it was before the call.  The statistics are
    unchanged. *)
Theorem load_model_malformed_clears_table :
  let fs : filesystem := <["model.json" := JsonFile (JObject [])]> ∅ in
  exists a',
    load_model trained_player "model.json" fs = Reported a'
    /\ q_table trained_player = [(("0_0_1_0_0", "move_right"), 1 # 2)%Q]
    /\ q_table a' = []
    /\ q_table a' <> q_table trained_player
    /\ wins a' = wins trained_player
    /\ games_played a' = games_played trained_player
    /\ total_reward a' = total_reward trained_player.
Proof.
  eexists. split; [vm_compute; reflexivity|].
  repeat split; try reflexivity. simpl. discriminate.
Qed.

(** C3: saving [trained_player] and loading the artifact back does not
    reconstruct its table.  The key [("0_0_1_0_0", "move_right")] is written
    as ["0_0_1_0_0_move_right"] and split at its last underscore, so the
    value comes back under [("0_0_1_0_0_move", "right")] and the original
    pair reads as the default 0. *)
Theorem save_load_loses_move_entry :
  let fs := save_model trained_player "model.json" ∅ in
  exists a',
    load_model (new_player 0) "model.json" fs = Loaded a'
    /\ get_q_value trained_player "0_0_1_0_0" "move_right" = (1 # 2)%Q
    /\ q_table a' = [(("0_0_1_0_0_move", "right"), 1 # 2)%Q]
    /\ get_q_value a' "0_0_1_0_0" "move_right" = 0%Q
    /\ q_table a' <> q_table trained_player.
Proof.
  eexists. split; [vm_compute; reflexivity|].
  repeat split; try reflexivity. simpl. discriminate.
Qed.

(** *** What the round trip does preserve *)

Section RoundTrip.

Lemma rsplit1_plain action : plain_action action -> rsplit1 underscore action = None.
Proof.
  unfold plain_action. induction action as [|c action IH]; simpl; intros Hp; [reflexivity|].
  rewrite IH by tauto. destruct (decide (c = underscore)) as [->|Hc]; [|reflexivity].
  exfalso. apply Hp. left. reflexivity.
Qed.

(** Splitting an encoded key at its last underscore recovers the pair when
    the action contains none. *)
Lemma rsplit1_encode_key state action :
  plain_action action -> rsplit1 underscore (encode_key (state, action)) = Some (state, action).
Proof.
  intros Hp. unfold encode_key. cbn [fst snd].
  induction state as [|c state IH].
  - change ("" +:+ "_" +:+ action) with (String underscore action).
    cbn [rsplit1]. rewrite (rsplit1_plain action Hp).
    destruct (decide (underscore = underscore)); [reflexivity | congruence].
  - change (String c state +:+ "_" +:+ action)
      with (String c (state +:+ "_" +:+ action)).
    cbn [rsplit1]. rewrite IH. reflexivity.
Qed.

Lemma encode_key_inj k1 k2 :
  plain_action (snd k1) -> plain_action (snd k2) ->
  encode_key k1 = encode_key k2 -> k1 = k2.
Proof.
  destruct k1 as [s1 a1], k2 as [s2 a2]. cbn [snd]. intros H1 H2 Heq.
  pose proof (rsplit1_encode_key s1 a1 H1) as E1.
  pose proof (rsplit1_encode_key s2 a2 H2) as E2.
  rewrite Heq in E1. congruence.
Qed.

Lemma load_entries_plain (entries t : dict (string * string) Q) (b : QLearningPlayer) :
  NoDup (PyDict.keys (t ++ entries)) ->
  Forall (fun k => plain_action (snd k)) (PyDict.keys entries) ->
  load_entries (map (fun kv => (encode_key (fst kv), JFloat (snd kv))) entries)
               (with_q_table t b)
  = Loaded (with_q_table (t ++ entries) b).
Proof.
  revert t. induction entries as [|[[state action] v] entries IH]; intros t Hnd Hplain.
  - cbn. rewrite app_nil_r. reflexivity.
  - cbn [map load_entries fst snd].
    apply Forall_cons in Hplain. destruct Hplain as [Hp Hplain]. cbn [fst snd] in Hp.
    rewrite (rsplit1_encode_key state action Hp). cbn [json_float q_table with_q_table].
    rewrite set_fresh.
    + specialize (IH (t ++ [((state, action), v)])).
      rewrite <- app_assoc in IH. cbn [app] in IH.
      replace (with_q_table (t ++ [((state, action), v)])%list (with_q_table t b))
        with (with_q_table (t ++ [((state, action), v)])%list b) by reflexivity.
      apply IH; assumption.
    + unfold PyDict.keys in *. rewrite map_app in Hnd.
      apply NoDup_app in Hnd. destruct Hnd as (_ & Hdisj & _).
      intros Hin. apply (Hdisj _ Hin). left.
Qed.

(** Saving and reloading an agent whose actions contain no underscore
    ([stay], [collect], [attack]) gives back its table and statistics. *)
Lemma save_load_plain_actions (a b : QLearningPlayer) (filepath : string)
    (fs : filesystem) :
  NoDup (PyDict.keys (q_table a)) ->
  Forall (fun k => plain_action (snd k)) (PyDict.keys (q_table a)) ->
  exists a',
    load_model b filepath (save_model a filepath fs) = Loaded a'
    /\ q_table a' = q_table a
    /\ wins a' = wins a
    /\ games_played a' = games_played a
    /\ total_reward a' = total_reward a.
Proof.
  intros Hnd Hplain. unfold load_model, save_model.
  rewrite lookup_insert_eq. unfold model_data.
  change (PyDict.get "q_table" _)
    with (Some (JObject (PyDict.comprehension (fun kv => encode_key (fst kv))
                           (fun kv : (string * string) * Q => JFloat (snd kv)) (q_table a)))).
  rewrite comprehension_NoDup.
  - rewrite (load_entries_plain (q_table a) [] b) by assumption.
    cbn [app]. unfold restore_stats.
    change (PyDict.get "stats" _) with (Some (get_stats a)).
    unfold get_stats.
    change (stats_get json_int 0 "wins" _) with (Some (wins a)).
    change (stats_get json_int 0 "games_played" _) with (Some (games_played a)).
    change (stats_get json_float 0%Q "total_reward" _) with (Some (total_reward a)).
    eexists. split; [reflexivity|]. repeat split.
  - rewrite <- (map_map fst encode_key). apply NoDup_fmap_2_strong; [|exact Hnd].
    intros k1 k2 H1 H2. rewrite Forall_forall in Hplain.
    apply encode_key_inj; apply Hplain; assumption.
Qed.

End RoundTrip.

(** ** The empty batch *)

(** With no decided winner the win distribution has one zero entry per
    player. *)
Lemma win_distribution_no_winner (num_players : Z) :
  PyDict.keys (_calculate_win_distribution [] num_players) = range num_players
  /\ Forall (fun p => p = 0%Q) (PyDict.values (_calculate_win_distribution [] num_players)).
Proof.
  unfold _calculate_win_distribution.
  rewrite comprehension_NoDup
    by (rewrite map_id; apply NoDup_ListNoDup, List.seq_NoDup).
  unfold PyDict.keys, PyDict.values. rewrite !map_map. cbn [fst snd].
  split; [apply map_id|].
  apply Forall_forall. intros q Hq. apply list_elem_of_In, in_map_iff in Hq.
  destruct Hq as (x & <- & _). reflexivity.
Qed.

(** C4: for every player count the analysis of an empty batch is the fixed
    report of [_empty_analysis]: fairness 0 and the grade ["N/A"], which is
    none of the five letter grades, but a win distribution with no entry at
    all; for two players the specification asks for the entries
    [0: 0.0, 1: 0.0] that [_calculate_win_distribution] gives when no game
    had a winner. *)
Theorem analyze_empty_batch_has_no_distribution :
  (forall (np_sqrt : Q -> Q) (num_players : Z),
     exists report,
       analyze_game_results np_sqrt [] num_players = Some report
       /\ fairness_score report = 0%Q
       /\ balance_grade report = "N/A"
       /\ (balance_grade report ∉ letter_grades)
       /\ win_distribution report = [])
  /\ _calculate_win_distribution [] 2 = [(0%nat, 0%Q); (1%nat, 0%Q)].
Proof.
  split; [|reflexivity].
  intros np_sqrt num_players. exists _empty_analysis.
  repeat split; try reflexivity.
  simpl. intros Hin.
  repeat (apply elem_of_cons in Hin; destruct Hin as [Hin|Hin]; [discriminate Hin|]).
  inversion Hin.
Qed.

(** ** The resource-collection scenario *)

(** C6: with target 30 and collection rate 3 the single player who always
    collects wins with 30 resources, that is on the tenth turn, and the
    returned result reports [turns = 9], the zero-based index of that turn,
    where the specification says the turn count is 10. *)
Theorem simulate_collect_reports_turn_9 :
  forall (training : bool) (r : Rng),
    (fun out => fst (fst out)) <$> simulate_game resource_config training ∅ [collector] r
    = Some {| res_winner := Some 0%nat; res_turns := 9;
              res_final_scores := [(0%nat, VInt 30)];
              res_final_resources := [(0%nat, VInt 30)] |}.
Proof. intros [] r; vm_compute; reflexivity. Qed.

(** ** Initialization *)

(** [np.zeros] accepts a dimension that is not negative and keeps the
    array within [np_max_size]. *)
Lemma initialize_board_Some cfg :
  (if decide (sim_genre cfg = "racing")
   then 0 <= config_track_length cfg /\ 8 * config_track_length cfg <= np_max_size
   else 0 <= sim_board_size cfg
        /\ 8 * (sim_board_size cfg * sim_board_size cfg) <= np_max_size) ->
  is_Some (_initialize_board cfg).
Proof.
  unfold _initialize_board. intros Hdim.
  destruct (decide (sim_genre cfg = "racing"));
    rewrite decide_True by exact Hdim; eexists; reflexivity.
Qed.

(** The three dicts allocated by [initialize_game_state]. *)
Lemma initialize_game_state_dicts cfg (h h' : heap) state :
  initialize_game_state cfg h = Some (h', state) ->
  h' !! player_positions state
    = Some (PyDict.comprehension id (initial_position cfg) (players cfg))
  /\ h' !! player_resources state
    = Some (PyDict.comprehension id (fun _ => VInt 0) (players cfg))
  /\ h' !! player_scores state
    = Some (PyDict.comprehension id (fun _ => VInt 0) (players cfg)).
Proof.
  unfold initialize_game_state, fresh_loc. intros Hinit.
  destruct (_initialize_board cfg) as [b|]; [|discriminate].
  cbn [mbind option_bind] in Hinit. injection Hinit as <- <-.
  cbn [player_positions player_resources player_scores].
  set (pos := PyDict.comprehension id (initial_position cfg) (players cfg)).
  set (zero := PyDict.comprehension id (fun _ => VInt 0) (players cfg)).
  set (lp := fresh (dom h)).
  set (h1 := <[lp := pos]> h).
  set (lr := fresh (dom h1)).
  set (h2 := <[lr := zero]> h1).
  set (ls := fresh (dom h2)).
  assert (Hlr : lr <> lp).
  { intros Heq. apply (is_fresh (dom h1)). fold lr. rewrite Heq.
    unfold h1. rewrite dom_insert_L. set_solver. }
  assert (Hls : ls <> lp /\ ls <> lr).
  { split; intros Heq; apply (is_fresh (dom h2)); fold ls; rewrite Heq;
      unfold h2, h1; rewrite !dom_insert_L; set_solver. }
  destruct Hls as [Hlsp Hlsr].
  split; [|split].
  - rewrite lookup_insert_ne by exact Hlsp.
    unfold h2. rewrite lookup_insert_ne by exact Hlr.
    unfold h1. apply lookup_insert_eq.
  - rewrite lookup_insert_ne by exact Hlsr.
    unfold h2. apply lookup_insert_eq.
  - apply lookup_insert_eq.
Qed.

Lemma elem_of_players cfg (p : nat) :
  p ∈ players cfg <-> (p < Z.to_nat (sim_num_players cfg))%nat.
Proof.
  unfold players. rewrite list_elem_of_In, in_seq. lia.
Qed.

(** C5, counterexample: in the all-defaults configuration (strategy, two
    players, one piece per player, 8x8 board) player 1 starts on (0, 0), not
    on the corner (0, 7) that cycling by player id gives. *)
Lemma positions_by_genre_fails_for_single_piece :
  ~ positions_by_genre empty_config.
Proof.
  unfold positions_by_genre. intros Hall.
  specialize (Hall _ _ initial_game 1%nat).
  assert (Hin : 1%nat ∈ players empty_config) by (apply elem_of_players; vm_compute; lia).
  specialize (Hall Hin). vm_compute in Hall. discriminate Hall.
Qed.

(** C5, amended: for one piece per player or a genre other than racing,
    whenever [_initialize_board] returns a board, initialization returns a
    state, and in it the starting position is selected by
    [pieces_per_player].  With one piece per player it is the scalar 0 in a
    racing game and (0, 0) in every other genre, for every player; with
    several pieces (then in a genre other than racing) it is the corner
    [corners[id mod 4]] of the board.  Resources and scores start at 0. *)
Theorem initialize_game_state_positions cfg (h : heap) (p : nat) :
  default 1 (cfg_pieces_per_player cfg) = 1 \/ sim_genre cfg <> "racing" ->
  is_Some (_initialize_board cfg) ->
  (p < Z.to_nat (sim_num_players cfg))%nat ->
  let size := sim_board_size cfg in
  exists h' state,
    initialize_game_state cfg h = Some (h', state)
    /\ read h' (player_positions state) p
       = Some (if decide (default 1 (cfg_pieces_per_player cfg) = 1) then
                 if decide (sim_genre cfg = "racing") then VInt 0 else VTuple 0 0
               else
                 match (p mod 4)%nat with
                 | 0%nat => VTuple 0 0
                 | 1%nat => VTuple 0 (size - 1)
                 | 2%nat => VTuple (size - 1) 0
                 | _ => VTuple (size - 1) (size - 1)
                 end)
    /\ read h' (player_resources state) p = Some (VInt 0)
    /\ read h' (player_scores state) p = Some (VInt 0).
Proof.
  intros Hdomain Hboard Hp size.
  assert (Hsome : is_Some (initialize_game_state cfg h)).
  { unfold initialize_game_state.
    destruct Hboard as [b ->]. eexists. reflexivity. }
  destruct Hsome as [[h' state] Hinit]. exists h', state.
  split; [exact Hinit|].
  destruct (initialize_game_state_dicts cfg h h' state Hinit) as (Hpos & Hres & Hsc).
  apply elem_of_players in Hp.
  unfold read. rewrite Hpos, Hres, Hsc. cbn [mbind option_bind].
  rewrite !get_comprehension_id.
  destruct (decide (p ∈ players cfg)) as [_|Hn]; [|contradiction].
  split; [|split; reflexivity].
  f_equal. unfold initial_position.
  destruct (decide (default 1 (cfg_pieces_per_player cfg) = 1)) as [H1|H1].
  - destruct (decide (sim_genre cfg = "racing")) as [Hg|Hg].
    + rewrite decide_False by (intros Hn; exact (Hn Hg)). reflexivity.
    + rewrite decide_True by exact Hg. reflexivity.
  - destruct Hdomain as [Hone|Hgenre]; [contradiction|].
    unfold _get_starting_position, corners. fold size.
    cbn [length].
    assert (Hlt : (p mod 4 < 4)%nat) by (apply Nat.mod_upper_bound; lia).
    revert Hlt. generalize (p mod 4)%nat. intros m Hlt.
    destruct m as [|[|[|[|n]]]]; try reflexivity. lia.
Qed.

Lemma initialize_game_state_positions_witness :
  (default 1 (cfg_pieces_per_player territory_config) = 1
   \/ sim_genre territory_config <> "racing")
  /\ is_Some (_initialize_board territory_config)
  /\ (2 < Z.to_nat (sim_num_players territory_config))%nat
  /\ exists h' state,
       initialize_game_state territory_config ∅ = Some (h', state)
       /\ read h' (player_positions state) 2%nat = Some (VTuple 5 0)
       /\ read h' (player_resources state) 2%nat = Some (VInt 0)
       /\ read h' (player_scores state) 2%nat = Some (VInt 0).
Proof.
  assert (Hdomain : default 1 (cfg_pieces_per_player territory_config) = 1
                    \/ sim_genre territory_config <> "racing")
    by (right; discriminate).
  assert (Hboard : is_Some (_initialize_board territory_config))
    by (exists (Grid 6); reflexivity).
  assert (Hp : (2 < Z.to_nat (sim_num_players territory_config))%nat)
    by (vm_compute; lia).
  split; [exact Hdomain|]. split; [exact Hboard|]. split; [exact Hp|].
  exact (initialize_game_state_positions territory_config ∅ 2%nat Hdomain Hboard Hp).
Defined.

(** ** Epsilon decay *)

Lemma Qpower_succ_nat (r : Q) (k : nat) :
  (r ^ Z.of_nat (S k) == r * r ^ Z.of_nat k)%Q.
Proof.
  rewrite Nat2Z.inj_succ. unfold Z.succ. rewrite Z.add_comm.
  rewrite Qpower_plus' by lia. rewrite Qpower_1_r. reflexivity.
Qed.

Lemma epsilon_decay_steps_succ k r m a :
  epsilon (decay_steps (S k) r m a) = Qmax m (epsilon (decay_steps k r m a) * r)%Q.
Proof. reflexivity. Qed.

(** C8, counterexample: the closed form [max(m, e0 * r^k)] fails for zero
    steps (the floor has not been applied yet), for a rate above 1, for a
    negative rate and for a negative floor. *)
Lemma decay_closed_form_counterexamples :
  let start e0 := with_epsilon e0 (new_player 0) in
  ~ (epsilon (decay_steps 0 (995 # 1000) (1 # 100) (start 0))
     == Qmax (1 # 100) (0 * (995 # 1000) ^ Z.of_nat 0))%Q
  /\ ~ (epsilon (decay_steps 2 2 1 (start 0)) == Qmax 1 (0 * 2 ^ Z.of_nat 2))%Q
  /\ ~ (epsilon (decay_steps 2 (-1) 0 (start 1)) == Qmax 0 (1 * (-1) ^ Z.of_nat 2))%Q
  /\ ~ (epsilon (decay_steps 2 (1 # 2) (-1) (start (-4)))
        == Qmax (-1) (-4 * (1 # 2) ^ Z.of_nat 2))%Q.
Proof.
  repeat split; vm_compute; discriminate.
Qed.

(** C8, amended: for a decay rate in [[0, 1]], a non-negative floor and at
    least one step, [k] decay steps from [e0] give [max(m, e0 * r^k)]; zero
    steps leave epsilon as it is. *)
Theorem decay_epsilon_closed_form (a : QLearningPlayer) (r m : Q) (k : nat) :
  (0 <= r)%Q -> (r <= 1)%Q -> (0 <= m)%Q ->
  epsilon (decay_steps 0 r m a) = epsilon a
  /\ ((1 <= k)%nat ->
      (epsilon (decay_steps k r m a) == Qmax m (epsilon a * r ^ Z.of_nat k))%Q).
Proof.
  intros Hr0 Hr1 Hm. split; [reflexivity|].
  intros Hk. induction k as [|k IH]; [lia|].
  rewrite epsilon_decay_steps_succ.
  destruct k as [|k].
  - change (epsilon (decay_steps 0 r m a)) with (epsilon a).
    rewrite Qpower_succ_nat. change (Z.of_nat 0) with 0%Z.
    change (r ^ 0)%Q with 1%Q. rewrite Qmult_1_r. reflexivity.
  - specialize (IH ltac:(lia)).
    set (e := epsilon (decay_steps (S k) r m a)) in *.
    rewrite (Qpower_succ_nat r (S k)).
    set (p := (r ^ Z.of_nat (S k))%Q) in *.
    assert (Hp : (0 <= p)%Q) by (apply Qpower_0_le, Hr0).
    set (e0 := epsilon a) in *.
    destruct (Q.max_spec m (e0 * p)) as [[H1 E1]|[H1 E1]];
      rewrite E1 in IH; clear E1;
      destruct (Q.max_spec m (e * r)) as [[H2 E2]|[H2 E2]]; rewrite E2; clear E2;
      destruct (Q.max_spec m (e0 * (r * p))) as [[H3 E3]|[H3 E3]]; rewrite E3; clear E3;
      rewrite IH in *; try reflexivity; try nra.
Qed.

Lemma decay_epsilon_closed_form_witness :
  (0 <= 995 # 1000)%Q /\ (995 # 1000 <= 1)%Q /\ (0 <= 1 # 100)%Q /\ (1 <= 3)%nat
  /\ (epsilon (decay_steps 3 (995 # 1000) (1 # 100) (new_player 0))
      == Qmax (1 # 100) ((2 # 10) * (995 # 1000) ^ Z.of_nat 3))%Q.
Proof.
  assert (H0 : (0 <= 995 # 1000)%Q) by (vm_compute; discriminate).
  assert (H1 : (995 # 1000 <= 1)%Q) by (vm_compute; discriminate).
  assert (H2 : (0 <= 1 # 100)%Q) by (vm_compute; discriminate).
  assert (H3 : (1 <= 3)%nat) by lia.
  split; [exact H0|]. split; [exact H1|]. split; [exact H2|]. split; [exact H3|].
  exact (proj2 (decay_epsilon_closed_form (new_player 0) _ _ 3 H0 H1 H2) H3).
Defined.

(** ** Win distribution and fairness *)

Section Fairness.
Local Open Scope Q_scope.

Lemma comprehension_id_NoDup {V : Type} (vf : nat -> V) (l : list nat) :
  NoDup l -> PyDict.comprehension id vf l = map (fun x => (x, vf x)) l.
Proof. intros Hnd. apply comprehension_NoDup. rewrite map_id. exact Hnd. Qed.

Lemma NoDup_range (n : Z) : NoDup (range n).
Proof. apply NoDup_ListNoDup, List.seq_NoDup. Qed.

(** [Counter] counts occurrences. *)
Lemma Counter_get (l : list nat) (p : nat) :
  default 0%Z (PyDict.get p (Counter l)) = Z.of_nat (count_occ Nat.eq_dec l p).
Proof.
  unfold Counter.
  assert (Hgen : forall (l : list nat) (d : dict nat Z),
             default 0%Z (PyDict.get p
               (fold_left (fun d x => PyDict.set x (default 0 (PyDict.get x d) + 1)%Z d) l d))
             = (default 0%Z (PyDict.get p d) + Z.of_nat (count_occ Nat.eq_dec l p))%Z).
  { clear l. induction l as [|x l IH]; intros d; cbn [fold_left count_occ].
    - lia.
    - rewrite IH, get_set. destruct (Nat.eq_dec x p) as [->|Hne].
      + rewrite decide_True by reflexivity. simpl. lia.
      + rewrite decide_False by exact Hne. reflexivity. }
  rewrite Hgen. reflexivity.
Qed.

(** The values of the win distribution are the win percentages, in player
    order. *)
Lemma win_distribution_values winners num_players :
  winners <> []%list ->
  PyDict.values (_calculate_win_distribution winners num_players)
  = win_percentages winners num_players.
Proof.
  intros Hne. unfold _calculate_win_distribution.
  destruct winners as [|w ws]; [congruence|].
  rewrite comprehension_id_NoDup by apply NoDup_range.
  unfold PyDict.values, win_percentages. rewrite map_map. cbn [snd].
  apply map_ext. intros p. unfold win_percentage. rewrite Counter_get. reflexivity.
Qed.

Lemma Qsum_nonneg (l : list Q) : Forall (fun x => 0 <= x) l -> 0 <= Qsum l.
Proof.
  induction 1 as [|x l Hx _ IH]; simpl; [apply Qle_refl|].
  change 0 with (0 + 0). apply Qplus_le_compat; assumption.
Qed.

Lemma Qsum_const (c : Q) (l : list Q) :
  Forall (fun x => x == c) l -> Qsum l == inject_Z (Z.of_nat (length l)) * c.
Proof.
  induction 1 as [|x l Hx _ IH].
  - simpl. ring.
  - cbn [Qsum fold_right length]. fold (Qsum l). rewrite IH, Hx.
    rewrite Nat2Z.inj_succ. unfold Z.succ. rewrite inject_Z_plus. ring.
Qed.

Lemma length_pos_Q {A : Type} (l : list A) :
  l <> []%list -> 0 < inject_Z (Z.of_nat (length l)).
Proof.
  intros Hne. destruct l; [congruence|].
  change 0 with (inject_Z 0). rewrite <- Zlt_Qlt. simpl length. lia.
Qed.

Lemma np_mean_Some (l : list Q) :
  l <> []%list -> np_mean l = Some (Qsum l / inject_Z (Z.of_nat (length l))).
Proof. destruct l; [congruence | reflexivity]. Qed.

Lemma np_var_nonneg (l : list Q) v : np_var l = Some v -> 0 <= v.
Proof.
  unfold np_var. destruct l as [|x l]; [discriminate|].
  rewrite np_mean_Some by discriminate. cbn [mbind option_bind].
  set (m := Qsum (x :: l) / _).
  rewrite np_mean_Some by discriminate. intros [= <-].
  apply Qle_shift_div_l.
  - rewrite length_map. apply (length_pos_Q (x :: l)). discriminate.
  - rewrite Qmult_0_l.
    apply (Qsum_nonneg (map (fun y => (y - m) * (y - m)) (x :: l))), Forall_forall.
    intros y Hy. apply list_elem_of_In, in_map_iff in Hy. destruct Hy as (z & <- & _).
    cbv beta. generalize (z - m). intros d.
    destruct (Qlt_le_dec d 0) as [Hneg|Hpos].
    + setoid_replace (d * d) with ((- d) * (- d)) using relation Qeq by ring.
      apply Qmult_le_0_compat; lra.
    + apply Qmult_le_0_compat; exact Hpos.
Qed.

Lemma np_var_const (c : Q) (l : list Q) :
  l <> []%list -> Forall (fun x => x == c) l ->
  exists v, np_var l = Some v /\ v == 0.
Proof.
  intros Hne Hall. unfold np_var.
  rewrite np_mean_Some by exact Hne. cbn [mbind option_bind].
  set (m := Qsum l / _).
  assert (Hm : m == c).
  { unfold m. rewrite (Qsum_const c l Hall). field.
    intros H0. pose proof (length_pos_Q l Hne) as Hpos. rewrite H0 in Hpos.
    exact (Qlt_irrefl 0 Hpos). }
  assert (Hne' : map (fun x => (x - m) * (x - m)) l <> []%list)
    by (destruct l; [congruence | discriminate]).
  rewrite np_mean_Some by exact Hne'. eexists. split; [reflexivity|].
  rewrite (Qsum_const 0).
  - field. intros H0. pose proof (length_pos_Q _ Hne') as Hpos. rewrite H0 in Hpos.
    exact (Qlt_irrefl 0 Hpos).
  - apply Forall_forall. intros y Hy.
    apply list_elem_of_In, in_map_iff in Hy. destruct Hy as (z & <- & Hz).
    apply list_elem_of_In in Hz.
    rewrite Forall_forall in Hall. rewrite (Hall z Hz), Hm. ring.
Qed.

Lemma np_var_Some (l : list Q) : l <> []%list -> exists v, np_var l = Some v.
Proof.
  intros Hne. unfold np_var. rewrite np_mean_Some by exact Hne.
  cbn [mbind option_bind]. rewrite np_mean_Some; [eexists; reflexivity|].
  destruct l; [congruence | discriminate].
Qed.

Lemma win_percentages_nonempty winners (num_players : Z) :
  (1 <= num_players)%Z -> win_percentages winners num_players <> []%list.
Proof.
  intros HN. unfold win_percentages, range.
  destruct (Z.to_nat num_players) as [|n] eqn:Hn; [lia | discriminate].
Qed.

(** C9: for a non-empty list of decided winners and at least one player
    (for no player [100.0 / num_players] divides by zero) the fairness score
    is [100 * (1 - min(variance / (100/N)^2, 1))] where [variance] is the
    population variance of the per-player win percentages; it lies in
    [[0, 100]], and it is 100 when all players have the same win
    percentage. *)
Theorem fairness_score_formula (winners : list nat) (num_players : Z) :
  winners <> []%list -> (1 <= num_players)%Z ->
  exists variance fairness,
    np_var (win_percentages winners num_players) = Some variance
    /\ _calculate_fairness_score winners num_players = Some fairness
    /\ fairness == 100 * (1 - Qmin (variance / (100 / inject_Z num_players) ^ 2) 1)
    /\ 0 <= fairness /\ fairness <= 100
    /\ ((forall p q, (p < Z.to_nat num_players)%nat -> (q < Z.to_nat num_players)%nat ->
                     win_percentage winners p == win_percentage winners q) ->
        fairness == 100).
Proof.
  intros Hne HN.
  destruct (np_var_Some _ (win_percentages_nonempty winners num_players HN))
    as [variance Hvar].
  exists variance. eexists. split; [exact Hvar|].
  split.
  { unfold _calculate_fairness_score.
    rewrite (win_distribution_values winners num_players Hne).
    destruct winners as [|w ws]; [congruence|].
    rewrite decide_False by lia. rewrite Hvar. cbn [mbind option_bind]. reflexivity. }
  set (ideal := 100 / inject_Z num_players).
  assert (Hideal : 0 < ideal).
  { unfold ideal. apply Qlt_shift_div_l.
    - change 0 with (inject_Z 0). rewrite <- Zlt_Qlt. lia.
    - rewrite Qmult_0_l. reflexivity. }
  assert (Hmax : 0 < ideal * ideal) by nra.
  change (ideal ^ 2) with (ideal * ideal).
  set (x := variance / (ideal * ideal)).
  assert (Hx : 0 <= x).
  { unfold x. apply Qle_shift_div_l; [exact Hmax|].
    rewrite Qmult_0_l. exact (np_var_nonneg _ _ Hvar). }
  split; [reflexivity|].
  split; [|split].
  - destruct (Q.min_spec x 1) as [[Hlt E]|[Hlt E]]; rewrite E; lra.
  - destruct (Q.min_spec x 1) as [[Hlt E]|[Hlt E]]; rewrite E; lra.
  - intros Hall.
    destruct (np_var_const (win_percentage winners 0) (win_percentages winners num_players))
      as (v & Hv & Hv0).
    + apply win_percentages_nonempty, HN.
    + apply Forall_forall. intros y Hy.
      apply list_elem_of_In, in_map_iff in Hy. destruct Hy as (p & <- & Hp).
      apply in_seq in Hp. apply Hall; lia.
    + rewrite Hvar in Hv. injection Hv as <-.
      assert (Hx0 : x == 0).
      { unfold x. rewrite Hv0. field. lra. }
      destruct (Q.min_spec x 1) as [[Hlt E]|[Hlt E]]; rewrite E; lra.
Qed.

Lemma fairness_score_formula_witness :
  even_winners <> []%list /\ (1 <= 4)%Z
  /\ exists variance fairness,
       np_var (win_percentages even_winners 4) = Some variance
       /\ _calculate_fairness_score even_winners 4 = Some fairness
       /\ fairness == 100 * (1 - Qmin (variance / (100 / inject_Z 4) ^ 2) 1)
       /\ 0 <= fairness /\ fairness <= 100
       /\ ((forall p q, (p < Z.to_nat 4)%nat -> (q < Z.to_nat 4)%nat ->
                        win_percentage even_winners p == win_percentage even_winners q) ->
           fairness == 100).
Proof.
  assert (H1 : even_winners <> []%list) by (vm_compute; discriminate).
  assert (H2 : (1 <= 4)%Z) by lia.
  split; [exact H1|]. split; [exact H2|].
  exact (fairness_score_formula even_winners 4 H1 H2).
Defined.

(** The scenario of the specification: four players, 25 wins each out of
    100 decided games, score 100. *)
Example fairness_even_distribution :
  exists fairness,
    _calculate_fairness_score even_winners 4 = Some fairness /\ fairness == 100.
Proof. eexists. split; [vm_compute; reflexivity | vm_compute; reflexivity]. Qed.

End Fairness.

(** ** The value update *)

Section ValueUpdate.
Local Open Scope Q_scope.

(** [max_default] of a non-empty list is one of its elements and bounds
    them all. *)
Lemma fold_left_Qmax_spec (xs : list Q) (x : Q) :
  In (fold_left Qmax xs x) (x :: xs)
  /\ Forall (fun v => v <= fold_left Qmax xs x) (x :: xs).
Proof.
  revert x. induction xs as [|y ys IH]; intros x; cbn [fold_left].
  - split; [left; reflexivity|]. repeat constructor. apply Qle_refl.
  - destruct (IH (Qmax x y)) as [Hin Hall].
    apply Forall_cons in Hall. destruct Hall as [Hm Hys].
    split.
    + destruct Hin as [Hin|Hin]; [|right; right; exact Hin].
      rewrite <- Hin. unfold Qmax, GenericMinMax.gmax.
      destruct (x ?= y);
        first [left; reflexivity | right; left; reflexivity].
    + pose proof (Q.le_max_l x y) as Hl. pose proof (Q.le_max_r x y) as Hr.
      apply Forall_cons. split; [eapply Qle_trans; eassumption|].
      apply Forall_cons. split; [eapply Qle_trans; eassumption | exact Hys].
Qed.

Lemma max_default_spec (l : list Q) (d : Q) :
  l <> []%list ->
  In (max_default l d) l /\ Forall (fun v => v <= max_default l d) l.
Proof.
  intros Hne. destruct l as [|x xs]; [congruence|]. apply fold_left_Qmax_spec.
Qed.

Lemma max_default_compat (l1 l2 : list Q) (d : Q) :
  Forall2 Qeq l1 l2 -> max_default l1 d == max_default l2 d.
Proof.
  intros H12. destruct H12 as [|x1 x2 xs1 xs2 Hx Hxs]; [reflexivity|].
  cbn [max_default]. revert x1 x2 Hx.
  induction Hxs as [|y1 y2 ys1 ys2 Hy _ IH]; intros x1 x2 Hx; cbn [fold_left].
  - exact Hx.
  - apply IH.
    destruct (Q.max_spec x1 y1) as [[H1 E1]|[H1 E1]]; rewrite E1;
      destruct (Q.max_spec x2 y2) as [[H2 E2]|[H2 E2]]; rewrite E2; lra.
Qed.

Lemma get_valid_actions_Some a h s :
  ~ racing_on_grid a h s ->
  exists acts, get_valid_actions a h s = Some acts /\ acts <> []%list.
Proof.
  intros Hok. unfold get_valid_actions.
  destruct (read_default h (player_positions s) (player_id a) (VTuple 0 0))
    as [p|x y] eqn:Hpos.
  - eexists. split; [reflexivity|]. destruct (p <? _)%Z; discriminate.
  - destruct (decide (genre s = "racing")) as [Hg|Hg].
    + exfalso. apply Hok. split; [exact Hg|]. unfold racing_on_grid. eauto.
    + eexists. split; [reflexivity|].
      intros Hnil. apply (f_equal (@length string)) in Hnil.
      rewrite !length_app in Hnil. simpl in Hnil. lia.
Qed.

Lemma agent_equiv_refl a : agent_equiv a a.
Proof. repeat split; reflexivity. Qed.

Lemma agent_equiv_trans a b c : agent_equiv a b -> agent_equiv b c -> agent_equiv a c.
Proof.
  intros (H1 & H2 & H3 & H4) (G1 & G2 & G3 & G4). repeat split; try congruence.
  intros k act. rewrite H4. apply G4.
Qed.

Lemma agent_equiv_state_key a b h s :
  agent_equiv a b -> get_state_key a h s = get_state_key b h s.
Proof. intros (Hid & _). unfold get_state_key. rewrite Hid. reflexivity. Qed.

Lemma agent_equiv_valid_actions a b h s :
  agent_equiv a b -> get_valid_actions a h s = get_valid_actions b h s.
Proof. intros (Hid & _). unfold get_valid_actions. rewrite Hid. reflexivity. Qed.

Lemma agent_equiv_target a b h reward s' done t :
  agent_equiv a b -> target_q a h reward s' done = Some t ->
  exists t', target_q b h reward s' done = Some t' /\ t == t'.
Proof.
  intros Hab Ht. unfold target_q in *.
  destruct done; [exists t; split; [exact Ht | reflexivity]|].
  rewrite <- (agent_equiv_valid_actions a b h s' Hab),
          <- (agent_equiv_state_key a b h s' Hab).
  destruct (get_valid_actions a h s') as [acts|]; [|discriminate].
  cbn [mbind option_bind] in *. injection Ht as <-.
  eexists. split; [reflexivity|].
  destruct Hab as (_ & _ & Hg & Hq). rewrite <- Hg.
  rewrite (max_default_compat
             (map (get_q_value a (get_state_key a h s')) acts)
             (map (get_q_value b (get_state_key a h s')) acts) 0).
  - reflexivity.
  - induction acts as [|x acts IH]; constructor; [apply Hq | exact IH].
Qed.

(** What one call of [update_q_value] stores. *)
Lemma update_q_value_stores a h s action reward s' done t :
  target_q a h reward s' done = Some t ->
  exists a',
    update_q_value a h s action reward s' done = Some a'
    /\ player_id a' = player_id a
    /\ learning_rate a' = learning_rate a
    /\ discount_factor a' = discount_factor a
    /\ total_reward a' = total_reward a + reward
    /\ (forall k act,
          get_q_value a' k act
          = if decide ((get_state_key a h s, action) = (k, act))
            then get_q_value a (get_state_key a h s) action
                 + learning_rate a * (t - get_q_value a (get_state_key a h s) action)
            else get_q_value a k act).
Proof.
  intros Ht. unfold update_q_value. rewrite Ht. cbn [mbind option_bind].
  eexists. split; [reflexivity|]. repeat split.
  intros k act. unfold get_q_value at 1. cbn [q_table with_total_reward with_q_table].
  rewrite get_set. destruct (decide (_ = _)); reflexivity.
Qed.

(** An update whose target is the stored value changes no value. *)
Lemma update_q_value_fixed a h s action reward s' done t :
  target_q a h reward s' done = Some t ->
  t == get_q_value a (get_state_key a h s) action ->
  exists a', update_q_value a h s action reward s' done = Some a' /\ agent_equiv a a'.
Proof.
  intros Ht Heq.
  destruct (update_q_value_stores a h s action reward s' done t Ht)
    as (a' & Hup & Hid & Hlr & Hdf & _ & Hq).
  exists a'. split; [exact Hup|]. repeat split; try congruence.
  intros k act. rewrite Hq. destruct (decide (_ = _)) as [Hk|Hk]; [|reflexivity].
  injection Hk as <- <-. rewrite Heq. ring.
Qed.

Lemma update_n_fixed n a b h s action reward s' done t :
  agent_equiv a b ->
  target_q a h reward s' done = Some t ->
  t == get_q_value a (get_state_key a h s) action ->
  exists b', update_n n b h s action reward s' done = Some b' /\ agent_equiv a b'.
Proof.
  revert b. induction n as [|n IH]; intros b Hab Ht Heq; cbn [update_n].
  - exists b. split; [reflexivity | exact Hab].
  - destruct (agent_equiv_target a b h reward s' done t Hab Ht) as (t' & Ht' & Htt).
    assert (Heq' : t' == get_q_value b (get_state_key b h s) action).
    { rewrite <- Htt, Heq, (agent_equiv_state_key a b h s Hab).
      destruct Hab as (_ & _ & _ & Hq). apply Hq. }
    destruct (update_q_value_fixed b h s action reward s' done t' Ht' Heq')
      as (b1 & Hup & Hbb1).
    rewrite Hup. cbn [mbind option_bind].
    apply IH; [|exact Ht | exact Heq].
    eapply agent_equiv_trans; eassumption.
Qed.

Lemma get_q_value_unknown a k act :
  PyDict.get (k, act) (q_table a) = None -> get_q_value a k act = 0.
Proof. intros Hnone. unfold get_q_value. rewrite Hnone. reflexivity. Qed.

(** C7: unless the next state is an ill-typed racing state (the only case
    in which the source raises), [update_q_value] returns and stores
    [value + alpha * (target - value)] under [(key(state), action)], where
    [target] is [reward] on a terminal transition and otherwise
    [reward + gamma * m], [m] being the largest table value of the next
    state's valid actions (a non-empty list; pairs not in the table count
    as 0).  When the target equals the stored value, the update, applied any
    number of times, leaves the stored value unchanged. *)
Theorem update_q_value_rule (a : QLearningPlayer) (h : heap)
    (state next_state : GameState) (action : string) (reward : Q) (done : bool) :
  (done = false -> ~ racing_on_grid a h next_state) ->
  let key := get_state_key a h state in
  let value := get_q_value a key action in
  exists target a',
    (if done then target = reward
     else exists acts,
         get_valid_actions a h next_state = Some acts /\ acts <> []%list
         /\ let next_values := map (get_q_value a (get_state_key a h next_state)) acts in
            target = reward + discount_factor a * max_default next_values 0
            /\ In (max_default next_values 0) next_values
            /\ Forall (fun v => v <= max_default next_values 0) next_values)
    /\ (forall k act, PyDict.get (k, act) (q_table a) = None -> get_q_value a k act = 0)
    /\ update_q_value a h state action reward next_state done = Some a'
    /\ get_q_value a' key action = value + learning_rate a * (target - value)
    /\ (target == value ->
        forall n, exists a_n,
          update_n n a h state action reward next_state done = Some a_n
          /\ get_q_value a_n key action == value).
Proof.
  intros Hok key value.
  assert (Ht : exists target,
             target_q a h reward next_state done = Some target
             /\ (if done then target = reward
                 else exists acts,
                     get_valid_actions a h next_state = Some acts /\ acts <> []%list
                     /\ let next_values :=
                          map (get_q_value a (get_state_key a h next_state)) acts in
                        target = reward + discount_factor a * max_default next_values 0
                        /\ In (max_default next_values 0) next_values
                        /\ Forall (fun v => v <= max_default next_values 0) next_values)).
  { unfold target_q. destruct done.
    - exists reward. split; reflexivity.
    - destruct (get_valid_actions_Some a h next_state (Hok eq_refl)) as (acts & Hacts & Hne).
      rewrite Hacts. cbn [mbind option_bind]. eexists. split; [reflexivity|].
      exists acts. split; [reflexivity|]. split; [exact Hne|].
      cbv zeta. split; [reflexivity|].
      apply max_default_spec. destruct acts; [congruence | discriminate]. }
  destruct Ht as (target & Ht & Hshape).
  destruct (update_q_value_stores a h state action reward next_state done target Ht)
    as (a' & Hup & _ & _ & _ & _ & Hq).
  exists target, a'.
  split; [exact Hshape|].
  split; [apply get_q_value_unknown|].
  split; [exact Hup|].
  split.
  - rewrite Hq. rewrite decide_True by reflexivity. reflexivity.
  - intros Heq n.
    destruct (update_n_fixed n a a h state action reward next_state done target
                (agent_equiv_refl a) Ht Heq) as (a_n & Hn & Hequiv).
    exists a_n. split; [exact Hn|].
    destruct Hequiv as (_ & _ & _ & Hvals). symmetry. apply Hvals.
Qed.

Lemma update_q_value_rule_witness :
  (true = false -> ~ racing_on_grid trained_player initial_heap initial_state)
  /\ exists a',
       update_q_value trained_player initial_heap initial_state "move_right" (1 # 2)
         initial_state true = Some a'
       /\ get_q_value trained_player "0_0_1_0_0" "move_right" = 1 # 2
       /\ get_q_value a' "0_0_1_0_0" "move_right"
          = (1 # 2) + (1 # 10) * ((1 # 2) - (1 # 2))
       /\ forall n, exists a_n,
            update_n n trained_player initial_heap initial_state "move_right" (1 # 2)
              initial_state true = Some a_n
            /\ get_q_value a_n "0_0_1_0_0" "move_right" == 1 # 2.
Proof.
  assert (Hok : true = false -> ~ racing_on_grid trained_player initial_heap initial_state)
    by discriminate.
  split; [exact Hok|].
  destruct (update_q_value_rule trained_player initial_heap initial_state initial_state
              "move_right" (1 # 2) true Hok)
    as (target & a' & Htarget & _ & Hup & Hval & Hfix).
  cbv beta iota in Htarget. subst target.
  exists a'. split; [exact Hup|]. split; [reflexivity|].
  split; [exact Hval|].
  apply Hfix. reflexivity.
Defined.

End ValueUpdate.

(** ** Shared per-player dicts during training *)

Section SharedState.

Lemma copy_eq (s : GameState) : copy s = s.
Proof. destruct s; reflexivity. Qed.

(** The state key reads the position and resource dicts and the turn only. *)
Lemma get_state_key_shared (a : QLearningPlayer) (h : heap) (s s' : GameState) :
  player_positions s = player_positions s' ->
  player_resources s = player_resources s' ->
  turn s = turn s' ->
  get_state_key a h s = get_state_key a h s'.
Proof. intros Hp Hr Ht. unfold get_state_key. rewrite Hp, Hr, Ht. reflexivity. Qed.

(** [_execute_action] returns the copy of its argument, not yet terminal. *)
Lemma execute_action_next_state cfg h state p action r h' next_state reward done r' :
  _execute_action cfg h state p action r = Some (h', next_state, reward, done, r') ->
  next_state = copy state /\ done = false.
Proof.
  unfold _execute_action. intros Hex.
  destruct (if decide (sim_genre cfg = "racing") then _ else _) as [[[h1 rw] r1]|];
    [|discriminate].
  cbn [mbind option_bind] in Hex. injection Hex as <- <- <- <- <-.
  split; reflexivity.
Qed.

Context {A : Type} `{AIPlayer A}.
Variable cfg : GameConfig.
Variable training : bool.

Lemma player_turn_calls p (s s' : Sim A) :
  player_turn cfg training p s = Some s' ->
  Forall (call_ok cfg) (sim_calls s) -> Forall (call_ok cfg) (sim_calls s').
Proof.
  unfold player_turn. intros Hturn Hok.
  destruct (sim_players s !! p) as [ai|]; [|discriminate].
  cbn [mbind option_bind] in Hturn.
  destruct (player_choose_action ai (sim_heap s) (sim_state s) training (sim_rng s))
    as [[action r1]|]; [|discriminate].
  cbn [mbind option_bind] in Hturn.
  destruct (_execute_action cfg (sim_heap s) (sim_state s) p action r1)
    as [[[[[h1 ns] rw] dn] r2]|] eqn:Hex; [|discriminate].
  cbn [mbind option_bind] in Hturn.
  destruct (execute_action_next_state _ _ _ _ _ _ _ _ _ _ _ Hex) as [-> ->].
  destruct (_check_win_condition cfg h1 (copy (sim_state s)) p) as [won|];
    [|discriminate].
  cbn [mbind option_bind] in Hturn.
  assert (Hshare : forall ns',
             ns' = copy (sim_state s) \/ ns' = set_won p (copy (sim_state s)) ->
             forall rw' dn',
             call_ok cfg {| call_player := p; call_heap_before := sim_heap s;
                            call_heap := h1; call_state := sim_state s;
                            call_action := action; call_reward := rw';
                            call_next_state := ns'; call_done := dn' |}).
  { intros ns' Hns rw' dn'. unfold call_ok. cbn.
    split; [exists r1, rw, r2; exact Hex|].
    assert (Hf : player_positions (sim_state s) = player_positions ns'
                 /\ player_resources (sim_state s) = player_resources ns'
                 /\ player_scores (sim_state s) = player_scores ns'
                 /\ turn (sim_state s) = turn ns')
      by (destruct Hns as [-> | ->]; repeat split; reflexivity).
    destruct Hf as (Hp & Hr & Hs & Ht). repeat split; try assumption.
    intros a. apply get_state_key_shared; assumption. }
  destruct won, training; cbn [mbind option_bind] in Hturn.
  - destruct (player_update_q_value _ _ _ _ _ _ _) as [ai'|]; [|discriminate].
    cbn [mbind option_bind] in Hturn. injection Hturn as <-. cbn [sim_calls].
    apply Forall_app. split; [exact Hok|]. constructor; [|constructor].
    apply Hshare. right. reflexivity.
  - injection Hturn as <-. exact Hok.
  - destruct (player_update_q_value _ _ _ _ _ _ _) as [ai'|]; [|discriminate].
    cbn [mbind option_bind] in Hturn. injection Hturn as <-. cbn [sim_calls].
    apply Forall_app. split; [exact Hok|]. constructor; [|constructor].
    apply Hshare. left. reflexivity.
  - injection Hturn as <-. exact Hok.
Qed.

Lemma player_loop_calls ids (s s' : Sim A) :
  player_loop cfg training ids s = Some s' ->
  Forall (call_ok cfg) (sim_calls s) -> Forall (call_ok cfg) (sim_calls s').
Proof.
  revert s. induction ids as [|p ids IH]; intros s Hloop Hok; cbn [player_loop] in Hloop.
  - injection Hloop as <-. exact Hok.
  - destruct (decide (p ∈ eliminated_players (sim_state s))); [eapply IH; eassumption|].
    destruct (player_turn cfg training p s) as [s1|] eqn:Hturn; [|discriminate].
    cbn [mbind option_bind] in Hloop.
    pose proof (player_turn_calls p s s1 Hturn Hok) as Hok1.
    destruct (game_over (sim_state s1)).
    + injection Hloop as <-. exact Hok1.
    + eapply IH; eassumption.
Qed.

Lemma turn_loop_calls turns (s s' : Sim A) :
  turn_loop cfg training turns s = Some s' ->
  Forall (call_ok cfg) (sim_calls s) -> Forall (call_ok cfg) (sim_calls s').
Proof.
  revert s. induction turns as [|t turns IH]; intros s Hloop Hok; cbn [turn_loop] in Hloop.
  - injection Hloop as <-. exact Hok.
  - destruct (player_loop cfg training (players cfg) _) as [s1|] eqn:Hpl; [|discriminate].
    cbn [mbind option_bind] in Hloop.
    pose proof (player_loop_calls _ _ s1 Hpl Hok) as Hok1.
    destruct (game_over (sim_state s1)).
    + injection Hloop as <-. exact Hok1.
    + eapply IH; eassumption.
Qed.

End SharedState.

(** C10: in every game [simulate_game] plays with training on, at each call
    of [update_q_value] the heap is the one the action has already written
    to, the old state and the next state refer to the same position,
    resource and score dicts and carry the same turn, and so every agent
    computes the same state key for the old state as for the next state. *)
Theorem update_keys_coincide (cfg : GameConfig) {A : Type} `{AIPlayer A}
    (h : heap) (ai_players : list A) (r : Rng)
    (result : SimulationResult) (ai_players' : list A) (s : Sim A) :
  simulate_game cfg true h ai_players r = Some (result, ai_players', s) ->
  Forall (fun c =>
            (exists r reward r',
                _execute_action cfg (call_heap_before c) (call_state c) (call_player c)
                  (call_action c) r
                = Some (call_heap c, copy (call_state c), reward, false, r'))
            /\ player_positions (call_state c) = player_positions (call_next_state c)
            /\ player_resources (call_state c) = player_resources (call_next_state c)
            /\ player_scores (call_state c) = player_scores (call_next_state c)
            /\ forall a : QLearningPlayer,
                 get_state_key a (call_heap c) (call_state c)
                 = get_state_key a (call_heap c) (call_next_state c))
         (sim_calls s).
Proof.
  unfold simulate_game. intros Hsim.
  destruct (initialize_game_state cfg h) as [[h0 state0]|]; [|discriminate].
  cbn [mbind option_bind] in Hsim.
  destruct (turn_loop cfg true (seq 0 max_turns) _) as [s1|] eqn:Hloop; [|discriminate].
  cbn [mbind option_bind] in Hsim.
  destruct (sim_heap s1 !! player_scores (sim_state s1)); [|discriminate].
  cbn [mbind option_bind] in Hsim.
  destruct (sim_heap s1 !! player_resources (sim_state s1)); [|discriminate].
  cbn [mbind option_bind] in Hsim. injection Hsim as _ _ <-.
  pose proof (turn_loop_calls cfg true _ _ s1 Hloop) as Hok.
  cbn [sim_calls] in Hok. specialize (Hok (List.Forall_nil _)).
  eapply Forall_impl; [exact Hok|].
  intros c (Hex & Hp & Hr & Hs & _ & Hk). repeat split; assumption.
Qed.

Lemma update_keys_coincide_witness :
  exists result ai_players' s,
    simulate_game small_grid_config true ∅ [new_player 0] right_then_down
    = Some (result, ai_players', s)
    /\ res_winner result = Some 0%nat
    /\ length (sim_calls s) = 2%nat
    /\ Forall (fun c =>
            (exists r reward r',
                _execute_action small_grid_config (call_heap_before c) (call_state c)
                  (call_player c) (call_action c) r
                = Some (call_heap c, copy (call_state c), reward, false, r'))
            /\ player_positions (call_state c) = player_positions (call_next_state c)
            /\ player_resources (call_state c) = player_resources (call_next_state c)
            /\ player_scores (call_state c) = player_scores (call_next_state c)
            /\ forall a : QLearningPlayer,
                 get_state_key a (call_heap c) (call_state c)
                 = get_state_key a (call_heap c) (call_next_state c))
         (sim_calls s).
Proof.
  destruct (simulate_game small_grid_config true ∅ [new_player 0] right_then_down)
    as [[[result ai_players'] s]|] eqn:Hsim.
  - exists result, ai_players', s. split; [reflexivity|].
    pose proof (update_keys_coincide _ _ _ _ _ _ _ Hsim) as Hkeys.
    vm_compute in Hsim. injection Hsim as <- _ <-.
    split; [reflexivity|]. split; [reflexivity|]. exact Hkeys.
  - vm_compute in Hsim. discriminate Hsim.
Defined.

(** The first training step of that game: the player moves right from
    (0, 0).  Before the action the old state has the key ["0_0_0_0_0"]; when
    [update_q_value] runs, the old state and the next state both have the
    key ["1_0_0_0_0"], and the learnt value is stored under it. *)
Example first_update_uses_post_action_key :
  exists result ai_players' s c a0,
    simulate_game small_grid_config true ∅ [new_player 0] right_then_down
    = Some (result, ai_players', s)
    /\ head (sim_calls s) = Some c
    /\ call_action c = "move_right"
    /\ get_state_key (new_player 0) (call_heap_before c) (call_state c) = "0_0_0_0_0"
    /\ get_state_key (new_player 0) (call_heap c) (call_state c) = "1_0_0_0_0"
    /\ get_state_key (new_player 0) (call_heap c) (call_next_state c) = "1_0_0_0_0"
    /\ update_q_value (new_player 0) (call_heap c) (call_state c) (call_action c)
         (call_reward c) (call_next_state c) (call_done c) = Some a0
    /\ PyDict.keys (q_table a0) = [("1_0_0_0_0", "move_right")].
Proof.
  destruct (simulate_game small_grid_config true ∅ [new_player 0] right_then_down)
    as [[[result ai_players'] s]|] eqn:Hsim; vm_compute in Hsim; [|discriminate Hsim].
  injection Hsim as <- <- <-.
  do 5 eexists. split; [reflexivity|].
  split; [reflexivity|].
  repeat split; vm_compute; reflexivity.
Qed.
(** * Further properties *)

(** ** Action selection *)

Section Actions.
Local Open Scope Q_scope.

Lemma random_choice_elem {A : Type} (l : list A) (r : Rng) :
  l <> []%list -> exists x r', random_choice l r = Some (x, r') /\ x ∈ l.
Proof.
  intros Hne. unfold random_choice, random_random.
  set (i := (Z.to_nat _ mod length l)%nat).
  assert (Hi : (i < length l)%nat).
  { apply Nat.mod_upper_bound. destruct l; [congruence | simpl; lia]. }
  destruct (lookup_lt_is_Some_2 l i Hi) as [x Hx].
  exists x. eexists. rewrite Hx. split; [reflexivity|].
  apply list_elem_of_lookup. eauto.
Qed.

Lemma random_choice_in {A : Type} (l : list A) (r r' : Rng) x :
  random_choice l r = Some (x, r') -> x ∈ l.
Proof.
  unfold random_choice, random_random.
  destruct (l !! _) as [y|] eqn:Hy; [|discriminate].
  cbn [mbind option_bind]. intros [= <- _]. apply list_elem_of_lookup. eauto.
Qed.

(** The list [get_valid_actions] returns ends with [stay]. *)
Lemma get_valid_actions_stay (a : QLearningPlayer) (h : heap) (s : GameState)
    (acts : list string) :
  get_valid_actions a h s = Some acts -> exists front, acts = (front ++ ["stay"])%list.
Proof.
  unfold get_valid_actions.
  destruct (read_default h (player_positions s) (player_id a) (VTuple 0 0)) as [p|x y].
  - intros [= <-]. eexists. reflexivity.
  - destruct (decide (genre s = "racing")); [discriminate|]. intros [= <-].
    eexists. rewrite !app_assoc. reflexivity.
Qed.

(** In a state that does not enable collecting, [collect] is not offered. *)
Lemma get_valid_actions_no_collect (a : QLearningPlayer) (h : heap) (s : GameState)
    (acts : list string) :
  get_valid_actions a h s = Some acts -> can_collect_resource s = false ->
  "collect" ∉ acts.
Proof.
  unfold get_valid_actions. intros Hacts Hno. rewrite Hno in Hacts.
  destruct (read_default h (player_positions s) (player_id a) (VTuple 0 0)) as [p|x y].
  - injection Hacts as <-. destruct (p <? track_length s - 1)%Z; by_decide.
  - destruct (decide (genre s = "racing")); [discriminate|]. injection Hacts as <-.
    destruct (0 <? x)%Z, (x <? board_size s - 1)%Z, (0 <? y)%Z,
      (y <? board_size s - 1)%Z, (can_attack s); by_decide.
Qed.

(** X1: Whatever [get_valid_actions] returns ends with [stay], lists no action
    twice, uses the seven action names only, and offers [collect] and
    [attack] only in a state that enables them. *)
Theorem get_valid_actions_offers (a : QLearningPlayer) (h : heap) (s : GameState)
    (acts : list string) :
  get_valid_actions a h s = Some acts ->
  last acts = Some "stay"
  /\ NoDup acts
  /\ Forall (fun x => x ∈ action_names) acts
  /\ ("collect" ∈ acts -> can_collect_resource s = true)
  /\ ("attack" ∈ acts -> can_attack s = true).
Proof.
  unfold get_valid_actions.
  destruct (read_default h (player_positions s) (player_id a) (VTuple 0 0)) as [p|x y].
  - intros [= <-]. destruct (p <? track_length s - 1)%Z;
      (split; [reflexivity|]; split; [by_decide|];
       split; [by_decide|];
       split; intros Hin; exfalso; revert Hin;
       by_decide).
  - destruct (decide (genre s = "racing")); [discriminate|]. intros [= <-].
    destruct (0 <? x)%Z, (x <? board_size s - 1)%Z, (0 <? y)%Z,
      (y <? board_size s - 1)%Z, (can_collect_resource s), (can_attack s);
      (split; [reflexivity|]; split; [by_decide|];
       split; [by_decide|];
       split; intros Hin; try reflexivity; exfalso; revert Hin;
       by_decide).
Qed.

Lemma get_valid_actions_offers_witness :
  get_valid_actions trained_player initial_heap initial_state
  = Some ["move_right"; "move_down"; "stay"]
  /\ last ["move_right"; "move_down"; "stay"] = Some "stay"
  /\ NoDup ["move_right"; "move_down"; "stay"]
  /\ Forall (fun x => x ∈ action_names) ["move_right"; "move_down"; "stay"]
  /\ ("collect" ∈ ["move_right"; "move_down"; "stay"] ->
      can_collect_resource initial_state = true)
  /\ ("attack" ∈ ["move_right"; "move_down"; "stay"] ->
      can_attack initial_state = true).
Proof.
  assert (Hacts : get_valid_actions trained_player initial_heap initial_state
                  = Some ["move_right"; "move_down"; "stay"]) by reflexivity.
  split; [exact Hacts|].
  exact (get_valid_actions_offers trained_player initial_heap initial_state _ Hacts).
Defined.

(** X2: On a grid whose size is the simulator's, every move that
    [get_valid_actions] offers is carried out by [_move_position] as a step
    of exactly one cell: an offered move never runs into the board edge. *)
Theorem offered_moves_are_not_blocked (cfg : GameConfig) (a : QLearningPlayer)
    (h : heap) (s : GameState) (acts : list string) (x y : Z) (action : string) :
  get_valid_actions a h s = Some acts ->
  read_default h (player_positions s) (player_id a) (VTuple 0 0) = VTuple x y ->
  board_size s = sim_board_size cfg ->
  action ∈ acts -> String.prefix "move_" action = true ->
  exists x' y',
    _move_position cfg (VTuple x y) action = Some (VTuple x' y')
    /\ (Z.abs (x' - x) + Z.abs (y' - y) = 1)%Z
    /\ (0 <= x -> x <= sim_board_size cfg - 1 -> 0 <= x' <= sim_board_size cfg - 1)%Z
    /\ (0 <= y -> y <= sim_board_size cfg - 1 -> 0 <= y' <= sim_board_size cfg - 1)%Z.
Proof.
  unfold get_valid_actions. intros Hacts Hpos Hsize Hin Hmove.
  rewrite Hpos, Hsize in Hacts.
  destruct (decide (genre s = "racing")); [discriminate|].
  injection Hacts as <-.
  repeat (apply elem_of_app in Hin; destruct Hin as [Hin|Hin]);
    repeat match goal with
           | H : _ ∈ (if ?c then _ else _) |- _ => destruct c eqn:?
           | H : _ ∈ [] |- _ => inversion H
           | H : _ ∈ [_] |- _ => apply list_elem_of_singleton in H; subst action
           end;
    try discriminate Hmove;
    repeat match goal with
           | H : (_ <? _)%Z = true |- _ => apply Z.ltb_lt in H
           end;
    eexists _, _; (split; [reflexivity|]); cbn [fst snd]; lia.
Qed.

Lemma offered_moves_are_not_blocked_witness :
  exists x' y',
    _move_position empty_config (VTuple 0 0) "move_right" = Some (VTuple x' y')
    /\ (Z.abs (x' - 0) + Z.abs (y' - 0) = 1)%Z
    /\ (0 <= 0 -> 0 <= sim_board_size empty_config - 1 ->
        0 <= x' <= sim_board_size empty_config - 1)%Z
    /\ (0 <= 0 -> 0 <= sim_board_size empty_config - 1 ->
        0 <= y' <= sim_board_size empty_config - 1)%Z.
Proof.
  refine (offered_moves_are_not_blocked empty_config trained_player initial_heap
            initial_state ["move_right"; "move_down"; "stay"] 0 0 "move_right"
            _ _ _ _ _); try reflexivity.
  by_decide.
Defined.

Lemma zip_map_self {A B : Type} (f : A -> B) (l : list A) :
  zip l (map f l) = map (fun x => (x, f x)) l.
Proof. induction l as [|x l IH]; simpl; [reflexivity | rewrite IH; reflexivity]. Qed.

(** The actions of maximal table value, as [choose_action] computes them. *)
Lemma best_actions_spec (a : QLearningPlayer) (key : string) (acts : list string) :
  acts <> []%list ->
  let max_q := max_default (map (get_q_value a key) acts) 0 in
  let best := map fst (filter (fun aq : string * Q => Qeq_bool (snd aq) max_q = true)
                              (zip acts (map (get_q_value a key) acts))) in
  best <> []%list
  /\ forall action, action ∈ best ->
       action ∈ acts
       /\ get_q_value a key action == max_q
       /\ forall other, other ∈ acts -> get_q_value a key other <= get_q_value a key action.
Proof.
  intros Hne max_q best.
  assert (Hvals : map (get_q_value a key) acts <> []%list)
    by (destruct acts; [congruence | discriminate]).
  destruct (max_default_spec _ 0 Hvals) as [Hin Hall]. fold max_q in Hin, Hall.
  assert (Hbest : forall action,
             action ∈ best <-> action ∈ acts /\ Qeq_bool (get_q_value a key action) max_q = true).
  { intros action. unfold best. rewrite zip_map_self.
    rewrite list_elem_of_fmap. split.
    - intros ([x q] & -> & Hx). apply list_elem_of_filter in Hx.
      destruct Hx as [Hq Hx]. apply list_elem_of_fmap in Hx.
      destruct Hx as (x0 & [= -> ->] & Hx0). cbn [fst snd] in *. split; assumption.
    - intros [Hacts Hq]. exists (action, get_q_value a key action).
      split; [reflexivity|]. apply list_elem_of_filter. split; [exact Hq|].
      apply list_elem_of_fmap. exists action. split; [reflexivity | exact Hacts]. }
  split.
  - apply in_map_iff in Hin. destruct Hin as (x & Hx & Hxin).
    assert (Hxb : x ∈ best).
    { apply Hbest. split; [apply list_elem_of_In, Hxin|].
      rewrite Hx. apply Qeq_bool_iff. reflexivity. }
    intros Hnil. rewrite Hnil in Hxb. inversion Hxb.
  - intros action Hact. apply Hbest in Hact. destruct Hact as [Hacts Hq].
    apply Qeq_bool_iff in Hq. split; [exact Hacts|]. split; [exact Hq|].
    intros other Hother. rewrite Hq.
    rewrite Forall_forall in Hall. apply Hall.
    apply list_elem_of_In, in_map, list_elem_of_In, Hother.
Qed.

(** What [choose_action] returns is one of the valid actions. *)
Lemma choose_action_in (a : QLearningPlayer) (h : heap) (s : GameState)
    (training : bool) (r r' : Rng) (action : string) :
  choose_action a h s training r = Some (action, r') ->
  exists acts, get_valid_actions a h s = Some acts /\ action ∈ acts.
Proof.
  unfold choose_action. destruct (get_valid_actions a h s) as [acts|] eqn:Hacts;
    [|discriminate].
  cbn [mbind option_bind]. intros Hch. exists acts. split; [reflexivity|].
  assert (Hne : acts <> []%list).
  { destruct (get_valid_actions_stay a h s acts Hacts) as [front ->].
    destruct front; discriminate. }
  destruct (best_actions_spec a (get_state_key a h s) acts Hne) as [_ Hbest].
  destruct acts as [|a0 acts']; [congruence|].
  set (acts := a0 :: acts') in *.
  destruct training.
  - unfold random_random at 1 in Hch.
    destruct (Qlt_le_dec _ (epsilon a)).
    + eapply random_choice_in, Hch.
    + apply Hbest. eapply random_choice_in, Hch.
  - apply Hbest. eapply random_choice_in, Hch.
Qed.

(** X3: [choose_action] returns whenever [get_valid_actions] does, and what it
    returns is one of the valid actions; outside training it is an action
    whose table value no valid action exceeds. *)
Theorem choose_action_valid (a : QLearningPlayer) (h : heap) (s : GameState)
    (training : bool) (r : Rng) (acts : list string) :
  get_valid_actions a h s = Some acts ->
  exists action r',
    choose_action a h s training r = Some (action, r')
    /\ action ∈ acts
    /\ (training = false ->
        forall other, other ∈ acts ->
          get_q_value a (get_state_key a h s) other
          <= get_q_value a (get_state_key a h s) action).
Proof.
  intros Hacts.
  assert (Hne : acts <> []%list).
  { destruct (get_valid_actions_stay a h s acts Hacts) as [front ->].
    destruct front; discriminate. }
  destruct (best_actions_spec a (get_state_key a h s) acts Hne) as [Hbne Hbest].
  unfold choose_action. rewrite Hacts. cbn [mbind option_bind].
  destruct acts as [|a0 acts']; [congruence|].
  set (acts := a0 :: acts') in *.
  set (best := map fst _) in *.
  destruct training.
  - unfold random_random at 1.
    destruct (Qlt_le_dec _ (epsilon a)).
    + destruct (random_choice_elem acts
                  {| draws := draws r; cursor := S (cursor r) |} Hne)
        as (x & r' & Hx & Hin).
      exists x, r'. split; [exact Hx|]. split; [exact Hin | discriminate].
    + destruct (random_choice_elem best
                  {| draws := draws r; cursor := S (cursor r) |} Hbne)
        as (x & r' & Hx & Hin).
      exists x, r'. split; [exact Hx|]. split; [apply Hbest, Hin | discriminate].
  - destruct (random_choice_elem best r Hbne) as (x & r' & Hx & Hin).
    exists x, r'. split; [exact Hx|].
    destruct (Hbest x Hin) as (Hv & _ & Hmax). split; [exact Hv|].
    intros _. exact Hmax.
Qed.

Lemma choose_action_valid_witness :
  get_valid_actions trained_player initial_heap initial_state
  = Some ["move_right"; "move_down"; "stay"]
  /\ exists action r',
       choose_action trained_player initial_heap initial_state false zero_tape
       = Some (action, r')
       /\ action ∈ ["move_right"; "move_down"; "stay"]
       /\ (false = false ->
           forall other, other ∈ ["move_right"; "move_down"; "stay"] ->
             get_q_value trained_player
               (get_state_key trained_player initial_heap initial_state) other
             <= get_q_value trained_player
                  (get_state_key trained_player initial_heap initial_state) action).
Proof.
  assert (Hacts : get_valid_actions trained_player initial_heap initial_state
                  = Some ["move_right"; "move_down"; "stay"]) by reflexivity.
  split; [exact Hacts|].
  exact (choose_action_valid trained_player initial_heap initial_state false zero_tape
           _ Hacts).
Defined.

End Actions.

(** ** Bookkeeping of the agent *)

Section Bookkeeping.
Local Open Scope Q_scope.

Lemma keys_set {K V : Type} `{EqDecision K} (k : K) (v : V) (d : dict K V) :
  PyDict.keys (PyDict.set k v d)
  = if decide (k ∈ PyDict.keys d) then PyDict.keys d else (PyDict.keys d ++ [k])%list.
Proof.
  induction d as [|[k' v'] d IH]; cbn [PyDict.set PyDict.keys map fst].
  - rewrite decide_False by (intros Hin; inversion Hin). reflexivity.
  - destruct (decide (k = k')) as [->|Hne]; cbn [map fst].
    + rewrite decide_True by left. reflexivity.
    + fold (PyDict.keys d). fold (PyDict.keys (PyDict.set k v d)). rewrite IH.
      destruct (decide (k ∈ PyDict.keys d)) as [Hin|Hin].
      * rewrite decide_True by (right; exact Hin). reflexivity.
      * rewrite decide_False; [reflexivity|].
        intros Hc. apply elem_of_cons in Hc. destruct Hc; congruence.
Qed.

(** Writing an entry leaves every other entry as it was. *)
Lemma write_get_other (h h' : heap) (l : loc) q v (l' : loc) p :
  write h l q v = Some h' -> q <> p ->
  PyDict.get p (default [] (h' !! l')) = PyDict.get p (default [] (h !! l')).
Proof.
  unfold write. destruct (h !! l) as [d|] eqn:Hd; [|discriminate].
  cbn [mbind option_bind]. intros [= <-] Hne.
  destruct (decide (l' = l)) as [->|Hl].
  - rewrite lookup_insert_eq.
    assert (E : default [] (h !! l) = d) by exact (f_equal (default []) Hd).
    rewrite E. cbn [default]. apply get_set_ne. exact Hne.
  - rewrite lookup_insert_ne by congruence. reflexivity.
Qed.

(** Overwriting an entry leaves the keys as they were. *)
Lemma write_keys (h h' : heap) (l : loc) q v (l' : loc) :
  write h l q v = Some h' -> q ∈ PyDict.keys (default [] (h !! l)) ->
  PyDict.keys (default [] (h' !! l')) = PyDict.keys (default [] (h !! l')).
Proof.
  unfold write. destruct (h !! l) as [d|] eqn:Hd; [|discriminate].
  cbn [mbind option_bind]. intros [= <-] Hin.
  assert (E : default [] (h !! l) = d) by exact (f_equal (default []) Hd).
  try rewrite E in Hin. cbn [from_option id] in Hin.
  destruct (decide (l' = l)) as [->|Hl].
  - rewrite lookup_insert_eq. try rewrite E. try rewrite Hd. cbn [from_option id].
    rewrite keys_set.
    rewrite decide_True by exact Hin. reflexivity.
  - rewrite lookup_insert_ne by congruence. reflexivity.
Qed.

(** X4: An agent's state key does not change when an entry of another player
    (a position, a resource count or a score) is overwritten: the key holds
    the agent's own position and resources, the number of opponents and the
    turn modulo 10, not where the opponents are. *)
Theorem get_state_key_ignores_others (a : QLearningPlayer) (h h' : heap)
    (st : GameState) (l : loc) (q : nat) (v : value) :
  q <> player_id a ->
  q ∈ PyDict.keys (default [] (h !! l)) ->
  write h l q v = Some h' ->
  get_state_key a h' st = get_state_key a h st.
Proof.
  intros Hne Hin Hw. unfold get_state_key, read_default.
  rewrite !(write_get_other _ _ _ _ _ _ _ Hw Hne).
  rewrite (write_keys _ _ _ _ _ (player_positions st) Hw Hin). reflexivity.
Qed.

Lemma get_state_key_ignores_others_witness :
  1%nat <> player_id trained_player
  /\ 1%nat ∈ PyDict.keys (default [] (initial_heap !! 0%nat))
  /\ exists h',
       write initial_heap 0%nat 1%nat (VTuple 5 5) = Some h'
       /\ read h' (player_positions initial_state) 1%nat = Some (VTuple 5 5)
       /\ get_state_key trained_player h' initial_state = "0_0_1_0_0".
Proof.
  assert (Hne : 1%nat <> player_id trained_player) by discriminate.
  assert (Hin : 1%nat ∈ PyDict.keys (default [] (initial_heap !! 0%nat))) by by_decide.
  split; [exact Hne|]. split; [exact Hin|].
  destruct (write initial_heap 0%nat 1%nat (VTuple 5 5)) as [h'|] eqn:Hw;
    [|vm_compute in Hw; discriminate Hw].
  exists h'. split; [reflexivity|].
  split; [vm_compute in Hw; injection Hw as <-; reflexivity|].
  rewrite (get_state_key_ignores_others trained_player _ _ initial_state _ _ _ Hne Hin Hw).
  reflexivity.
Defined.

(** X5: One update writes one entry: every other value is as before, the key
    is added at the end of the table if it was not there (no key is ever
    removed or duplicated), the reward is added to the total, and identity,
    epsilon and the game counters are untouched. *)
Theorem update_q_value_frame (a a' : QLearningPlayer) (h : heap)
    (s s' : GameState) (action : string) (reward : Q) (done : bool) :
  update_q_value a h s action reward s' done = Some a' ->
  let key := (get_state_key a h s, action) in
  (forall k act, (k, act) <> key -> get_q_value a' k act = get_q_value a k act)
  /\ PyDict.keys (q_table a')
     = (if decide (key ∈ PyDict.keys (q_table a)) then PyDict.keys (q_table a)
        else (PyDict.keys (q_table a) ++ [key])%list)
  /\ (NoDup (PyDict.keys (q_table a)) -> NoDup (PyDict.keys (q_table a')))
  /\ total_reward a' = total_reward a + reward
  /\ player_id a' = player_id a /\ epsilon a' = epsilon a
  /\ wins a' = wins a /\ games_played a' = games_played a.
Proof.
  intros Hup key. unfold update_q_value in Hup.
  destruct (target_q a h reward s' done) as [t|]; [|discriminate].
  cbn [mbind option_bind] in Hup. injection Hup as <-.
  cbn [q_table total_reward player_id epsilon wins games_played
       with_total_reward with_q_table].
  assert (Hkeys : PyDict.keys (PyDict.set key
                     (get_q_value a (get_state_key a h s) action
                      + learning_rate a * (t - get_q_value a (get_state_key a h s) action))
                     (q_table a))
                  = (if decide (key ∈ PyDict.keys (q_table a)) then PyDict.keys (q_table a)
                     else (PyDict.keys (q_table a) ++ [key])%list))
    by apply keys_set.
  split.
  { intros k act Hne. unfold get_q_value. cbn [q_table with_total_reward with_q_table].
    rewrite get_set_ne by (intros E; apply Hne; symmetry; exact E). reflexivity. }
  split; [exact Hkeys|].
  split.
  { intros Hnd. fold key. rewrite Hkeys.
    destruct (decide (key ∈ PyDict.keys (q_table a))) as [Hin|Hin]; [exact Hnd|].
    apply NoDup_app. split; [exact Hnd|]. split.
    - intros x Hx Hx'. apply list_elem_of_singleton in Hx'. subst x. exact (Hin Hx).
    - apply NoDup_singleton. }
  repeat split.
Qed.

Lemma update_q_value_frame_witness :
  exists a',
    update_q_value trained_player initial_heap initial_state "stay" 1 initial_state true
    = Some a'
    /\ get_q_value a' "0_0_1_0_0" "move_right" = 1 # 2
    /\ PyDict.keys (q_table a')
       = [("0_0_1_0_0", "move_right"); ("0_0_1_0_0", "stay")]
    /\ total_reward a' = 0 + 1.
Proof.
  destruct (update_q_value trained_player initial_heap initial_state "stay" 1
              initial_state true) as [a'|] eqn:Hup; [|vm_compute in Hup; discriminate Hup].
  destruct (update_q_value_frame trained_player a' initial_heap initial_state
              initial_state "stay" 1 true Hup) as (Hother & Hkeys & _ & Hrew & _).
  exists a'. split; [reflexivity|].
  split; [apply (Hother "0_0_1_0_0" "move_right"); discriminate|].
  split; [exact Hkeys | exact Hrew].
Defined.

(** X6: Recording a result adds one game, adds one win exactly when the game
    was won, and keeps [0 <= wins <= games_played]; the win rate then lies
    in [[0, 1]]. *)
Theorem record_game_result_counts (a : QLearningPlayer) (won : bool) :
  (0 <= wins a <= games_played a)%Z ->
  let a' := record_game_result a won in
  games_played a' = (games_played a + 1)%Z
  /\ wins a' = (wins a + (if won then 1 else 0))%Z
  /\ (0 <= wins a' <= games_played a')%Z
  /\ 0 <= get_win_rate a' /\ get_win_rate a' <= 1
  /\ q_table a' = q_table a /\ total_reward a' = total_reward a
  /\ epsilon a' = epsilon a.
Proof.
  intros Hinv a'. unfold a', record_game_result.
  cbn [games_played wins q_table total_reward epsilon with_stats].
  split; [reflexivity|].
  split; [destruct won; lia|].
  split; [destruct won; lia|].
  unfold get_win_rate. cbn [games_played wins with_stats].
  set (w := (if won then (wins a + 1)%Z else wins a)).
  set (g := (games_played a + 1)%Z).
  assert (Hw : (0 <= w <= g)%Z) by (unfold w, g; destruct won; lia).
  assert (Hg : (0 < g)%Z) by (unfold g; lia).
  destruct (Z.ltb_spec 0 g) as [_|Hle]; [|lia].
  assert (HgQ : 0 < inject_Z g) by (change 0 with (inject_Z 0); rewrite <- Zlt_Qlt; exact Hg).
  split; [|split; [|repeat split]].
  - apply Qle_shift_div_l; [exact HgQ|]. rewrite Qmult_0_l.
    change 0 with (inject_Z 0). rewrite <- Zle_Qle. lia.
  - apply Qle_shift_div_r; [exact HgQ|]. rewrite Qmult_1_l.
    rewrite <- Zle_Qle. lia.
Qed.

Lemma record_game_result_counts_witness :
  (0 <= wins (new_player 0) <= games_played (new_player 0))%Z
  /\ games_played (record_game_result (new_player 0) true) = (0 + 1)%Z
  /\ wins (record_game_result (new_player 0) true) = (0 + 1)%Z.
Proof.
  assert (Hinv : (0 <= wins (new_player 0) <= games_played (new_player 0))%Z)
    by (vm_compute; split; discriminate).
  split; [exact Hinv|].
  destruct (record_game_result_counts (new_player 0) true Hinv) as (Hg & Hw & _).
  split; [exact Hg | exact Hw].
Defined.

(** X7: With a decay rate in [[0, 1]] and a floor in [[0, epsilon0]], epsilon
    never rises and never leaves [[floor, epsilon0]], however many times it
    is decayed. *)
Theorem decay_epsilon_bounds (a : QLearningPlayer) (r m : Q) (k : nat) :
  0 <= r -> r <= 1 -> 0 <= m -> m <= epsilon a ->
  m <= epsilon (decay_steps k r m a)
  /\ epsilon (decay_steps k r m a) <= epsilon a
  /\ epsilon (decay_steps (S k) r m a) <= epsilon (decay_steps k r m a).
Proof.
  intros Hr0 Hr1 Hm Hme.
  assert (Hstep : forall e, m <= e -> m <= Qmax m (e * r) /\ Qmax m (e * r) <= e).
  { intros e He. destruct (Q.max_spec m (e * r)) as [[H1 E]|[H1 E]]; rewrite E;
      split; try lra; nra. }
  induction k as [|k (IH1 & IH2 & _)].
  - change (epsilon (decay_steps 0 r m a)) with (epsilon a).
    rewrite epsilon_decay_steps_succ.
    change (epsilon (decay_steps 0 r m a)) with (epsilon a).
    destruct (Hstep (epsilon a) Hme). repeat split; try lra; assumption.
  - rewrite (epsilon_decay_steps_succ (S k)), (epsilon_decay_steps_succ k).
    set (e := epsilon (decay_steps k r m a)) in *.
    destruct (Hstep e IH1) as [H1 H2].
    destruct (Hstep (Qmax m (e * r)) H1) as [H3 H4].
    repeat split; try assumption. lra.
Qed.

Lemma decay_epsilon_bounds_witness :
  0 <= 995 # 1000 /\ 995 # 1000 <= 1 /\ 0 <= 1 # 100 /\ 1 # 100 <= epsilon (new_player 0)
  /\ 1 # 100 <= epsilon (decay_steps 5 (995 # 1000) (1 # 100) (new_player 0))
  /\ epsilon (decay_steps 5 (995 # 1000) (1 # 100) (new_player 0)) <= epsilon (new_player 0).
Proof.
  assert (H0 : 0 <= 995 # 1000) by (vm_compute; discriminate).
  assert (H1 : 995 # 1000 <= 1) by (vm_compute; discriminate).
  assert (H2 : 0 <= 1 # 100) by (vm_compute; discriminate).
  assert (H3 : 1 # 100 <= epsilon (new_player 0)) by (vm_compute; discriminate).
  split; [exact H0|]. split; [exact H1|]. split; [exact H2|]. split; [exact H3|].
  destruct (decay_epsilon_bounds (new_player 0) _ _ 5 H0 H1 H2 H3) as (Hlo & Hhi & _).
  split; [exact Hlo | exact Hhi].
Defined.

End Bookkeeping.

(** ** Loading a model *)

Section Loading.

(** [rsplit1] splits at the last occurrence of the separator: the parts
    put back together give the text, and the second part contains no
    separator; without a separator in the text there is no split. *)
Lemma rsplit1_spec (sep : ascii) (s : string) :
  match rsplit1 sep s with
  | Some (x, y) => s = x +:+ String sep y /\ ~ In sep (list_ascii_of_string y)
  | None => ~ In sep (list_ascii_of_string s)
  end.
Proof.
  induction s as [|c s IH]; cbn [rsplit1 list_ascii_of_string].
  - intros [].
  - destruct (rsplit1 sep s) as [[x y]|].
    + destruct IH as [-> Hy]. split; [reflexivity | exact Hy].
    + destruct (decide (c = sep)) as [->|Hc].
      * split; [reflexivity | exact IH].
      * intros [Hin|Hin]; [congruence | exact (IH Hin)].
Qed.

Lemma rsplit1_encode_Some (k : string * string) :
  is_Some (rsplit1 underscore (encode_key k)).
Proof.
  pose proof (rsplit1_spec underscore (encode_key k)) as Hspec.
  destruct (rsplit1 underscore (encode_key k)) as [p|]; [eexists; reflexivity|].
  exfalso. apply Hspec. unfold encode_key.
  induction (fst k) as [|c s IH]; [left; reflexivity | right; exact IH].
Qed.

Lemma same_but_table_refl a : same_but_table a a.
Proof. repeat split. Qed.

Lemma same_but_table_with_q_table t a : same_but_table a (with_q_table t a).
Proof. repeat split. Qed.

Lemma same_but_table_trans a b c :
  same_but_table a b -> same_but_table b c -> same_but_table a c.
Proof. unfold same_but_table. intuition congruence. Qed.

Lemma load_entries_Reported items b b' :
  load_entries items b = Reported b' -> same_but_table b b'.
Proof.
  revert b. induction items as [|[key value] items IH]; intros b; cbn [load_entries].
  - discriminate.
  - destruct (rsplit1 underscore key) as [[state action]|].
    + destruct (json_float value) as [v|]; [|discriminate].
      intros Hl. eapply same_but_table_trans; [|apply IH, Hl].
      apply same_but_table_with_q_table.
    + intros [= <-]. apply same_but_table_refl.
Qed.

Lemma load_entries_Loaded items b b' :
  load_entries items b = Loaded b' ->
  same_but_table b b'
  /\ Forall (fun k => k ∈ PyDict.keys (q_table b) \/ split_of items k)
            (PyDict.keys (q_table b'))
  /\ (length (q_table b') <= length (q_table b) + length items)%nat.
Proof.
  revert b. induction items as [|[key value] items IH]; intros b; cbn [load_entries].
  - intros [= <-]. split; [apply same_but_table_refl|]. split; [|lia].
    apply Forall_forall. intros k Hk. left. exact Hk.
  - destruct (rsplit1 underscore key) as [[state action]|] eqn:Hsplit; [|discriminate].
    destruct (json_float value) as [v|]; [|discriminate].
    intros Hl. destruct (IH _ Hl) as (Hsame & Hkeys & Hlen).
    cbn [q_table with_q_table] in Hkeys, Hlen.
    split; [eapply same_but_table_trans; [apply same_but_table_with_q_table | exact Hsame]|].
    split.
    + eapply Forall_impl; [exact Hkeys|]. intros k [Hk|(key' & v' & Hin & Hs)].
      * rewrite keys_set in Hk.
        destruct (decide ((state, action) ∈ PyDict.keys (q_table b))); [left; exact Hk|].
        apply elem_of_app in Hk. destruct Hk as [Hk|Hk]; [left; exact Hk|].
        apply list_elem_of_singleton in Hk. subst k.
        right. exists key, value. split; [left | exact Hsplit].
      * right. exists key', v'. split; [right; exact Hin | exact Hs].
    + assert (Hset : (length (PyDict.set (state, action) v (q_table b))
                      <= S (length (q_table b)))%nat).
      { rewrite <- (length_map fst (PyDict.set _ _ _)), <- (length_map fst (q_table b)).
        fold (PyDict.keys (PyDict.set (state, action) v (q_table b))).
        fold (PyDict.keys (q_table b)). rewrite keys_set.
        destruct (decide _); [lia | rewrite length_app; simpl; lia]. }
      cbn [length]. lia.
Qed.

Lemma restore_stats_Reported model b b' :
  restore_stats model b = Reported b' -> b' = b.
Proof.
  unfold restore_stats. destruct (PyDict.get "stats" model) as [[]|]; try discriminate;
    try (intros [= <-]; reflexivity).
  destruct (stats_get json_int 0 "wins" o), (stats_get json_int 0 "games_played" o),
    (stats_get json_float 0%Q "total_reward" o); discriminate.
Qed.

(** X8: When [load_model] reports an error, the agent's identity, parameters
    and statistics are what they were; when the file is missing or is not
    JSON, the whole agent is. *)
Theorem load_model_reported (a a' : QLearningPlayer) (filepath : string)
    (fs : filesystem) :
  load_model a filepath fs = Reported a' ->
  same_but_table a a'
  /\ ((forall doc, fs !! filepath <> Some (JsonFile doc)) -> a' = a).
Proof.
  unfold load_model. intros Hload.
  destruct (fs !! filepath) as [[doc|text]|] eqn:Hfile.
  - split; [|intros Hno; exfalso; exact (Hno doc eq_refl)].
    assert (Hdefault : forall b, Reported (with_q_table [] a) = Reported b ->
                                 same_but_table a b).
    { intros b [= <-]. apply same_but_table_with_q_table. }
    destruct doc as [| | | | | |model]; try (apply Hdefault; exact Hload).
    destruct (PyDict.get "q_table" model) as [[| | | | | |items]|];
      try (apply Hdefault; exact Hload).
    destruct (load_entries items (with_q_table [] a)) as [b|b|] eqn:Hentries.
    + pose proof (restore_stats_Reported _ _ _ Hload) as ->.
      destruct (load_entries_Loaded _ _ _ Hentries) as [Hsame _].
      eapply same_but_table_trans; [apply same_but_table_with_q_table | exact Hsame].
    + injection Hload as <-.
      eapply same_but_table_trans;
        [apply same_but_table_with_q_table | exact (load_entries_Reported _ _ _ Hentries)].
    + discriminate.
  - injection Hload as <-. split; [apply same_but_table_refl | reflexivity].
  - injection Hload as <-. split; [apply same_but_table_refl | reflexivity].
Qed.

Lemma load_model_reported_witness :
  load_model trained_player "model.json" ∅ = Reported trained_player
  /\ same_but_table trained_player trained_player.
Proof.
  assert (Hload : load_model trained_player "model.json" ∅ = Reported trained_player)
    by reflexivity.
  split; [exact Hload|].
  exact (proj1 (load_model_reported trained_player trained_player "model.json" ∅ Hload)).
Defined.

Lemma restore_stats_Loaded model b b' :
  restore_stats model b = Loaded b' ->
  same_parameters b b' /\ q_table b' = q_table b
  /\ match PyDict.get "stats" model with
     | None =>
         wins b' = wins b /\ games_played b' = games_played b
         /\ total_reward b' = total_reward b
     | Some (JObject stats) =>
         stats_get json_int 0 "wins" stats = Some (wins b')
         /\ stats_get json_int 0 "games_played" stats = Some (games_played b')
         /\ stats_get json_float 0%Q "total_reward" stats = Some (total_reward b')
     | Some _ => False
     end.
Proof.
  unfold restore_stats.
  destruct (PyDict.get "stats" model) as [[| | | | | |stats]|]; try discriminate.
  - destruct (stats_get json_int 0 "wins" stats) as [w|],
      (stats_get json_int 0 "games_played" stats) as [g|],
      (stats_get json_float 0%Q "total_reward" stats) as [t|]; try discriminate.
    intros [= <-]. repeat split.
  - intros [= <-]. repeat split.
Qed.

(** X9: A successful load reads a JSON object with a [q_table] object.  It
    keeps the agent's identity and parameters, replaces the table by
    entries that all come from the file (what the agent had learnt before is
    discarded), leaves the statistics alone when the file has no [stats],
    and otherwise takes each statistic from [stats], a missing one counting
    as 0. *)
Theorem load_model_loaded (a a' : QLearningPlayer) (filepath : string)
    (fs : filesystem) :
  load_model a filepath fs = Loaded a' ->
  exists model items,
    fs !! filepath = Some (JsonFile (JObject model))
    /\ PyDict.get "q_table" model = Some (JObject items)
    /\ same_parameters a a'
    /\ Forall (split_of items) (PyDict.keys (q_table a'))
    /\ (length (q_table a') <= length items)%nat
    /\ match PyDict.get "stats" model with
       | None =>
           wins a' = wins a /\ games_played a' = games_played a
           /\ total_reward a' = total_reward a
       | Some (JObject stats) =>
           (PyDict.get "wins" stats = None -> wins a' = 0)
           /\ (PyDict.get "games_played" stats = None -> games_played a' = 0)
           /\ (PyDict.get "total_reward" stats = None -> total_reward a' = 0%Q)
           /\ (forall z, PyDict.get "wins" stats = Some (JInt z) -> wins a' = z)
       | Some _ => False
       end.
Proof.
  unfold load_model. intros Hload.
  destruct (fs !! filepath) as [[doc|text]|]; try discriminate.
  destruct doc as [| | | | | |model]; try discriminate.
  destruct (PyDict.get "q_table" model) as [[| | | | | |items]|] eqn:Hq; try discriminate.
  destruct (load_entries items (with_q_table [] a)) as [b|b|] eqn:Hentries;
    try discriminate.
  exists model, items. split; [reflexivity|]. split; [exact Hq|].
  destruct (load_entries_Loaded _ _ _ Hentries) as (Hsame & Hkeys & Hlen).
  destruct (restore_stats_Loaded _ _ _ Hload) as (Hpar & Htab & Hstats).
  cbn [q_table with_q_table length] in Hkeys, Hlen.
  destruct Hsame as (S1 & S2 & S3 & S4 & S5 & S6 & S7).
  cbn [player_id learning_rate discount_factor epsilon wins games_played total_reward
       with_q_table] in S1, S2, S3, S4, S5, S6, S7.
  destruct Hpar as (P1 & P2 & P3 & P4).
  split; [repeat split; congruence|].
  rewrite Htab.
  split.
  { eapply Forall_impl; [exact Hkeys|]. intros k [Hk|Hk]; [inversion Hk | exact Hk]. }
  split; [exact Hlen|].
  destruct (PyDict.get "stats" model) as [[| | | | | |stats]|]; try exact Hstats.
  - destruct Hstats as (Hw & Hg & Ht). unfold stats_get in Hw, Hg, Ht.
    repeat split.
    + intros Hnone. rewrite Hnone in Hw. congruence.
    + intros Hnone. rewrite Hnone in Hg. congruence.
    + intros Hnone. rewrite Hnone in Ht. congruence.
    + intros z Hz. rewrite Hz in Hw. cbn in Hw. congruence.
  - destruct Hstats as (Hw & Hg & Ht). repeat split; congruence.
Qed.

Lemma load_model_loaded_witness :
  exists a',
    load_model trained_player "model.json" one_entry_files = Loaded a'
    /\ PyDict.keys (q_table a') = [("s", "stay")]
    /\ same_parameters trained_player a'
    /\ wins a' = wins trained_player.
Proof.
  destruct (load_model trained_player "model.json" one_entry_files) as [a'| |] eqn:Hload;
    try (vm_compute in Hload; discriminate Hload).
  destruct (load_model_loaded trained_player a' "model.json" one_entry_files Hload)
    as (model & items & Hfile & Hq & Hpar & _ & _ & Hstats).
  exists a'. split; [reflexivity|].
  split; [vm_compute in Hload; injection Hload as <-; reflexivity|].
  split; [exact Hpar|].
  vm_compute in Hfile. injection Hfile as <-. exact (proj1 Hstats).
Defined.

Lemma set_Forall {K V : Type} `{EqDecision K} (P : K * V -> Prop) k v (d : dict K V) :
  Forall P d -> P (k, v) -> Forall P (PyDict.set k v d).
Proof.
  intros Hd Hkv. induction Hd as [|[k' v'] d Hx Hd IH]; cbn [PyDict.set].
  - constructor; [exact Hkv | constructor].
  - destruct (decide (k = k')) as [->|Hne]; constructor; assumption.
Qed.

Lemma set_length {K V : Type} `{EqDecision K} k v (d : dict K V) :
  (length (PyDict.set k v d) <= S (length d))%nat.
Proof.
  induction d as [|[k' v'] d IH]; cbn [PyDict.set length]; [lia|].
  destruct (decide (k = k')); cbn [length]; lia.
Qed.

Lemma comprehension_Forall {K V A : Type} `{EqDecision K} (P : K * V -> Prop)
    (kf : A -> K) (vf : A -> V) (l : list A) :
  (forall x, x ∈ l -> P (kf x, vf x)) ->
  Forall P (PyDict.comprehension kf vf l)
  /\ (length (PyDict.comprehension kf vf l) <= length l)%nat.
Proof.
  unfold PyDict.comprehension. intros HP.
  assert (Hgen : forall d : dict K V,
             Forall P d ->
             Forall P (fold_left (fun d x => PyDict.set (kf x) (vf x) d) l d)
             /\ (length (fold_left (fun d x => PyDict.set (kf x) (vf x) d) l d)
                 <= length d + length l)%nat).
  { induction l as [|x l IH]; intros d Hd; cbn [fold_left length].
    - split; [exact Hd | lia].
    - destruct (IH (fun y Hy => HP y ltac:(right; exact Hy))
                   (PyDict.set (kf x) (vf x) d)) as [H1 H2].
      + apply set_Forall; [exact Hd | apply HP; left].
      + split; [exact H1|]. pose proof (set_length (kf x) (vf x) d). lia. }
  destruct (Hgen [] (List.Forall_nil _)) as [H1 H2]. split; [exact H1 | exact H2].
Qed.

Lemma load_entries_total (items : list (string * json)) (b : QLearningPlayer) :
  Forall (fun kv => is_Some (rsplit1 underscore (fst kv)) /\ is_Some (json_float (snd kv)))
         items ->
  exists b', load_entries items b = Loaded b'.
Proof.
  intros Hall. revert b. induction Hall as [|[key value] items [[p Hp] [v Hv]] _ IH];
    intros b; cbn [load_entries].
  - eexists. reflexivity.
  - cbn [fst snd] in Hp, Hv. rewrite Hp. destruct p as [state action]. rewrite Hv.
    apply IH.
Qed.

(** X10: Loading what [save_model] wrote never fails, whatever the table holds:
    it restores wins, games played and total reward of the saved agent,
    keeps identity, rates and epsilon of the loading agent (the saved ones
    are not read), and every key it builds has, once encoded, the text of a
    saved key. *)
Theorem save_load_restores_stats (a b : QLearningPlayer) (filepath : string)
    (fs : filesystem) :
  exists a',
    load_model b filepath (save_model a filepath fs) = Loaded a'
    /\ wins a' = wins a /\ games_played a' = games_played a
    /\ total_reward a' = total_reward a
    /\ same_parameters b a'
    /\ (length (q_table a') <= length (q_table a))%nat
    /\ Forall (fun k' => exists k, k ∈ PyDict.keys (q_table a)
                                   /\ encode_key k' = encode_key k)
              (PyDict.keys (q_table a')).
Proof.
  set (items := PyDict.comprehension (fun kv => encode_key (fst kv))
                  (fun kv : (string * string) * Q => JFloat (snd kv)) (q_table a)).
  assert (Hitems : Forall (fun kv : string * json =>
                             (exists k, k ∈ PyDict.keys (q_table a) /\ fst kv = encode_key k)
                             /\ is_Some (json_float (snd kv))) items
                   /\ (length items <= length (q_table a))%nat).
  { apply comprehension_Forall. intros [k v] Hin. cbn [fst snd]. split.
    - exists k. split; [|reflexivity].
      apply list_elem_of_fmap. exists (k, v). split; [reflexivity | exact Hin].
    - eexists. reflexivity. }
  destruct Hitems as [Hitems Hlen].
  assert (Hload : exists b0, load_entries items (with_q_table [] b) = Loaded b0).
  { apply load_entries_total. eapply Forall_impl; [exact Hitems|].
    intros [key value] [(k & _ & Hk) Hv]. cbn [fst snd] in *. split; [|exact Hv].
    rewrite Hk. apply rsplit1_encode_Some. }
  destruct Hload as [b0 Hb0].
  assert (Hfull : load_model b filepath (save_model a filepath fs)
                  = restore_stats
                      [("player_id", JInt (Z.of_nat (player_id a)));
                       ("q_table", JObject items); ("stats", get_stats a)] b0).
  { unfold load_model, save_model. rewrite lookup_insert_eq. unfold model_data.
    change (PyDict.get "q_table" _) with (Some (JObject items)).
    cbv iota beta. rewrite Hb0. reflexivity. }
  unfold restore_stats in Hfull.
  change (PyDict.get "stats" _) with (Some (get_stats a)) in Hfull.
  unfold get_stats in Hfull.
  change (stats_get json_int 0 "wins" _) with (Some (wins a)) in Hfull.
  change (stats_get json_int 0 "games_played" _) with (Some (games_played a)) in Hfull.
  change (stats_get json_float 0%Q "total_reward" _) with (Some (total_reward a)) in Hfull.
  cbv iota beta in Hfull.
  eexists. split; [exact Hfull|].
  destruct (load_entries_Loaded _ _ _ Hb0) as (Hsame & Hkeys & Hlen0).
  cbn [q_table with_q_table length] in Hkeys, Hlen0.
  destruct Hsame as (S1 & S2 & S3 & S4 & _).
  cbn [player_id learning_rate discount_factor epsilon with_q_table] in S1, S2, S3, S4.
  cbn [wins games_played total_reward q_table with_stats].
  split; [reflexivity|]. split; [reflexivity|]. split; [reflexivity|].
  split; [repeat split; assumption|].
  split; [lia|].
  eapply Forall_impl; [exact Hkeys|].
  intros k' [Hk|(key & v & Hin & Hsplit)]; [inversion Hk|].
  rewrite Forall_forall in Hitems. destruct (Hitems _ Hin) as [(k & Hkin & Hkey) _].
  cbn [fst] in Hkey. exists k. split; [exact Hkin|].
  pose proof (rsplit1_spec underscore key) as Hspec. rewrite Hsplit in Hspec.
  destruct k' as [state action]. destruct Hspec as [Htext _].
  rewrite <- Hkey, Htext. reflexivity.
Qed.

End Loading.

(** ** The executors *)

Section Executors.

Lemma read_write_eq (h h' : heap) l p v :
  write h l p v = Some h' -> read h' l p = Some v.
Proof.
  unfold write, read. destruct (h !! l) as [d|]; [|discriminate].
  cbn [mbind option_bind]. intros [= <-]. rewrite lookup_insert_eq.
  cbn [mbind option_bind]. apply get_set_eq.
Qed.

Lemma read_write_ne (h h' : heap) l p v l' p' :
  write h l p v = Some h' -> (l', p') <> (l, p) -> read h' l' p' = read h l' p'.
Proof.
  unfold write, read. destruct (h !! l) as [d|] eqn:Hd; [|discriminate].
  cbn [mbind option_bind]. intros [= <-] Hne.
  destruct (decide (l' = l)) as [->|Hl].
  - rewrite lookup_insert_eq, Hd. cbn [mbind option_bind].
    apply get_set_ne. congruence.
  - rewrite lookup_insert_ne by congruence. reflexivity.
Qed.

Lemma write_frame (h h' : heap) l p v l' :
  write h l p v = Some h' -> l' <> l -> h' !! l' = h !! l'.
Proof.
  unfold write. destruct (h !! l) as [d|]; [|discriminate].
  cbn [mbind option_bind]. intros [= <-] Hne. apply lookup_insert_ne. congruence.
Qed.

Lemma write_is_Some (h : heap) l p v : is_Some (h !! l) -> is_Some (write h l p v).
Proof. intros [d Hd]. unfold write. rewrite Hd. eexists. reflexivity. Qed.

Lemma write_dom (h h' : heap) l p v l' :
  write h l p v = Some h' -> is_Some (h !! l') -> is_Some (h' !! l').
Proof.
  unfold write. destruct (h !! l) as [d|]; [|discriminate].
  cbn [mbind option_bind]. intros [= <-] Hl'.
  destruct (decide (l = l')) as [->|Hne].
  - rewrite lookup_insert_eq. eexists. reflexivity.
  - rewrite lookup_insert_ne by exact Hne. exact Hl'.
Qed.

Lemma add_to_frame (h h' : heap) l p n l' :
  add_to h l p n = Some h' -> l' <> l -> h' !! l' = h !! l'.
Proof.
  unfold add_to. destruct (read h l p) as [[z|x y]|]; try discriminate.
  cbn [mbind option_bind]. intros Hw. eapply write_frame, Hw.
Qed.

(** [random.randint(a, b)] stays within its bounds. *)
Lemma random_randint_bounds (a b : Z) (r : Rng) :
  a <= b -> a <= fst (random_randint a b r) <= b.
Proof. intros Hab. unfold random_randint, random_random. cbn [fst]. lia. Qed.

(** X11: [_move_position] needs a grid coordinate.  On a board of size at least
    1 it keeps a coordinate on the board, moves it by one cell at most, and
    leaves it where it is for every action that is not one of the four
    moves. *)
Theorem move_position_in_bounds (cfg : GameConfig) (x y : Z) (action : string) :
  1 <= sim_board_size cfg ->
  0 <= x <= sim_board_size cfg - 1 -> 0 <= y <= sim_board_size cfg - 1 ->
  (forall p, _move_position cfg (VInt p) action = None)
  /\ exists x' y',
       _move_position cfg (VTuple x y) action = Some (VTuple x' y')
       /\ 0 <= x' <= sim_board_size cfg - 1 /\ 0 <= y' <= sim_board_size cfg - 1
       /\ Z.abs (x' - x) + Z.abs (y' - y) <= 1
       /\ (action ∉ ["move_left"; "move_right"; "move_up"; "move_down"] ->
           x' = x /\ y' = y).
Proof.
  intros Hsize Hx Hy. split; [reflexivity|].
  unfold _move_position.
  destruct (decide (action = "move_left")) as [->|H1];
    [|destruct (decide (action = "move_right")) as [->|H2];
      [|destruct (decide (action = "move_up")) as [->|H3];
        [|destruct (decide (action = "move_down")) as [->|H4]]]];
    eexists _, _; (split; [reflexivity|]);
    (split; [lia|]); (split; [lia|]); (split; [lia|]);
    intros Hnot; try (exfalso; apply Hnot; by_decide); split; reflexivity.
Qed.

Lemma move_position_in_bounds_witness :
  1 <= sim_board_size empty_config
  /\ 0 <= 7 <= sim_board_size empty_config - 1
  /\ 0 <= 0 <= sim_board_size empty_config - 1
  /\ exists x' y',
       _move_position empty_config (VTuple 7 0) "move_right" = Some (VTuple x' y')
       /\ 0 <= x' <= sim_board_size empty_config - 1
       /\ 0 <= y' <= sim_board_size empty_config - 1.
Proof.
  assert (H1 : 1 <= sim_board_size empty_config) by (vm_compute; discriminate).
  assert (H2 : 0 <= 7 <= sim_board_size empty_config - 1)
    by (vm_compute; split; discriminate).
  assert (H3 : 0 <= 0 <= sim_board_size empty_config - 1)
    by (vm_compute; split; discriminate).
  split; [exact H1|]. split; [exact H2|]. split; [exact H3|].
  destruct (proj2 (move_position_in_bounds empty_config 7 0 "move_right" H1 H2 H3))
    as (x' & y' & Hmove & Hx' & Hy' & _).
  exists x', y'. split; [exact Hmove|]. split; [exact Hx' | exact Hy'].
Defined.

(** X12: The racing executor, for a player on a scalar position [p]: the new
    position is [min(p + movement, length - 1)], so never past the track
    end, and the score is set to it.  The movement is 0 for every action but
    [move_right] and [move_down], and lies between the base movement and the
    base movement plus 2 for those.  The reward is half the movement, plus
    100 exactly when the new position is the track end. *)
Theorem execute_racing_action_spec (cfg : GameConfig) (h : heap) (state : GameState)
    (pid : nat) (action : string) (r : Rng) (p : Z) :
  read h (player_positions state) pid = Some (VInt p) ->
  is_Some (h !! player_scores state) ->
  exists h' reward r' movement,
    _execute_racing_action cfg h state pid action r = Some (h', reward, r')
    /\ (if decide (action = "move_right" \/ action = "move_down")
        then default 2 (cfg_base_movement cfg) <= movement
             <= default 2 (cfg_base_movement cfg) + 2
             /\ (default false (cfg_dice_modifier cfg) = false ->
                 movement = default 2 (cfg_base_movement cfg) /\ r' = r)
        else movement = 0 /\ r' = r)
    /\ read h' (player_positions state) pid
       = Some (VInt (Z.min (p + movement) (config_track_length cfg - 1)))
    /\ read h' (player_scores state) pid
       = Some (VInt (Z.min (p + movement) (config_track_length cfg - 1)))
    /\ Z.min (p + movement) (config_track_length cfg - 1) <= config_track_length cfg - 1
    /\ reward = ((if (config_track_length cfg - 1 <=? Z.min (p + movement)
                                                      (config_track_length cfg - 1))%Z
                  then inject_Z movement * (5 # 10) + 100
                  else inject_Z movement * (5 # 10)))%Q.
Proof.
  intros Hpos Hscores. unfold _execute_racing_action. rewrite Hpos.
  cbn [mbind option_bind].
  set (L := config_track_length cfg).
  set (base := default 2 (cfg_base_movement cfg)).
  assert (Hgen : forall (movement : Z) (r' : Rng),
             exists (h' : heap) (reward : Q),
               (h1 ← write h (player_positions state) pid (VInt (Z.min (p + movement) (L - 1)));
                h2 ← write h1 (player_scores state) pid (VInt (Z.min (p + movement) (L - 1)));
                Some (h2,
                      if (L - 1 <=? Z.min (p + movement) (L - 1))%Z
                      then (inject_Z movement * (5 # 10) + 100)%Q
                      else (inject_Z movement * (5 # 10))%Q, r'))
               = Some (h', reward, r')
               /\ read h' (player_positions state) pid
                  = Some (VInt (Z.min (p + movement) (L - 1)))
               /\ read h' (player_scores state) pid
                  = Some (VInt (Z.min (p + movement) (L - 1)))
               /\ reward = (if (L - 1 <=? Z.min (p + movement) (L - 1))%Z
                            then (inject_Z movement * (5 # 10) + 100)%Q
                            else (inject_Z movement * (5 # 10))%Q)).
  { intros movement r'.
    assert (Hp : is_Some (h !! player_positions state)).
    { unfold read in Hpos. destruct (h !! player_positions state); [eauto | discriminate]. }
    destruct (write_is_Some h _ pid (VInt (Z.min (p + movement) (L - 1))) Hp) as [h1 Hh1].
    rewrite Hh1. cbn [mbind option_bind].
    destruct (write_is_Some h1 (player_scores state) pid
                (VInt (Z.min (p + movement) (L - 1)))
                (write_dom _ _ _ _ _ _ Hh1 Hscores)) as [h2 Hh2].
    rewrite Hh2. cbn [mbind option_bind].
    eexists _, _. split; [reflexivity|]. split; [|split; [|reflexivity]].
    - destruct (decide (player_positions state = player_scores state)) as [Heq|Hne].
      + rewrite Heq. apply (read_write_eq _ _ _ _ _ Hh2).
      + rewrite (read_write_ne _ _ _ _ _ _ _ Hh2) by congruence.
        apply (read_write_eq _ _ _ _ _ Hh1).
    - apply (read_write_eq _ _ _ _ _ Hh2). }
  destruct (decide (action = "move_right" \/ action = "move_down")) as [Hadv|Hadv].
  - destruct (default false (cfg_dice_modifier cfg)) eqn:Hdice.
    + pose proof (random_randint_bounds 0 2 r ltac:(lia)) as Hb.
      destruct (random_randint 0 2 r) as [d r1]. cbn [fst] in Hb.
      destruct (Hgen (base + d) r1) as (h' & reward & Hrun & Hp' & Hs' & Hrew).
      exists h', reward, r1, (base + d). fold L.
      split; [exact Hrun|]. split; [split; [lia | discriminate]|].
      split; [exact Hp'|]. split; [exact Hs'|]. split; [lia | exact Hrew].
    + destruct (Hgen base r) as (h' & reward & Hrun & Hp' & Hs' & Hrew).
      exists h', reward, r, base. fold L.
      split; [exact Hrun|]. split; [split; [lia | split; reflexivity]|].
      split; [exact Hp'|]. split; [exact Hs'|]. split; [lia | exact Hrew].
  - destruct (Hgen 0 r) as (h' & reward & Hrun & Hp' & Hs' & Hrew).
    exists h', reward, r, 0. fold L.
    split; [exact Hrun|]. split; [split; reflexivity|].
    split; [exact Hp'|]. split; [exact Hs'|]. split; [lia | exact Hrew].
Qed.

Lemma racing_game :
  initialize_game_state racing_config ∅ = Some (racing_heap, racing_state).
Proof. vm_compute. reflexivity. Qed.

Lemma execute_racing_action_spec_witness :
  read racing_heap (player_positions racing_state) 0%nat = Some (VInt 0)
  /\ is_Some (racing_heap !! player_scores racing_state)
  /\ exists h' reward r',
       _execute_racing_action racing_config racing_heap racing_state 0%nat
         "move_right" zero_tape = Some (h', reward, r')
       /\ read h' (player_positions racing_state) 0%nat = Some (VInt 2)
       /\ read h' (player_scores racing_state) 0%nat = Some (VInt 2).
Proof.
  assert (Hpos : read racing_heap (player_positions racing_state) 0%nat = Some (VInt 0))
    by reflexivity.
  assert (Hsc : is_Some (racing_heap !! player_scores racing_state))
    by (eexists; reflexivity).
  split; [exact Hpos|]. split; [exact Hsc|].
  destruct (execute_racing_action_spec racing_config racing_heap racing_state 0%nat
              "move_right" zero_tape 0 Hpos Hsc)
    as (h' & reward & r' & movement & Hrun & Hmove & Hp & Hs & _).
  destruct Hmove as [_ Hbase].
  destruct (Hbase eq_refl) as [-> _].
  exists h', reward, r'. split; [exact Hrun|]. split; [exact Hp | exact Hs].
Defined.

(** X13: The resource executor, when it returns: the score of the acting player
    is its resource count; [collect] adds the collection rate to the
    resources and rewards that amount; every other action leaves the
    player's resources as they were. *)
Theorem execute_resource_action_spec (cfg : GameConfig) (h h' : heap)
    (state : GameState) (pid : nat) (action : string) (reward : Q) :
  player_resources state <> player_positions state ->
  player_resources state <> player_scores state ->
  _execute_resource_action cfg h state pid action = Some (h', reward) ->
  read h' (player_scores state) pid = read h' (player_resources state) pid
  /\ (action = "collect" ->
      exists n, read h (player_resources state) pid = Some (VInt n)
                /\ read h' (player_resources state) pid
                   = Some (VInt (n + default 2 (cfg_collection_rate cfg)))
                /\ reward = inject_Z (default 2 (cfg_collection_rate cfg)))
  /\ (action <> "collect" ->
      read h' (player_resources state) pid = read h (player_resources state) pid).
Proof.
  intros Hrp Hrs. unfold _execute_resource_action.
  set (step := if decide (action = "collect") then _ else _).
  destruct step as [[h1 rw]|] eqn:Hstep; [|discriminate].
  cbn [mbind option_bind].
  destruct (read h1 (player_resources state) pid) as [res|] eqn:Hres; [|discriminate].
  cbn [mbind option_bind].
  destruct (write h1 (player_scores state) pid res) as [h2|] eqn:Hw; [|discriminate].
  cbn [mbind option_bind]. intros [= <- <-].
  assert (Hkeep : read h2 (player_resources state) pid = Some res).
  { rewrite (read_write_ne _ _ _ _ _ _ _ Hw) by congruence. exact Hres. }
  split; [rewrite Hkeep; apply (read_write_eq _ _ _ _ _ Hw)|].
  unfold step in Hstep. clear step.
  destruct (decide (action = "collect")) as [Hc|Hc].
  - split; [|intros Hn; contradiction]. intros _.
    unfold add_to in Hstep.
    destruct (read h (player_resources state) pid) as [[n|x y]|] eqn:Hold;
      try discriminate.
    cbn [mbind option_bind] in Hstep.
    destruct (write h (player_resources state) pid _) as [h0|] eqn:Hw0; [|discriminate].
    cbn [mbind option_bind] in Hstep. injection Hstep as <- <-.
    exists n. split; [reflexivity|]. split; [|reflexivity].
    rewrite Hkeep. rewrite (read_write_eq _ _ _ _ _ Hw0) in Hres. congruence.
  - split; [intros Hn; contradiction|]. intros _.
    rewrite Hkeep, <- Hres.
    destruct (String.prefix "move_" action).
    + destruct (read h (player_positions state) pid) as [pos|]; [|discriminate].
      cbn [mbind option_bind] in Hstep.
      destruct (_move_position cfg pos action) as [new_pos|]; [|discriminate].
      cbn [mbind option_bind] in Hstep.
      destruct (write h (player_positions state) pid new_pos) as [h0|] eqn:Hw0;
        [|discriminate].
      cbn [mbind option_bind] in Hstep. injection Hstep as <- _.
      apply (read_write_ne _ _ _ _ _ _ _ Hw0). congruence.
    + injection Hstep as <- _. reflexivity.
Qed.

Lemma execute_resource_action_spec_witness :
  player_resources initial_state <> player_positions initial_state
  /\ player_resources initial_state <> player_scores initial_state
  /\ exists h' reward,
       _execute_resource_action resource_config initial_heap initial_state 0%nat
         "collect" = Some (h', reward)
       /\ read h' (player_scores initial_state) 0%nat
          = read h' (player_resources initial_state) 0%nat
       /\ read h' (player_resources initial_state) 0%nat = Some (VInt 3).
Proof.
  assert (H1 : player_resources initial_state <> player_positions initial_state)
    by discriminate.
  assert (H2 : player_resources initial_state <> player_scores initial_state)
    by discriminate.
  split; [exact H1|]. split; [exact H2|].
  destruct (_execute_resource_action resource_config initial_heap initial_state 0%nat
              "collect") as [[h' reward]|] eqn:Hrun;
    [|vm_compute in Hrun; discriminate Hrun].
  destruct (execute_resource_action_spec resource_config initial_heap h' initial_state
              0%nat "collect" reward H1 H2 Hrun) as (Hmirror & Hcollect & _).
  exists h', reward. split; [reflexivity|]. split; [exact Hmirror|].
  destruct (Hcollect eq_refl) as (n & Hn & Hn' & _).
  vm_compute in Hn. injection Hn as <-. exact Hn'.
Defined.

Lemma get_values {K V : Type} `{EqDecision K} (k : K) (v : V) (d : dict K V) :
  PyDict.get k d = Some v -> In v (PyDict.values d).
Proof.
  induction d as [|[k' v'] d IH]; cbn [PyDict.get PyDict.values map snd]; [discriminate|].
  destruct (decide (k = k')); [intros [= ->]; left; reflexivity|].
  intros Hget. right. apply IH, Hget.
Qed.

Lemma read_is_Some (h : heap) l p v : read h l p = Some v -> is_Some (h !! l).
Proof. unfold read. destruct (h !! l); [eexists; reflexivity | discriminate]. Qed.

Lemma add_to_read (h : heap) l p n z :
  read h l p = Some (VInt z) ->
  exists h', add_to h l p n = Some h' /\ read h' l p = Some (VInt (z + n)).
Proof.
  intros Hread. unfold add_to. rewrite Hread. cbn [mbind option_bind].
  destruct (write_is_Some h l p (VInt (z + n)) (read_is_Some _ _ _ _ Hread)) as [h' Hw].
  exists h'. split; [exact Hw | apply (read_write_eq _ _ _ _ _ Hw)].
Qed.

Lemma add_to_read_ne (h h' : heap) l p n l' p' :
  add_to h l p n = Some h' -> (l', p') <> (l, p) -> read h' l' p' = read h l' p'.
Proof.
  unfold add_to. destruct (read h l p) as [[z|x y]|]; try discriminate.
  cbn [mbind option_bind]. intros Hw. apply (read_write_ne _ _ _ _ _ _ _ Hw).
Qed.

(** X14: The territory executor claims a cell, for reward 5 and 3 points, only
    on a [move_] action, only when no player stood on the cell moved to (the
    mover included, so a move blocked by the board edge never claims), and
    only when the draw it then makes exceeds 0.7.  In every other case the
    reward is 0 and the score is unchanged. *)
Theorem execute_territory_action_claims (cfg : GameConfig) (h h' : heap)
    (st : GameState) (p : nat) (action : string) (r r' : Rng) (reward : Q) (sc : Z) :
  player_positions st <> player_scores st ->
  read h (player_scores st) p = Some (VInt sc) ->
  _execute_territory_action cfg h st p action r = Some (h', reward, r') ->
  (reward = 0%Q /\ read h' (player_scores st) p = Some (VInt sc))
  \/ (reward = 5%Q /\ read h' (player_scores st) p = Some (VInt (sc + 3))
      /\ String.prefix "move_" action = true
      /\ cursor r' = S (cursor r) /\ (7 # 10 < draws r (cursor r))%Q
      /\ forall q v, read h (player_positions st) q = Some v ->
                     read h' (player_positions st) p <> Some v).
Proof.
  intros Hne Hsc. unfold _execute_territory_action.
  destruct (String.prefix "move_" action) eqn:Hmove;
    [|intros [= <- <- <-]; left; split; [reflexivity | exact Hsc]].
  destruct (read h (player_positions st) p) as [pos|]; [|discriminate].
  cbn [mbind option_bind].
  destruct (_move_position cfg pos action) as [new_pos|]; [|discriminate].
  cbn [mbind option_bind]. unfold _is_unclaimed_territory.
  destruct (h !! player_positions st) as [positions|] eqn:Hpos; [|discriminate].
  cbn [mbind option_bind].
  destruct (existsb _ (PyDict.values positions)) eqn:Hocc.
  - cbn [mbind option_bind].
    destruct (write h (player_positions st) p new_pos) as [h2|] eqn:Hw; [|discriminate].
    cbn [mbind option_bind]. intros [= <- <- <-]. left. split; [reflexivity|].
    rewrite (read_write_ne _ _ _ _ _ _ _ Hw) by congruence. exact Hsc.
  - unfold random_random. cbn [mbind option_bind].
    destruct (Qlt_le_dec (7 # 10) (draws r (cursor r))) as [Hdraw|Hdraw].
    + destruct (add_to_read h _ p 3 sc Hsc) as (h1 & Hadd & Hsc1).
      rewrite Hadd. cbn [mbind option_bind].
      destruct (write h1 (player_positions st) p new_pos) as [h2|] eqn:Hw; [|discriminate].
      cbn [mbind option_bind]. intros [= <- <- <-]. right.
      split; [reflexivity|].
      split; [rewrite (read_write_ne _ _ _ _ _ _ _ Hw) by congruence; exact Hsc1|].
      split; [reflexivity|]. split; [reflexivity|]. split; [exact Hdraw|].
      intros q v Hq. rewrite (read_write_eq _ _ _ _ _ Hw). intros [= ->].
      unfold read in Hq. rewrite Hpos in Hq. cbn [mbind option_bind] in Hq.
      apply get_values in Hq.
      assert (Hex : existsb (fun pos0 => value_eqb pos0 v) (PyDict.values positions) = true).
      { apply existsb_exists. exists v. split; [exact Hq|].
        unfold value_eqb. apply bool_decide_eq_true_2. reflexivity. }
      congruence.
    + cbn [mbind option_bind].
      destruct (write h (player_positions st) p new_pos) as [h2|] eqn:Hw; [|discriminate].
      cbn [mbind option_bind]. intros [= <- <- <-]. left. split; [reflexivity|].
      rewrite (read_write_ne _ _ _ _ _ _ _ Hw) by congruence. exact Hsc.
Qed.

Lemma execute_territory_action_claims_witness :
  player_positions initial_state <> player_scores initial_state
  /\ read initial_heap (player_scores initial_state) 0%nat = Some (VInt 0)
  /\ exists h' reward r',
       _execute_territory_action empty_config initial_heap initial_state 0%nat
         "move_left" zero_tape = Some (h', reward, r')
       /\ reward = 0%Q.
Proof.
  assert (Hne : player_positions initial_state <> player_scores initial_state)
    by discriminate.
  assert (Hsc : read initial_heap (player_scores initial_state) 0%nat = Some (VInt 0))
    by reflexivity.
  split; [exact Hne|]. split; [exact Hsc|].
  destruct (_execute_territory_action empty_config initial_heap initial_state 0%nat
              "move_left" zero_tape) as [[[h' reward] r']|] eqn:Hrun;
    [|vm_compute in Hrun; discriminate Hrun].
  exists h', reward, r'. split; [reflexivity|].
  destruct (execute_territory_action_claims empty_config _ _ _ _ _ _ _ _ 0 Hne Hsc Hrun)
    as [[Hzero _]|(_ & _ & _ & _ & _ & Hfree)]; [exact Hzero|].
  exfalso. apply (Hfree 0%nat (VTuple 0 0)); [reflexivity|].
  vm_compute in Hrun. injection Hrun as <- _ _. reflexivity.
Defined.

(** X15: The strategy executor, for a player on a grid cell and a [move_]
    action: it always returns, the player is on the cell [_move_position]
    gives, and the score goes up by one whether or not the piece moved.  The
    reward is 1 for a step towards the goal, -1/2 for a step away from it,
    and 0 when the piece stayed where it was. *)
Theorem execute_strategy_action_spec (cfg : GameConfig) (h : heap) (st : GameState)
    (p : nat) (action : string) (x y sc : Z) :
  player_positions st <> player_scores st ->
  read h (player_positions st) p = Some (VTuple x y) ->
  read h (player_scores st) p = Some (VInt sc) ->
  String.prefix "move_" action = true ->
  exists h' reward x' y',
    _execute_strategy_action cfg h st p action = Some (h', reward)
    /\ _move_position cfg (VTuple x y) action = Some (VTuple x' y')
    /\ read h' (player_positions st) p = Some (VTuple x' y')
    /\ read h' (player_scores st) p = Some (VInt (sc + 1))
    /\ (reward = 1%Q \/ reward = (- (5 # 10))%Q \/ reward = 0%Q)
    /\ (reward = 1%Q <->
        Z.abs (x' - fst (goal_position cfg)) + Z.abs (y' - snd (goal_position cfg))
        < Z.abs (x - fst (goal_position cfg)) + Z.abs (y - snd (goal_position cfg)))
    /\ (x' = x -> y' = y -> reward = 0%Q).
Proof.
  intros Hne Hpos Hsc Hmove. unfold _execute_strategy_action.
  rewrite Hmove, Hpos. cbn [mbind option_bind].
  assert (Hnew : exists x' y', _move_position cfg (VTuple x y) action = Some (VTuple x' y')).
  { unfold _move_position. repeat destruct (decide _); eexists _, _; reflexivity. }
  destruct Hnew as (x' & y' & Hnew). rewrite Hnew. cbn [mbind option_bind].
  destruct (write_is_Some h (player_positions st) p (VTuple x' y')
              (read_is_Some _ _ _ _ Hpos)) as [h1 Hw].
  rewrite Hw. cbn [mbind option_bind].
  assert (Hsc1 : read h1 (player_scores st) p = Some (VInt sc))
    by (rewrite (read_write_ne _ _ _ _ _ _ _ Hw) by congruence; exact Hsc).
  destruct (add_to_read h1 _ p 1 sc Hsc1) as (h2 & Hadd & Hsc2).
  rewrite Hadd. cbn [mbind option_bind].
  exists h2. eexists. exists x', y'. split; [reflexivity|]. split; [reflexivity|].
  split.
  { rewrite (add_to_read_ne _ _ _ _ _ _ _ Hadd) by congruence.
    apply (read_write_eq _ _ _ _ _ Hw). }
  split; [exact Hsc2|].
  set (d := Z.abs (x - _) + Z.abs (y - _)).
  set (d' := Z.abs (x' - _) + Z.abs (y' - _)).
  destruct (Z.ltb_spec d' d) as [Hlt|Hge].
  - split; [left; reflexivity|]. split; [tauto|].
    intros -> ->. unfold d, d' in Hlt. lia.
  - destruct (Z.ltb_spec d d') as [Hgt|Heq].
    + split; [right; left; reflexivity|].
      split; [split; [discriminate | lia]|].
      intros -> ->. unfold d, d' in Hgt. lia.
    + split; [right; right; reflexivity|].
      split; [split; [discriminate | lia]|]. reflexivity.
Qed.

Lemma execute_strategy_action_spec_witness :
  player_positions initial_state <> player_scores initial_state
  /\ read initial_heap (player_positions initial_state) 0%nat = Some (VTuple 0 0)
  /\ read initial_heap (player_scores initial_state) 0%nat = Some (VInt 0)
  /\ String.prefix "move_" "move_left" = true
  /\ exists h' reward,
       _execute_strategy_action empty_config initial_heap initial_state 0%nat
         "move_left" = Some (h', reward)
       /\ read h' (player_positions initial_state) 0%nat = Some (VTuple 0 0)
       /\ read h' (player_scores initial_state) 0%nat = Some (VInt (0 + 1))
       /\ reward = 0%Q.
Proof.
  assert (Hne : player_positions initial_state <> player_scores initial_state)
    by discriminate.
  assert (Hpos : read initial_heap (player_positions initial_state) 0%nat
                 = Some (VTuple 0 0)) by reflexivity.
  assert (Hsc : read initial_heap (player_scores initial_state) 0%nat = Some (VInt 0))
    by reflexivity.
  assert (Hmove : String.prefix "move_" "move_left" = true) by reflexivity.
  split; [exact Hne|]. split; [exact Hpos|]. split; [exact Hsc|]. split; [exact Hmove|].
  destruct (execute_strategy_action_spec empty_config _ _ _ _ _ _ _ Hne Hpos Hsc Hmove)
    as (h' & reward & x' & y' & Hrun & Hnew & Hp' & Hs' & _ & _ & Hstay).
  vm_compute in Hnew. injection Hnew as <- <-.
  exists h', reward. split; [exact Hrun|]. split; [exact Hp'|]. split; [exact Hs'|].
  apply Hstay; reflexivity.
Defined.

End Executors.

(** ** The game loop *)

Section Frames.
Variable cfg : GameConfig.

(** The executors write to the position and score dicts, and to the
    resource dict for [collect] only. *)
Lemma execute_action_frame h st p action r h' ns reward done r' (l : loc) :
  _execute_action cfg h st p action r = Some (h', ns, reward, done, r') ->
  l <> player_positions st -> l <> player_scores st ->
  (action = "collect" -> l <> player_resources st) ->
  h' !! l = h !! l.
Proof.
  unfold _execute_action. rewrite copy_eq. intros Hex Hp Hs Hc.
  destruct (decide (sim_genre cfg = "racing")) as [Hg1|Hg1];
    [|destruct (decide (sim_genre cfg = "resource_management")) as [Hg2|Hg2];
      [|destruct (decide (sim_genre cfg = "territory_control")) as [Hg3|Hg3]]].
  - destruct (_execute_racing_action cfg h st p action r) as [[[h1 rw] r1]|] eqn:Hrun;
      [|discriminate].
    cbn [mbind option_bind] in Hex. injection Hex as <- _ _ _ _.
    unfold _execute_racing_action in Hrun.
    destruct (read h (player_positions st) p) as [[z|x y]|]; try discriminate.
    + cbn [mbind option_bind] in Hrun.
      destruct (if decide (action = "move_right" \/ action = "move_down") then _ else _)
        as [movement r2].
      destruct (write h (player_positions st) p _) as [h2|] eqn:Hw1; [|discriminate].
      cbn [mbind option_bind] in Hrun.
      destruct (write h2 (player_scores st) p _) as [h3|] eqn:Hw2; [|discriminate].
      cbn [mbind option_bind] in Hrun. injection Hrun as <- _ _.
      rewrite (write_frame _ _ _ _ _ _ Hw2) by exact Hs.
      apply (write_frame _ _ _ _ _ _ Hw1). exact Hp.
    + cbn [mbind option_bind] in Hrun.
      destruct (if decide (action = "move_right" \/ action = "move_down") then _ else _)
        as [movement r2]. discriminate.
  - destruct (_execute_resource_action cfg h st p action) as [[h1 rw]|] eqn:Hrun;
      [|discriminate].
    cbn [mbind option_bind] in Hex. injection Hex as <- _ _ _ _.
    unfold _execute_resource_action in Hrun.
    destruct (if decide (action = "collect") then _ else _) as [[h2 rw2]|] eqn:Hstep;
      [|discriminate].
    cbn [mbind option_bind] in Hrun.
    destruct (read h2 (player_resources st) p) as [res|]; [|discriminate].
    cbn [mbind option_bind] in Hrun.
    destruct (write h2 (player_scores st) p res) as [h3|] eqn:Hw; [|discriminate].
    cbn [mbind option_bind] in Hrun. injection Hrun as <- _.
    rewrite (write_frame _ _ _ _ _ _ Hw) by exact Hs.
    destruct (decide (action = "collect")) as [Hcol|Hcol].
    + destruct (add_to h (player_resources st) p _) as [h4|] eqn:Hadd; [|discriminate].
      cbn [mbind option_bind] in Hstep. injection Hstep as <- _.
      apply (add_to_frame _ _ _ _ _ _ Hadd). exact (Hc Hcol).
    + destruct (String.prefix "move_" action).
      * destruct (read h (player_positions st) p) as [pos|]; [|discriminate].
        cbn [mbind option_bind] in Hstep.
        destruct (_move_position cfg pos action) as [new_pos|]; [|discriminate].
        cbn [mbind option_bind] in Hstep.
        destruct (write h (player_positions st) p new_pos) as [h4|] eqn:Hw0;
          [|discriminate].
        cbn [mbind option_bind] in Hstep. injection Hstep as <- _.
        apply (write_frame _ _ _ _ _ _ Hw0). exact Hp.
      * injection Hstep as <- _. reflexivity.
  - destruct (_execute_territory_action cfg h st p action r) as [[[h1 rw] r1]|] eqn:Hrun;
      [|discriminate].
    cbn [mbind option_bind] in Hex. injection Hex as <- _ _ _ _.
    unfold _execute_territory_action in Hrun.
    destruct (String.prefix "move_" action); [|injection Hrun as <- _ _; reflexivity].
    destruct (read h (player_positions st) p) as [pos|]; [|discriminate].
    cbn [mbind option_bind] in Hrun.
    destruct (_move_position cfg pos action) as [new_pos|]; [|discriminate].
    cbn [mbind option_bind] in Hrun.
    destruct (_is_unclaimed_territory h st new_pos r) as [[unclaimed r2]|];
      [|discriminate].
    cbn [mbind option_bind] in Hrun.
    destruct unclaimed.
    + destruct (add_to h (player_scores st) p 3) as [h2|] eqn:Hadd; [|discriminate].
      cbn [mbind option_bind] in Hrun.
      destruct (write h2 (player_positions st) p new_pos) as [h3|] eqn:Hw; [|discriminate].
      cbn [mbind option_bind] in Hrun. injection Hrun as <- _ _.
      rewrite (write_frame _ _ _ _ _ _ Hw) by exact Hp.
      apply (add_to_frame _ _ _ _ _ _ Hadd). exact Hs.
    + cbn [mbind option_bind] in Hrun.
      destruct (write h (player_positions st) p new_pos) as [h3|] eqn:Hw; [|discriminate].
      cbn [mbind option_bind] in Hrun. injection Hrun as <- _ _.
      apply (write_frame _ _ _ _ _ _ Hw). exact Hp.
  - destruct (_execute_strategy_action cfg h st p action) as [[h1 rw]|] eqn:Hrun;
      [|discriminate].
    cbn [mbind option_bind] in Hex. injection Hex as <- _ _ _ _.
    unfold _execute_strategy_action in Hrun.
    destruct (String.prefix "move_" action); [|injection Hrun as <- _; reflexivity].
    destruct (read h (player_positions st) p) as [pos|]; [|discriminate].
    cbn [mbind option_bind] in Hrun.
    destruct (_move_position cfg pos action) as [new_pos|]; [|discriminate].
    cbn [mbind option_bind] in Hrun.
    destruct pos as [z|x y]; [discriminate|].
    destruct new_pos as [z'|x' y']; [discriminate|].
    destruct (write h (player_positions st) p _) as [h2|] eqn:Hw; [|discriminate].
    cbn [mbind option_bind] in Hrun.
    destruct (add_to h2 (player_scores st) p 1) as [h3|] eqn:Hadd; [|discriminate].
    cbn [mbind option_bind] in Hrun. injection Hrun as <- _.
    rewrite (add_to_frame _ _ _ _ _ _ Hadd) by exact Hs.
    apply (write_frame _ _ _ _ _ _ Hw). exact Hp.
Qed.

(** The dicts of a new game are new objects: their locations are not on
    the heap before, differ from each other, and the dicts already on the
    heap are untouched. *)
Lemma initialize_game_state_fresh (h h' : heap) (st : GameState) :
  initialize_game_state cfg h = Some (h', st) ->
  (player_positions st ∉ dom h) /\ (player_resources st ∉ dom h)
  /\ (player_scores st ∉ dom h)
  /\ player_resources st <> player_positions st
  /\ player_scores st <> player_positions st
  /\ player_resources st <> player_scores st
  /\ (forall l, l ∈ dom h -> h' !! l = h !! l)
  /\ undecided st /\ turn st = 0 /\ can_collect_resource st = false.
Proof.
  unfold initialize_game_state, fresh_loc. intros Hinit.
  destruct (_initialize_board cfg) as [b|]; [|discriminate].
  cbn [mbind option_bind] in Hinit. injection Hinit as <- <-.
  cbn [player_positions player_resources player_scores turn can_collect_resource].
  set (pos := PyDict.comprehension id (initial_position cfg) (players cfg)).
  set (zero := PyDict.comprehension id (fun _ => VInt 0) (players cfg)).
  set (lp := fresh (dom h)).
  set (h1 := <[lp := pos]> h).
  set (lr := fresh (dom h1)).
  set (h2 := <[lr := zero]> h1).
  set (ls := fresh (dom h2)).
  assert (Hlp : lp ∉ dom h) by apply is_fresh.
  assert (Hlr : lr ∉ dom h1) by apply is_fresh.
  assert (Hls : ls ∉ dom h2) by apply is_fresh.
  unfold h2 in Hls. rewrite dom_insert_L in Hls.
  unfold h1 in Hlr, Hls. rewrite dom_insert_L in Hlr, Hls.
  split; [exact Hlp|]. split; [set_solver|]. split; [set_solver|].
  split; [set_solver|]. split; [set_solver|]. split; [set_solver|].
  split.
  { intros l Hl. unfold h2, h1.
    rewrite !lookup_insert_ne by (intros <-; set_solver). reflexivity. }
  repeat split.
Qed.

End Frames.

Section Play.
Context {A : Type} `{AIPlayer A}.
Variable cfg : GameConfig.
Variable training : bool.

(** What one move of [simulate_game]'s inner loop does. *)
Lemma player_turn_inv p (s s' : Sim A) :
  player_turn cfg training p s = Some s' ->
  exists ai action r1 reward won ai',
    sim_players s !! p = Some ai
    /\ player_choose_action ai (sim_heap s) (sim_state s) training (sim_rng s)
       = Some (action, r1)
    /\ _execute_action cfg (sim_heap s) (sim_state s) p action r1
       = Some (sim_heap s', sim_state s, reward, false, sim_rng s')
    /\ _check_win_condition cfg (sim_heap s') (sim_state s) p = Some won
    /\ sim_state s' = (if won : bool then set_won p (sim_state s) else sim_state s)
    /\ (if training
        then player_update_q_value ai (sim_heap s') (sim_state s) action
               (if won then reward + 100 else reward)%Q (sim_state s') won = Some ai'
        else ai' = ai)
    /\ sim_players s' = <[p := ai']> (sim_players s)
    /\ sim_calls s'
       = (if training
          then sim_calls s ++
               [ {| call_player := p; call_heap_before := sim_heap s;
                    call_heap := sim_heap s'; call_state := sim_state s;
                    call_action := action;
                    call_reward := (if won then reward + 100 else reward)%Q;
                    call_next_state := sim_state s'; call_done := won |} ]
          else sim_calls s).
Proof.
  unfold player_turn. intros Hturn.
  destruct (sim_players s !! p) as [ai|] eqn:Hai; [|discriminate].
  cbn [mbind option_bind] in Hturn.
  destruct (player_choose_action ai (sim_heap s) (sim_state s) training (sim_rng s))
    as [[action r1]|] eqn:Hch; [|discriminate].
  cbn [mbind option_bind] in Hturn.
  destruct (_execute_action cfg (sim_heap s) (sim_state s) p action r1)
    as [[[[[h1 ns] rw] dn] r2]|] eqn:Hex; [|discriminate].
  cbn [mbind option_bind] in Hturn.
  destruct (execute_action_next_state _ _ _ _ _ _ _ _ _ _ _ Hex) as [-> ->].
  rewrite copy_eq in *.
  destruct (_check_win_condition cfg h1 (sim_state s) p) as [won|] eqn:Hwon;
    [|discriminate].
  cbn [mbind option_bind] in Hturn.
  exists ai, action, r1, rw, won.
  destruct won, training; cbn [mbind option_bind] in Hturn.
  - destruct (player_update_q_value _ _ _ _ _ _ _) as [ai'|] eqn:Hup; [|discriminate].
    cbn [mbind option_bind] in Hturn. injection Hturn as <-. cbn.
    exists ai'. repeat split; assumption.
  - injection Hturn as <-. cbn. exists ai. repeat split; assumption.
  - destruct (player_update_q_value _ _ _ _ _ _ _) as [ai'|] eqn:Hup; [|discriminate].
    cbn [mbind option_bind] in Hturn. injection Hturn as <-. cbn.
    exists ai'. repeat split; assumption.
  - injection Hturn as <-. cbn. exists ai. repeat split; assumption.
Qed.

(** Loop invariants: a property that every move and every new turn number
    preserve holds when the loops end. *)
Section Invariant.
Variable I : Sim A -> Prop.
Hypothesis I_turn :
  forall p s s', I s -> player_turn cfg training p s = Some s' -> I s'.
Hypothesis I_set_turn :
  forall t s, I s -> I (with_state (set_turn t (sim_state s)) s).

Lemma player_loop_inv ids (s s' : Sim A) :
  I s -> player_loop cfg training ids s = Some s' -> I s'.
Proof.
  revert s. induction ids as [|p ids IH]; intros s HI Hloop; cbn [player_loop] in Hloop.
  - injection Hloop as <-. exact HI.
  - destruct (decide (p ∈ eliminated_players (sim_state s))); [eapply IH; eassumption|].
    destruct (player_turn cfg training p s) as [s1|] eqn:Hturn; [|discriminate].
    cbn [mbind option_bind] in Hloop.
    pose proof (I_turn p s s1 HI Hturn) as HI1.
    destruct (game_over (sim_state s1)).
    + injection Hloop as <-. exact HI1.
    + eapply IH; eassumption.
Qed.

Lemma turn_loop_inv turns (s s' : Sim A) :
  I s -> turn_loop cfg training turns s = Some s' -> I s'.
Proof.
  revert s. induction turns as [|t turns IH]; intros s HI Hloop; cbn [turn_loop] in Hloop.
  - injection Hloop as <-. exact HI.
  - destruct (player_loop cfg training (players cfg) _) as [s1|] eqn:Hpl; [|discriminate].
    cbn [mbind option_bind] in Hloop.
    pose proof (player_loop_inv _ _ s1 (I_set_turn _ _ HI) Hpl) as HI1.
    destruct (game_over (sim_state s1)).
    + injection Hloop as <-. exact HI1.
    + eapply IH; eassumption.
Qed.

End Invariant.

(** The win test reads the three per-player dicts only. *)
Lemma check_win_condition_set_won (h : heap) (st : GameState) (p q : nat) :
  _check_win_condition cfg h (set_won q st) p = _check_win_condition cfg h st p.
Proof. reflexivity. Qed.

Lemma player_turn_outcome p (s s' : Sim A) :
  player_turn cfg training p s = Some s' ->
  undecided (sim_state s) ->
  turn (sim_state s') = turn (sim_state s)
  /\ (undecided (sim_state s') \/ won_by cfg (sim_heap s') (sim_state s') p).
Proof.
  intros Hturn Hun.
  destruct (player_turn_inv p s s' Hturn)
    as (ai & action & r1 & reward & won & ai' & _ & _ & _ & Hwon & Hst & _).
  rewrite Hst. destruct won.
  - split; [reflexivity|]. right. unfold won_by.
    rewrite check_win_condition_set_won. repeat split. exact Hwon.
  - split; [reflexivity|]. left. exact Hun.
Qed.

Lemma player_loop_outcome ids (s s' : Sim A) :
  player_loop cfg training ids s = Some s' ->
  undecided (sim_state s) ->
  turn (sim_state s') = turn (sim_state s)
  /\ (undecided (sim_state s')
      \/ exists p, p ∈ ids /\ won_by cfg (sim_heap s') (sim_state s') p).
Proof.
  revert s. induction ids as [|p ids IH]; intros s Hloop Hun; cbn [player_loop] in Hloop.
  - injection Hloop as <-. split; [reflexivity|]. left. exact Hun.
  - assert (Hrest : forall s0, player_loop cfg training ids s0 = Some s' ->
                      undecided (sim_state s0) ->
                      turn (sim_state s') = turn (sim_state s0)
                      /\ (undecided (sim_state s')
                          \/ exists q, q ∈ p :: ids
                                       /\ won_by cfg (sim_heap s') (sim_state s') q)).
    { intros s0 Hl Hu. destruct (IH s0 Hl Hu) as [Ht [Hu'|(q & Hq & Hw)]].
      - split; [exact Ht|]. left. exact Hu'.
      - split; [exact Ht|]. right. exists q. split; [right; exact Hq | exact Hw]. }
    destruct (decide (p ∈ eliminated_players (sim_state s))); [apply Hrest; assumption|].
    destruct (player_turn cfg training p s) as [s1|] eqn:Hturn; [|discriminate].
    cbn [mbind option_bind] in Hloop.
    destruct (player_turn_outcome p s s1 Hturn Hun) as [Ht1 Hout].
    destruct (game_over (sim_state s1)) eqn:Hover.
    + injection Hloop as <-. split; [exact Ht1|].
      destruct Hout as [[Hno _]|Hw]; [congruence|].
      right. exists p. split; [left | exact Hw].
    + destruct Hout as [Hu1|(Hyes & _)]; [|congruence].
      destruct (Hrest s1 Hloop Hu1) as [Ht Hout']. split; [congruence | exact Hout'].
Qed.

Lemma turn_loop_outcome turns (s s' : Sim A) :
  turn_loop cfg training turns s = Some s' ->
  undecided (sim_state s) ->
  (undecided (sim_state s')
   /\ turn (sim_state s') = default (turn (sim_state s)) (Z.of_nat <$> last turns))
  \/ (exists p t, p ∈ players cfg /\ t ∈ turns
                  /\ turn (sim_state s') = Z.of_nat t
                  /\ won_by cfg (sim_heap s') (sim_state s') p).
Proof.
  revert s. induction turns as [|t turns IH]; intros s Hloop Hun; cbn [turn_loop] in Hloop.
  - injection Hloop as <-. left. split; [exact Hun | reflexivity].
  - destruct (player_loop cfg training (players cfg) _) as [s1|] eqn:Hpl; [|discriminate].
    cbn [mbind option_bind] in Hloop.
    destruct (player_loop_outcome _ _ s1 Hpl) as [Ht1 Hout]; [exact Hun|].
    cbn [with_state sim_state set_turn turn] in Ht1.
    destruct (game_over (sim_state s1)) eqn:Hover.
    + injection Hloop as <-.
      destruct Hout as [[Hno _]|(p & Hp & Hw)]; [congruence|].
      right. exists p, t. split; [exact Hp|]. split; [left|]. split; assumption.
    + destruct Hout as [Hu1|(p & _ & Hyes & _)]; [|congruence].
      destruct (IH s1 Hloop Hu1) as [[Hu' Ht']|(p & t' & Hp & Ht' & Hturn & Hw)].
      * left. split; [exact Hu'|]. rewrite Ht', last_cons.
        destruct (last turns); cbn [fmap option_fmap option_map default];
          [reflexivity | exact Ht1].
      * right. exists p, t'. split; [exact Hp|]. split; [right; exact Ht'|].
        split; assumption.
Qed.

(** A game ends undecided after the last turn, or with a winner who meets
    the win condition. *)
Lemma simulate_game_outcome_aux (h : heap) (ai_players : list A) (r : Rng)
    (result : SimulationResult) (ai_players' : list A) (s : Sim A) :
  simulate_game cfg training h ai_players r = Some (result, ai_players', s) ->
  res_winner result = None /\ res_turns result = 99
  \/ exists p, res_winner result = Some p
               /\ _check_win_condition cfg (sim_heap s) (sim_state s) p = Some true.
Proof.
  unfold simulate_game. intros Hsim.
  destruct (initialize_game_state cfg h) as [[h0 state0]|] eqn:Hinit; [|discriminate].
  cbn [mbind option_bind] in Hsim.
  destruct (turn_loop cfg training (seq 0 max_turns) _) as [s1|] eqn:Hloop; [|discriminate].
  cbn [mbind option_bind] in Hsim.
  destruct (sim_heap s1 !! player_scores (sim_state s1)) as [sc|]; [|discriminate].
  cbn [mbind option_bind] in Hsim.
  destruct (sim_heap s1 !! player_resources (sim_state s1)) as [rs|]; [|discriminate].
  cbn [mbind option_bind] in Hsim. injection Hsim as <- _ <-.
  cbn [res_turns res_winner].
  assert (Hun : undecided state0).
  { unfold initialize_game_state in Hinit.
    destruct (_initialize_board cfg); [|discriminate].
    cbn [mbind option_bind] in Hinit. injection Hinit as _ <-. split; reflexivity. }
  destruct (turn_loop_outcome _ _ s1 Hloop Hun)
    as [[[_ Hwin] Ht]|(p & t & _ & _ & _ & _ & Hwin & Hcheck)].
  - left. split; [exact Hwin|]. rewrite Ht. reflexivity.
  - right. exists p. split; assumption.
Qed.

(** X16: How a game ends.  The reported turn is the turn number of the final
    state and lies between 0 and 99.  Either a winner is reported: then the
    winner is one of the players [0 .. num_players - 1], the final state is
    over, and the winner meets the win condition in it.  Or no winner is
    reported: then the final state is not over and the reported turn is 99,
    the last of the 100 turns.  The reported scores and resources are the
    score and resource dicts of the final state. *)
Theorem simulate_game_outcome (h : heap) (ai_players : list A) (r : Rng)
    (result : SimulationResult) (ai_players' : list A) (s : Sim A) :
  simulate_game cfg training h ai_players r = Some (result, ai_players', s) ->
  0 <= res_turns result <= 99
  /\ res_turns result = turn (sim_state s)
  /\ match res_winner result with
     | Some p =>
         (Z.of_nat p < sim_num_players cfg)
         /\ game_over (sim_state s) = true
         /\ _check_win_condition cfg (sim_heap s) (sim_state s) p = Some true
     | None => res_turns result = 99 /\ game_over (sim_state s) = false
     end
  /\ sim_heap s !! player_scores (sim_state s) = Some (res_final_scores result)
  /\ sim_heap s !! player_resources (sim_state s) = Some (res_final_resources result).
Proof.
  unfold simulate_game. intros Hsim.
  destruct (initialize_game_state cfg h) as [[h0 state0]|] eqn:Hinit; [|discriminate].
  cbn [mbind option_bind] in Hsim.
  destruct (turn_loop cfg training (seq 0 max_turns) _) as [s1|] eqn:Hloop; [|discriminate].
  cbn [mbind option_bind] in Hsim.
  destruct (sim_heap s1 !! player_scores (sim_state s1)) as [sc|] eqn:Hsc; [|discriminate].
  cbn [mbind option_bind] in Hsim.
  destruct (sim_heap s1 !! player_resources (sim_state s1)) as [rs|] eqn:Hrs;
    [|discriminate].
  cbn [mbind option_bind] in Hsim. injection Hsim as <- _ <-.
  cbn [res_turns res_winner res_final_scores res_final_resources].
  assert (Hun : undecided state0).
  { unfold initialize_game_state in Hinit.
    destruct (_initialize_board cfg); [|discriminate].
    cbn [mbind option_bind] in Hinit. injection Hinit as _ <-. split; reflexivity. }
  destruct (turn_loop_outcome _ _ s1 Hloop Hun) as [[[Hover Hwin] Ht]|(p & t & Hp & Ht & Hturn & Hw)].
  - rewrite Hwin, Ht. change (last (seq 0 max_turns)) with (Some 99%nat).
    cbn [fmap option_fmap option_map default]. unfold id.
    repeat split; try assumption; try reflexivity; lia.
  - destruct Hw as (Hover & Hwin & Hcheck). rewrite Hwin, Hturn.
    apply list_elem_of_In, in_seq in Ht. unfold max_turns in Ht.
    unfold players in Hp. apply list_elem_of_In, in_seq in Hp.
    repeat split; try assumption; try reflexivity; lia.
Qed.

(** What a move keeps of the heap the game started on. *)
Lemma frame_turn (h : heap) p (s s' : Sim A) :
  ((player_positions (sim_state s) ∉ dom h)
   /\ (player_resources (sim_state s) ∉ dom h)
   /\ (player_scores (sim_state s) ∉ dom h)
   /\ forall l, l ∈ dom h -> sim_heap s !! l = h !! l) ->
  player_turn cfg training p s = Some s' ->
  (player_positions (sim_state s') ∉ dom h)
  /\ (player_resources (sim_state s') ∉ dom h)
  /\ (player_scores (sim_state s') ∉ dom h)
  /\ forall l, l ∈ dom h -> sim_heap s' !! l = h !! l.
Proof.
  intros (Hp & Hr & Hs & Hkeep) Hturn.
  destruct (player_turn_inv p s s' Hturn)
    as (ai & action & r1 & reward & won & ai' & _ & _ & Hex & _ & Hst & _).
  assert (Hfields : player_resources (sim_state s') = player_resources (sim_state s)
                    /\ player_positions (sim_state s') = player_positions (sim_state s)
                    /\ player_scores (sim_state s') = player_scores (sim_state s))
    by (rewrite Hst; destruct won; repeat split).
  destruct Hfields as (-> & -> & ->).
  split; [exact Hp|]. split; [exact Hr|]. split; [exact Hs|].
  intros l Hl. rewrite <- (Hkeep l Hl).
  refine (execute_action_frame _ _ _ _ _ _ _ _ _ _ _ l Hex _ _ _);
    intros; intros ->; contradiction.
Qed.

(** X17: A game works on dicts of its own: every dict that was on the heap when
    the game started, such as the score and resource dicts an earlier game
    reported, is the same when the game has ended. *)
Theorem simulate_game_frame (h : heap) (ai_players : list A) (r : Rng)
    (result : SimulationResult) (ai_players' : list A) (s : Sim A) :
  simulate_game cfg training h ai_players r = Some (result, ai_players', s) ->
  forall l, l ∈ dom h -> sim_heap s !! l = h !! l.
Proof.
  unfold simulate_game. intros Hsim.
  destruct (initialize_game_state cfg h) as [[h0 state0]|] eqn:Hinit; [|discriminate].
  cbn [mbind option_bind] in Hsim.
  destruct (turn_loop cfg training (seq 0 max_turns) _) as [s1|] eqn:Hloop; [|discriminate].
  cbn [mbind option_bind] in Hsim.
  destruct (sim_heap s1 !! player_scores (sim_state s1)) as [sc|]; [|discriminate].
  cbn [mbind option_bind] in Hsim.
  destruct (sim_heap s1 !! player_resources (sim_state s1)) as [rs|]; [|discriminate].
  cbn [mbind option_bind] in Hsim. injection Hsim as _ _ <-.
  destruct (initialize_game_state_fresh _ _ _ _ Hinit)
    as (Hp & Hr & Hs & _ & _ & _ & Hkeep & _).
  refine (proj2 (proj2 (proj2
            (turn_loop_inv
               (fun s : Sim A =>
                  (player_positions (sim_state s) ∉ dom h)
                  /\ (player_resources (sim_state s) ∉ dom h)
                  /\ (player_scores (sim_state s) ∉ dom h)
                  /\ forall l, l ∈ dom h -> sim_heap s !! l = h !! l)
               (frame_turn h) (fun t s HI => HI) _ _ s1 _ Hloop)))).
  cbn [sim_state sim_heap]. repeat split; assumption.
Qed.

(** What a move keeps of the state. *)
Lemma state_fixed_turn p (s s' : Sim A) :
  (eliminated_players (sim_state s) = []
   /\ can_collect_resource (sim_state s) = false
   /\ can_attack (sim_state s) = false
   /\ genre (sim_state s) = sim_genre cfg
   /\ board_size (sim_state s) = sim_board_size cfg
   /\ track_length (sim_state s) = config_track_length cfg) ->
  player_turn cfg training p s = Some s' ->
  eliminated_players (sim_state s') = []
  /\ can_collect_resource (sim_state s') = false
  /\ can_attack (sim_state s') = false
  /\ genre (sim_state s') = sim_genre cfg
  /\ board_size (sim_state s') = sim_board_size cfg
  /\ track_length (sim_state s') = config_track_length cfg.
Proof.
  intros HI Hturn.
  destruct (player_turn_inv p s s' Hturn)
    as (ai & action & r1 & reward & won & ai' & _ & _ & _ & _ & Hst & _).
  rewrite Hst. destruct won; exact HI.
Qed.

(** X18: The simulator never eliminates a player and never enables collecting
    or attacking: in the final state of every game, whoever plays it, the
    set of eliminated players is empty and neither [can_collect_resource]
    nor [can_attack] is set; genre, board size and track length are those of
    the configuration. *)
Theorem simulate_game_never_eliminates (h : heap) (ai_players : list A) (r : Rng)
    (result : SimulationResult) (ai_players' : list A) (s : Sim A) :
  simulate_game cfg training h ai_players r = Some (result, ai_players', s) ->
  eliminated_players (sim_state s) = []
  /\ can_collect_resource (sim_state s) = false
  /\ can_attack (sim_state s) = false
  /\ genre (sim_state s) = sim_genre cfg
  /\ board_size (sim_state s) = sim_board_size cfg
  /\ track_length (sim_state s) = config_track_length cfg.
Proof.
  unfold simulate_game. intros Hsim.
  destruct (initialize_game_state cfg h) as [[h0 state0]|] eqn:Hinit; [|discriminate].
  cbn [mbind option_bind] in Hsim.
  destruct (turn_loop cfg training (seq 0 max_turns) _) as [s1|] eqn:Hloop; [|discriminate].
  cbn [mbind option_bind] in Hsim.
  destruct (sim_heap s1 !! player_scores (sim_state s1)) as [sc|]; [|discriminate].
  cbn [mbind option_bind] in Hsim.
  destruct (sim_heap s1 !! player_resources (sim_state s1)) as [rs|]; [|discriminate].
  cbn [mbind option_bind] in Hsim. injection Hsim as _ _ <-.
  refine (turn_loop_inv
            (fun s : Sim A =>
               eliminated_players (sim_state s) = []
               /\ can_collect_resource (sim_state s) = false
               /\ can_attack (sim_state s) = false
               /\ genre (sim_state s) = sim_genre cfg
               /\ board_size (sim_state s) = sim_board_size cfg
               /\ track_length (sim_state s) = config_track_length cfg)
            state_fixed_turn (fun t s HI => HI) _ _ s1 _ Hloop).
  cbn [sim_state]. unfold initialize_game_state in Hinit.
  destruct (_initialize_board cfg); [|discriminate].
  cbn [mbind option_bind] in Hinit. injection Hinit as _ <-. repeat split.
Qed.

(** In a racing game the executor's finish bonus and the win test agree:
    both look at whether the new position is the track end. *)
Lemma racing_action_check (h h' : heap) (st : GameState) p action (r r' : Rng)
    (reward : Q) :
  default "position_or_elimination" (cfg_win_type cfg) = "race_finish" ->
  _execute_racing_action cfg h st p action r = Some (h', reward, r') ->
  exists (p0 movement : Z),
    read h (player_positions st) p = Some (VInt p0)
    /\ (if decide (action = "move_right" \/ action = "move_down")
        then default 2 (cfg_base_movement cfg) <= movement
             <= default 2 (cfg_base_movement cfg) + 2
             /\ (default false (cfg_dice_modifier cfg) = false ->
                 movement = default 2 (cfg_base_movement cfg))
        else movement = 0)
    /\ _check_win_condition cfg h' st p
       = Some (config_track_length cfg - 1 <=? p0 + movement)%Z
    /\ reward = (if (config_track_length cfg - 1 <=? p0 + movement)%Z
                 then inject_Z movement * (5 # 10) + 100
                 else inject_Z movement * (5 # 10))%Q.
Proof.
  intros Htype. unfold _execute_racing_action.
  destruct (read h (player_positions st) p) as [[z|x y]|]; cbn [mbind option_bind];
    try discriminate.
  - set (L := config_track_length cfg).
    assert (Hgen : forall (movement : Z) (r2 : Rng),
               (h1 ← write h (player_positions st) p (VInt (Z.min (z + movement) (L - 1)));
                h2 ← write h1 (player_scores st) p (VInt (Z.min (z + movement) (L - 1)));
                Some (h2,
                      if (L - 1 <=? Z.min (z + movement) (L - 1))%Z
                      then (inject_Z movement * (5 # 10) + 100)%Q
                      else (inject_Z movement * (5 # 10))%Q, r2))
               = Some (h', reward, r') ->
               _check_win_condition cfg h' st p = Some (L - 1 <=? z + movement)%Z
               /\ reward = (if (L - 1 <=? z + movement)%Z
                            then inject_Z movement * (5 # 10) + 100
                            else inject_Z movement * (5 # 10))%Q).
    { intros movement r2.
      assert (Hend : (L - 1 <=? Z.min (z + movement) (L - 1))%Z
                     = (L - 1 <=? z + movement)%Z).
      { destruct (Z.leb_spec (L - 1) (z + movement));
          [apply Z.leb_le | apply Z.leb_gt]; lia. }
      destruct (write h (player_positions st) p _) as [h1|] eqn:Hw1; [|discriminate].
      cbn [mbind option_bind].
      destruct (write h1 (player_scores st) p _) as [h2|] eqn:Hw2; [|discriminate].
      cbn [mbind option_bind]. intros [= <- <- <-].
      rewrite Hend. split; [|reflexivity].
      unfold _check_win_condition. rewrite Htype. rewrite decide_True by reflexivity.
      assert (Hread : read h2 (player_positions st) p
                      = Some (VInt (Z.min (z + movement) (L - 1)))).
      { destruct (decide (player_positions st = player_scores st)) as [E|E].
        - rewrite E. apply (read_write_eq _ _ _ _ _ Hw2).
        - rewrite (read_write_ne _ _ _ _ _ _ _ Hw2) by congruence.
          apply (read_write_eq _ _ _ _ _ Hw1). }
      rewrite Hread. cbn [mbind option_bind]. fold L. rewrite Hend. reflexivity. }
    destruct (decide (action = "move_right" \/ action = "move_down")) as [Hact|Hact].
    + destruct (default false (cfg_dice_modifier cfg)) eqn:Hdice.
      * pose proof (random_randint_bounds 0 2 r ltac:(lia)) as Hd.
        destruct (random_randint 0 2 r) as [d r2]. cbn [fst] in Hd.
        intros Hrun. destruct (Hgen _ _ Hrun) as [Hc Hrew].
        exists z, (default 2 (cfg_base_movement cfg) + d).
        split; [reflexivity|]. split; [split; [lia | discriminate]|].
        split; [exact Hc | exact Hrew].
      * intros Hrun. destruct (Hgen _ _ Hrun) as [Hc Hrew].
        exists z, (default 2 (cfg_base_movement cfg)).
        split; [reflexivity|]. split; [split; [lia | reflexivity]|].
        split; [exact Hc | exact Hrew].
    + intros Hrun. destruct (Hgen _ _ Hrun) as [Hc Hrew].
      exists z, 0. split; [reflexivity|]. split; [reflexivity|].
      split; [exact Hc | exact Hrew].
  - destruct (if decide (action = "move_right" \/ action = "move_down") then _ else _)
      as [movement r2]. discriminate.
Qed.

Lemma racing_turn_calls p (s s' : Sim A) :
  sim_genre cfg = "racing" ->
  default "position_or_elimination" (cfg_win_type cfg) = "race_finish" ->
  Forall (racing_update cfg) (sim_calls s) ->
  player_turn cfg training p s = Some s' ->
  Forall (racing_update cfg) (sim_calls s').
Proof.
  intros Hgenre Htype Hok Hturn.
  destruct (player_turn_inv p s s' Hturn)
    as (ai & action & r1 & reward & won & ai' & _ & _ & Hex & Hwon & _ & _ & _ & Hcalls).
  rewrite Hcalls. destruct training; [|exact Hok].
  apply Forall_app. split; [exact Hok|]. constructor; [|constructor].
  unfold racing_update.
  cbn [call_reward call_done call_heap_before call_state call_player call_action].
  unfold _execute_action in Hex. rewrite copy_eq in Hex.
  rewrite decide_True in Hex by exact Hgenre.
  destruct (_execute_racing_action cfg (sim_heap s) (sim_state s) p action r1)
    as [[[h1 rw] r2]|] eqn:Hrun; [|discriminate].
  cbn [mbind option_bind] in Hex. injection Hex as Hh <- Hr.
  rewrite <- Hh in Hwon.
  destruct (racing_action_check _ _ _ _ _ _ _ _ Htype Hrun)
    as (p0 & movement & Hp0 & Hrange & Hc & ->).
  rewrite Hc in Hwon. injection Hwon as <-.
  exists p0, movement. split; [exact Hp0|]. split; [exact Hrange|].
  split; [reflexivity|].
  destruct (config_track_length cfg - 1 <=? p0 + movement)%Z; ring.
Qed.

(** X19: In a racing game won by reaching the finish, the finish bonus is
    paid twice.  At every training update the player stood on a scalar
    position; the movement is 0 for an action that is no move and from the
    base movement to the base movement plus 2 for a move (the base movement
    itself without dice); the update is terminal exactly when position plus
    movement reaches the track end; and the reward passed is half the
    movement minus 0.01, plus 200 when the update is terminal: 100 from
    [_execute_racing_action] and 100 from [simulate_game]. *)
Theorem racing_finish_rewarded_twice (h : heap) (ai_players : list A) (r : Rng)
    (result : SimulationResult) (ai_players' : list A) (s : Sim A) :
  sim_genre cfg = "racing" ->
  default "position_or_elimination" (cfg_win_type cfg) = "race_finish" ->
  simulate_game cfg training h ai_players r = Some (result, ai_players', s) ->
  Forall (fun c =>
            exists p0 movement : Z,
              read (call_heap_before c) (player_positions (call_state c)) (call_player c)
              = Some (VInt p0)
              /\ (if decide (call_action c = "move_right" \/ call_action c = "move_down")
                  then default 2 (cfg_base_movement cfg) <= movement
                       <= default 2 (cfg_base_movement cfg) + 2
                       /\ (default false (cfg_dice_modifier cfg) = false ->
                           movement = default 2 (cfg_base_movement cfg))
                  else movement = 0)
              /\ call_done c = (config_track_length cfg - 1 <=? p0 + movement)%Z
              /\ (call_reward c == inject_Z movement * (5 # 10) - (1 # 100)
                                   + (if call_done c then 200 else 0))%Q)
         (sim_calls s).
Proof.
  intros Hgenre Htype. unfold simulate_game. intros Hsim.
  destruct (initialize_game_state cfg h) as [[h0 state0]|]; [|discriminate].
  cbn [mbind option_bind] in Hsim.
  destruct (turn_loop cfg training (seq 0 max_turns) _) as [s1|] eqn:Hloop; [|discriminate].
  cbn [mbind option_bind] in Hsim.
  destruct (sim_heap s1 !! player_scores (sim_state s1)) as [sc|]; [|discriminate].
  cbn [mbind option_bind] in Hsim.
  destruct (sim_heap s1 !! player_resources (sim_state s1)) as [rs|]; [|discriminate].
  cbn [mbind option_bind] in Hsim. injection Hsim as _ _ <-.
  assert (Hok : Forall (racing_update cfg) (sim_calls s1)).
  { refine (turn_loop_inv
              (fun s : Sim A => Forall (racing_update cfg) (sim_calls s))
              (fun p s s' HI Ht => racing_turn_calls p s s' Hgenre Htype HI Ht)
              (fun t s HI => HI) _ _ s1 _ Hloop).
    cbn [sim_calls]. constructor. }
  eapply Forall_impl; [exact Hok|]. intros c Hc. exact Hc.
Qed.

End Play.

Lemma simulate_game_outcome_witness :
  exists result ai_players' s,
    simulate_game racing_config false ∅ [racer; racer] zero_tape
    = Some (result, ai_players', s)
    /\ res_winner result = Some 0%nat
    /\ res_turns result = 14
    /\ _check_win_condition racing_config (sim_heap s) (sim_state s) 0%nat = Some true.
Proof.
  destruct (simulate_game racing_config false ∅ [racer; racer] zero_tape)
    as [[[result ai_players'] s]|] eqn:Hsim.
  - exists result, ai_players', s. split; [reflexivity|].
    pose proof (simulate_game_outcome racing_config false _ _ _ _ _ _ Hsim)
      as (_ & _ & Hwin & _).
    assert (Hres : res_winner result = Some 0%nat /\ res_turns result = 14).
    { vm_compute in Hsim. injection Hsim as <- _ _. split; reflexivity. }
    destruct Hres as [Hw Ht]. rewrite Hw in Hwin.
    split; [exact Hw|]. split; [exact Ht|]. apply Hwin.
  - vm_compute in Hsim. discriminate Hsim.
Defined.

Lemma simulate_game_frame_witness :
  exists result ai_players' s,
    simulate_game racing_config false initial_heap [racer; racer] zero_tape
    = Some (result, ai_players', s)
    /\ sim_heap s !! 2%nat = Some [(0%nat, VInt 0); (1%nat, VInt 0)]
    /\ player_scores (sim_state s) = 5%nat
    /\ res_final_scores result = [(0%nat, VInt 29); (1%nat, VInt 28)].
Proof.
  destruct (simulate_game racing_config false initial_heap [racer; racer] zero_tape)
    as [[[result ai_players'] s]|] eqn:Hsim;
    [|vm_compute in Hsim; discriminate Hsim].
  exists result, ai_players', s. split; [reflexivity|].
  split.
  - assert (Hdom : 2%nat ∈ dom initial_heap) by by_decide.
    exact (simulate_game_frame racing_config false _ _ _ _ _ _ Hsim 2%nat Hdom).
  - vm_compute in Hsim. injection Hsim as <- _ <-. split; reflexivity.
Defined.

Lemma simulate_game_never_eliminates_witness :
  exists result ai_players' s,
    simulate_game racing_config true ∅ [racer; racer] zero_tape
    = Some (result, ai_players', s)
    /\ eliminated_players (sim_state s) = []
    /\ can_collect_resource (sim_state s) = false.
Proof.
  destruct (simulate_game racing_config true ∅ [racer; racer] zero_tape)
    as [[[result ai_players'] s]|] eqn:Hsim;
    [|vm_compute in Hsim; discriminate Hsim].
  exists result, ai_players', s. split; [reflexivity|].
  destruct (simulate_game_never_eliminates racing_config true _ _ _ _ _ _ Hsim)
    as (Hel & Hcol & _).
  split; [exact Hel | exact Hcol].
Defined.

Lemma racing_finish_rewarded_twice_witness :
  sim_genre racing_config = "racing"
  /\ default "position_or_elimination" (cfg_win_type racing_config) = "race_finish"
  /\ exists result ai_players' s c,
       simulate_game racing_config true ∅ [racer; racer] zero_tape
       = Some (result, ai_players', s)
       /\ last (sim_calls s) = Some c
       /\ call_done c = true
       /\ (call_reward c == 20099 # 100)%Q
       /\ Forall (fun c =>
            exists p0 movement : Z,
              read (call_heap_before c) (player_positions (call_state c)) (call_player c)
              = Some (VInt p0)
              /\ (if decide (call_action c = "move_right" \/ call_action c = "move_down")
                  then default 2 (cfg_base_movement racing_config) <= movement
                       <= default 2 (cfg_base_movement racing_config) + 2
                       /\ (default false (cfg_dice_modifier racing_config) = false ->
                           movement = default 2 (cfg_base_movement racing_config))
                  else movement = 0)
              /\ call_done c
                 = (config_track_length racing_config - 1 <=? p0 + movement)%Z
              /\ (call_reward c == inject_Z movement * (5 # 10) - (1 # 100)
                                   + (if call_done c then 200 else 0))%Q)
           (sim_calls s).
Proof.
  assert (Hgenre : sim_genre racing_config = "racing") by reflexivity.
  assert (Htype : default "position_or_elimination" (cfg_win_type racing_config)
                  = "race_finish") by reflexivity.
  split; [exact Hgenre|]. split; [exact Htype|].
  destruct (simulate_game racing_config true ∅ [racer; racer] zero_tape)
    as [[[result ai_players'] s]|] eqn:Hsim;
    [|vm_compute in Hsim; discriminate Hsim].
  pose proof (racing_finish_rewarded_twice racing_config true _ _ _ _ _ _
                Hgenre Htype Hsim) as Hall.
  destruct (last (sim_calls s)) as [c|] eqn:Hlast.
  - exists result, ai_players', s, c. split; [reflexivity|]. split; [exact Hlast|].
    assert (Hc : call_done c = true /\ (call_reward c == 20099 # 100)%Q).
    { vm_compute in Hsim. injection Hsim as _ _ <-.
      vm_compute in Hlast. injection Hlast as <-. split; reflexivity. }
    destruct Hc as [Hdone Hrew]. split; [exact Hdone|]. split; [exact Hrew | exact Hall].
  - exfalso. vm_compute in Hsim. injection Hsim as _ _ <-. discriminate Hlast.
Defined.

(** ** Games played by the Q-learning agents *)

Section QLearningPlay.
Variable cfg : GameConfig.
Variable training : bool.

(** What the loop keeps as long as nobody collects: the resource dict is
    the one the game started with. *)
Lemma no_collect_turn p (s s' : Sim QLearningPlayer) :
  (can_collect_resource (sim_state s) = false
   /\ player_resources (sim_state s) <> player_positions (sim_state s)
   /\ player_resources (sim_state s) <> player_scores (sim_state s)
   /\ sim_heap s !! player_resources (sim_state s) = Some (no_resources cfg)) ->
  player_turn cfg training p s = Some s' ->
  can_collect_resource (sim_state s') = false
  /\ player_resources (sim_state s') <> player_positions (sim_state s')
  /\ player_resources (sim_state s') <> player_scores (sim_state s')
  /\ sim_heap s' !! player_resources (sim_state s') = Some (no_resources cfg).
Proof.
  intros (Hno & Hrp & Hrs & Hres) Hturn.
  destruct (player_turn_inv cfg training p s s' Hturn)
    as (ai & action & r1 & reward & won & ai' & _ & Hch & Hex & _ & Hst & _).
  cbn [player_choose_action QLearningPlayer_AIPlayer] in Hch.
  destruct (choose_action_in _ _ _ _ _ _ _ Hch) as (acts & Hacts & Hin).
  assert (Hcollect : action <> "collect").
  { intros ->. exact (get_valid_actions_no_collect _ _ _ _ Hacts Hno Hin). }
  pose proof (execute_action_frame _ _ _ _ _ _ _ _ _ _ _
                (player_resources (sim_state s)) Hex Hrp Hrs
                (fun E => False_ind _ (Hcollect E))) as Hframe.
  assert (Hfields : can_collect_resource (sim_state s') = can_collect_resource (sim_state s)
                    /\ player_resources (sim_state s') = player_resources (sim_state s)
                    /\ player_positions (sim_state s') = player_positions (sim_state s)
                    /\ player_scores (sim_state s') = player_scores (sim_state s))
    by (rewrite Hst; destruct won; repeat split).
  destruct Hfields as (-> & -> & -> & ->).
  rewrite Hframe. repeat split; assumption.
Qed.

Lemma no_collect_game (h : heap) (ai_players : list QLearningPlayer) (r : Rng)
    (result : SimulationResult) (ai_players' : list QLearningPlayer)
    (s : Sim QLearningPlayer) :
  simulate_game cfg training h ai_players r = Some (result, ai_players', s) ->
  sim_heap s !! player_resources (sim_state s) = Some (no_resources cfg)
  /\ res_final_resources result = no_resources cfg
  /\ (res_winner result = None /\ res_turns result = 99
      \/ exists p, res_winner result = Some p
                   /\ _check_win_condition cfg (sim_heap s) (sim_state s) p = Some true).
Proof.
  intros Hsim.
  pose proof (simulate_game_outcome_aux cfg training _ _ _ _ _ _ Hsim) as Hout.
  unfold simulate_game in Hsim.
  destruct (initialize_game_state cfg h) as [[h0 state0]|] eqn:Hinit; [|discriminate].
  cbn [mbind option_bind] in Hsim.
  destruct (turn_loop cfg training (seq 0 max_turns) _) as [s1|] eqn:Hloop; [|discriminate].
  cbn [mbind option_bind] in Hsim.
  destruct (sim_heap s1 !! player_scores (sim_state s1)) as [sc|] eqn:Hsc; [|discriminate].
  cbn [mbind option_bind] in Hsim.
  destruct (sim_heap s1 !! player_resources (sim_state s1)) as [rs|] eqn:Hrs;
    [|discriminate].
  cbn [mbind option_bind] in Hsim. injection Hsim as <- _ <-.
  cbn [res_final_resources res_winner res_turns] in *.
  destruct (initialize_game_state_fresh _ _ _ _ Hinit)
    as (_ & _ & _ & Hrp & _ & Hrsc & _ & _ & _ & Hno).
  destruct (initialize_game_state_dicts _ _ _ _ Hinit) as (_ & Hres0 & _).
  assert (Hend : can_collect_resource (sim_state s1) = false
                 /\ player_resources (sim_state s1) <> player_positions (sim_state s1)
                 /\ player_resources (sim_state s1) <> player_scores (sim_state s1)
                 /\ sim_heap s1 !! player_resources (sim_state s1)
                    = Some (no_resources cfg)).
  { refine (turn_loop_inv cfg training
              (fun s : Sim QLearningPlayer =>
                 can_collect_resource (sim_state s) = false
                 /\ player_resources (sim_state s) <> player_positions (sim_state s)
                 /\ player_resources (sim_state s) <> player_scores (sim_state s)
                 /\ sim_heap s !! player_resources (sim_state s)
                    = Some (no_resources cfg))
              no_collect_turn (fun t s HI => HI) _ _ s1 _ Hloop).
    cbn [sim_state sim_heap]. repeat split; assumption. }
  destruct Hend as (_ & _ & _ & Hend).
  split; [exact Hend|]. split; [congruence|]. exact Hout.
Qed.

(** X20: The Q-learning agents never collect: [get_valid_actions] offers
    [collect] only in a state with the key [can_collect_resource], and no
    state of the simulator has it.  So in every game they play, whatever the
    genre and with or without training, the reported resources are 0 for
    every player. *)
Theorem simulate_game_resources_stay_zero (h : heap)
    (ai_players : list QLearningPlayer) (r : Rng) (result : SimulationResult)
    (ai_players' : list QLearningPlayer) (s : Sim QLearningPlayer) :
  simulate_game cfg training h ai_players r = Some (result, ai_players', s) ->
  res_final_resources result
  = PyDict.comprehension id (fun _ => VInt 0) (players cfg)
  /\ forall p v, PyDict.get p (res_final_resources result) = Some v -> v = VInt 0.
Proof.
  intros Hsim. destruct (no_collect_game _ _ _ _ _ _ Hsim) as (_ & Hres & _).
  split; [exact Hres|]. intros p v. rewrite Hres. unfold no_resources.
  rewrite get_comprehension_id. destruct (decide (p ∈ players cfg)); congruence.
Qed.

(** X21: A game won by collecting resources, with a positive target, is never
    won by Q-learning agents: every game they finish reports no winner and
    turn 99. *)
Theorem resource_collection_never_won (h : heap)
    (ai_players : list QLearningPlayer) (r : Rng) (result : SimulationResult)
    (ai_players' : list QLearningPlayer) (s : Sim QLearningPlayer) :
  default "position_or_elimination" (cfg_win_type cfg) = "resource_collection" ->
  0 < default 50 (cfg_target_resources cfg) ->
  simulate_game cfg training h ai_players r = Some (result, ai_players', s) ->
  res_winner result = None /\ res_turns result = 99.
Proof.
  intros Htype Htarget Hsim.
  destruct (no_collect_game _ _ _ _ _ _ Hsim) as (Hheap & _ & [Hnone|(p & _ & Hcheck)]);
    [exact Hnone|].
  exfalso. unfold _check_win_condition in Hcheck. rewrite Htype in Hcheck.
  rewrite decide_False in Hcheck by discriminate.
  rewrite decide_True in Hcheck by reflexivity.
  unfold read in Hcheck. rewrite Hheap in Hcheck. cbn [mbind option_bind] in Hcheck.
  unfold no_resources in Hcheck. rewrite get_comprehension_id in Hcheck.
  destruct (decide (p ∈ players cfg)); [|discriminate].
  cbn [mbind option_bind] in Hcheck. injection Hcheck as Hle.
  apply Z.leb_le in Hle. lia.
Qed.

(** What a game keeps of an agent while it is played. *)
Lemma kept_in_play_turn (ps : list QLearningPlayer) p (s s' : Sim QLearningPlayer) :
  (length (sim_players s) = length ps
   /\ forall i a a', ps !! i = Some a -> sim_players s !! i = Some a' ->
                     kept_in_play training a a') ->
  player_turn cfg training p s = Some s' ->
  length (sim_players s') = length ps
  /\ forall i a a', ps !! i = Some a -> sim_players s' !! i = Some a' ->
                    kept_in_play training a a'.
Proof.
  intros [Hlen Hkept] Hturn.
  destruct (player_turn_inv cfg training p s s' Hturn)
    as (ai & action & r1 & reward & won & ai' & Hai & _ & _ & _ & _ & Hup & Hps & _).
  rewrite Hps. split; [rewrite length_insert; exact Hlen|].
  intros i a a' Ha Ha'.
  destruct (decide (p = i)) as [->|Hne].
  - rewrite list_lookup_insert_eq in Ha' by (eapply lookup_lt_Some; exact Hai).
    injection Ha' as <-.
    specialize (Hkept i a ai Ha Hai).
    destruct training.
    + cbn [player_update_q_value QLearningPlayer_AIPlayer] in Hup.
      unfold update_q_value in Hup.
      destruct (target_q _ _ _ _ _) as [tq|]; [|discriminate].
      cbn [mbind option_bind] in Hup. injection Hup as <-.
      destruct Hkept as (H1 & H2 & H3 & H4 & H5 & H6 & _).
      repeat split; try assumption. discriminate.
    + subst ai'. exact Hkept.
  - rewrite list_lookup_insert_ne in Ha' by exact Hne. exact (Hkept i a a' Ha Ha').
Qed.

(** X22: What one game does to each agent: one more game played, one more win
    for the reported winner and for nobody else, epsilon decayed once when
    training and untouched otherwise; identity and learning parameters are
    kept, and outside training so are the value table and the total
    reward. *)
Theorem simulate_game_records (h : heap) (ai_players : list QLearningPlayer)
    (r : Rng) (result : SimulationResult) (ai_players' : list QLearningPlayer)
    (s : Sim QLearningPlayer) :
  simulate_game cfg training h ai_players r = Some (result, ai_players', s) ->
  length ai_players' = length ai_players
  /\ forall i a, ai_players !! i = Some a ->
       exists a', ai_players' !! i = Some a'
         /\ player_id a' = player_id a
         /\ learning_rate a' = learning_rate a
         /\ discount_factor a' = discount_factor a
         /\ games_played a' = games_played a + 1
         /\ wins a' = wins a + (if bool_decide (res_winner result = Some i) then 1 else 0)
         /\ epsilon a' = (if training then Qmax (1 # 100) (epsilon a * (995 # 1000))
                          else epsilon a)
         /\ (training = false ->
             q_table a' = q_table a /\ total_reward a' = total_reward a).
Proof.
  unfold simulate_game. intros Hsim.
  destruct (initialize_game_state cfg h) as [[h0 state0]|]; [|discriminate].
  cbn [mbind option_bind] in Hsim.
  destruct (turn_loop cfg training (seq 0 max_turns) _) as [s1|] eqn:Hloop; [|discriminate].
  cbn [mbind option_bind] in Hsim.
  destruct (sim_heap s1 !! player_scores (sim_state s1)) as [sc|]; [|discriminate].
  cbn [mbind option_bind] in Hsim.
  destruct (sim_heap s1 !! player_resources (sim_state s1)) as [rs|]; [|discriminate].
  cbn [mbind option_bind] in Hsim. injection Hsim as <- <- <-.
  cbn [res_winner].
  assert (Hend : length (sim_players s1) = length ai_players
                 /\ forall i a a', ai_players !! i = Some a ->
                      sim_players s1 !! i = Some a' -> kept_in_play training a a').
  { refine (turn_loop_inv cfg training
              (fun s : Sim QLearningPlayer =>
                 length (sim_players s) = length ai_players
                 /\ forall i a a', ai_players !! i = Some a ->
                      sim_players s !! i = Some a' -> kept_in_play training a a')
              (kept_in_play_turn ai_players) (fun t s HI => HI) _ _ s1 _ Hloop).
    cbn [sim_players]. split; [reflexivity|].
    intros i a a' Ha Ha'. rewrite Ha in Ha'. injection Ha' as <-.
    repeat split. }
  destruct Hend as [Hlen Hkept].
  unfold record_results. split; [rewrite length_imap; exact Hlen|].
  intros i a Ha.
  destruct (lookup_lt_is_Some_2 (sim_players s1) i) as [a1 Ha1].
  { rewrite Hlen. eapply lookup_lt_Some. exact Ha. }
  destruct (Hkept i a a1 Ha Ha1) as (H1 & H2 & H3 & H4 & H5 & H6 & H7).
  rewrite list_lookup_imap, Ha1. cbn [fmap option_fmap option_map].
  eexists. split; [reflexivity|].
  cbn [player_record_game_result player_decay_epsilon QLearningPlayer_AIPlayer].
  destruct training.
  - unfold decay_epsilon_default, decay_epsilon, record_game_result.
    cbn [player_id learning_rate discount_factor games_played wins epsilon
         with_epsilon with_stats].
    rewrite H1, H2, H3, H4, H5, H6.
    repeat split; try reflexivity.
    + destruct (bool_decide _); lia.
    + discriminate.
    + discriminate.
  - unfold record_game_result.
    cbn [player_id learning_rate discount_factor games_played wins epsilon
         q_table total_reward with_stats].
    rewrite (H7 eq_refl).
    repeat split; try reflexivity.
    destruct (bool_decide _); lia.
Qed.

(** With several pieces per player every starting position is a grid
    cell. *)
Lemma initial_position_several_pieces p :
  default 1 (cfg_pieces_per_player cfg) <> 1 ->
  exists x y, initial_position cfg p = VTuple x y.
Proof.
  intros Hpieces. unfold initial_position. rewrite decide_False by exact Hpieces.
  unfold _get_starting_position.
  destruct (corners cfg !! _) as [[x y]|]; eexists _, _; reflexivity.
Qed.

(** X29: A racing game with several pieces per player cannot be played by the
    Q-learning agents.  [initialize_game_state] then puts every player on a
    corner of the grid, and on a grid cell in a racing state
    [get_valid_actions] compares a tuple with the track length, a
    [TypeError]: with at least one player, [simulate_game] raises in the
    first move, whoever the agents are and with or without training. *)
Theorem racing_with_several_pieces_fails (h : heap)
    (ai_players : list QLearningPlayer) (r : Rng) :
  sim_genre cfg = "racing" ->
  default 1 (cfg_pieces_per_player cfg) <> 1 ->
  1 <= sim_num_players cfg ->
  simulate_game cfg training h ai_players r = None
  /\ forall h' state p,
       initialize_game_state cfg h = Some (h', state) -> p ∈ players cfg ->
       (exists x y, read h' (player_positions state) p = Some (VTuple x y))
       /\ forall a : QLearningPlayer, get_valid_actions a h' state = None.
Proof.
  intros Hgenre Hpieces Hn.
  assert (Hstates : forall h' state,
             initialize_game_state cfg h = Some (h', state) ->
             (forall p, p ∈ players cfg ->
                exists x y, read h' (player_positions state) p = Some (VTuple x y))
             /\ forall (a : QLearningPlayer) t,
                  get_valid_actions a h' (set_turn t state) = None).
  { intros h' state Hinit.
    destruct (initialize_game_state_dicts _ _ _ _ Hinit) as (Hpos & _ & _).
    assert (Hstate : genre state = "racing").
    { unfold initialize_game_state in Hinit.
      destruct (_initialize_board cfg); [|discriminate].
      cbn [mbind option_bind] in Hinit. injection Hinit as _ <-. exact Hgenre. }
    split.
    - intros p Hp. unfold read. rewrite Hpos. cbn [mbind option_bind].
      rewrite get_comprehension_id, decide_True by exact Hp.
      destruct (initial_position_several_pieces p Hpieces) as (x & y & ->).
      exists x, y. reflexivity.
    - intros a t. unfold get_valid_actions, read_default.
      cbn [player_positions set_turn genre].
      assert (E : default [] (h' !! player_positions state)
                  = PyDict.comprehension id (initial_position cfg) (players cfg))
        by exact (f_equal (default []) Hpos).
      rewrite E, get_comprehension_id.
      destruct (decide (player_id a ∈ players cfg)) as [Hin|Hout].
      + destruct (initial_position_several_pieces (player_id a) Hpieces) as (x & y & ->).
        cbn [from_option id]. rewrite decide_True by exact Hstate. reflexivity.
      + cbn [from_option id]. rewrite decide_True by exact Hstate. reflexivity. }
  split.
  - unfold simulate_game.
    destruct (initialize_game_state cfg h) as [[h0 state0]|] eqn:Hinit; [|reflexivity].
    cbn [mbind option_bind].
    destruct (Hstates h0 state0 eq_refl) as [_ Hnone].
    assert (Hel : eliminated_players state0 = []).
    { unfold initialize_game_state in Hinit.
      destruct (_initialize_board cfg); [|discriminate].
      cbn [mbind option_bind] in Hinit. injection Hinit as _ <-. reflexivity. }
    assert (Hplayers : exists rest, players cfg = 0%nat :: rest).
    { unfold players. destruct (Z.to_nat (sim_num_players cfg)) as [|n] eqn:E; [lia|].
      eexists. reflexivity. }
    destruct Hplayers as [rest Hrest].
    change (seq 0 max_turns) with (0%nat :: seq 1 99). cbn [turn_loop].
    rewrite Hrest. cbn [player_loop with_state sim_state].
    rewrite decide_False
      by (cbn [set_turn eliminated_players]; rewrite Hel; apply not_elem_of_nil).
    unfold player_turn. cbn [with_state sim_players sim_heap sim_state sim_rng].
    destruct (ai_players !! 0%nat) as [ai|]; [|reflexivity].
    cbn [mbind option_bind player_choose_action QLearningPlayer_AIPlayer].
    unfold choose_action. rewrite (Hnone ai). reflexivity.
  - intros h' state p Hinit Hp. destruct (Hstates h' state Hinit) as [Hcells Hnone].
    split; [exact (Hcells p Hp)|].
    intros a. specialize (Hnone a (turn state)).
    replace (set_turn (turn state) state) with state in Hnone
      by (destruct state; reflexivity).
    exact Hnone.
Qed.

End QLearningPlay.

Lemma simulate_game_resources_stay_zero_witness :
  exists result ai_players' s,
    simulate_game empty_config false ∅ [new_player 0; new_player 1] zero_tape
    = Some (result, ai_players', s)
    /\ res_final_resources result = [(0%nat, VInt 0); (1%nat, VInt 0)].
Proof.
  destruct (simulate_game empty_config false ∅ [new_player 0; new_player 1] zero_tape)
    as [[[result ai_players'] s]|] eqn:Hsim;
    [|vm_compute in Hsim; discriminate Hsim].
  exists result, ai_players', s. split; [reflexivity|].
  exact (proj1 (simulate_game_resources_stay_zero empty_config false _ _ _ _ _ _ Hsim)).
Defined.

Lemma resource_collection_never_won_witness :
  default "position_or_elimination" (cfg_win_type resource_duel_config)
  = "resource_collection"
  /\ 0 < default 50 (cfg_target_resources resource_duel_config)
  /\ exists result ai_players' s,
       simulate_game resource_duel_config false ∅ [new_player 0; new_player 1] zero_tape
       = Some (result, ai_players', s)
       /\ res_winner result = None /\ res_turns result = 99.
Proof.
  assert (Htype : default "position_or_elimination" (cfg_win_type resource_duel_config)
                  = "resource_collection") by reflexivity.
  assert (Htarget : 0 < default 50 (cfg_target_resources resource_duel_config))
    by reflexivity.
  split; [exact Htype|]. split; [exact Htarget|].
  destruct (simulate_game resource_duel_config false ∅ [new_player 0; new_player 1]
              zero_tape) as [[[result ai_players'] s]|] eqn:Hsim;
    [|vm_compute in Hsim; discriminate Hsim].
  exists result, ai_players', s. split; [reflexivity|].
  exact (resource_collection_never_won resource_duel_config false _ _ _ _ _ _
           Htype Htarget Hsim).
Defined.

Lemma simulate_game_records_witness :
  exists result ai_players' s a',
    simulate_game racing_config false ∅ [new_player 0; new_player 1] zero_tape
    = Some (result, ai_players', s)
    /\ res_winner result = Some 0%nat
    /\ ai_players' !! 0%nat = Some a'
    /\ games_played a' = 0 + 1 /\ wins a' = 0 + 1
    /\ q_table a' = [].
Proof.
  destruct (simulate_game racing_config false ∅ [new_player 0; new_player 1] zero_tape)
    as [[[result ai_players'] s]|] eqn:Hsim;
    [|vm_compute in Hsim; discriminate Hsim].
  destruct (simulate_game_records racing_config false _ _ _ _ _ _ Hsim) as [_ Hrec].
  destruct (Hrec 0%nat (new_player 0) eq_refl)
    as (a' & Ha' & _ & _ & _ & Hg & Hw & _ & Hkeep).
  assert (Hwin : res_winner result = Some 0%nat).
  { vm_compute in Hsim. injection Hsim as <- _ _. reflexivity. }
  rewrite Hwin in Hw.
  exists result, ai_players', s, a'. split; [reflexivity|]. split; [exact Hwin|].
  split; [exact Ha'|]. split; [exact Hg|]. split; [exact Hw|].
  exact (proj1 (Hkeep eq_refl)).
Defined.

Lemma racing_with_several_pieces_fails_witness :
  sim_genre racing_pieces_config = "racing"
  /\ default 1 (cfg_pieces_per_player racing_pieces_config) <> 1
  /\ 1 <= sim_num_players racing_pieces_config
  /\ simulate_game racing_pieces_config true ∅ [new_player 0; new_player 1] zero_tape
     = None
  /\ exists h' state,
       initialize_game_state racing_pieces_config ∅ = Some (h', state)
       /\ read h' (player_positions state) 1%nat = Some (VTuple 0 7).
Proof.
  assert (Hgenre : sim_genre racing_pieces_config = "racing") by reflexivity.
  assert (Hpieces : default 1 (cfg_pieces_per_player racing_pieces_config) <> 1)
    by discriminate.
  assert (Hn : 1 <= sim_num_players racing_pieces_config) by (vm_compute; discriminate).
  split; [exact Hgenre|]. split; [exact Hpieces|]. split; [exact Hn|].
  split.
  - exact (proj1 (racing_with_several_pieces_fails racing_pieces_config true ∅
                    [new_player 0; new_player 1] zero_tape Hgenre Hpieces Hn)).
  - destruct (initialize_game_state racing_pieces_config ∅) as [[h' state]|] eqn:Hinit;
      [|vm_compute in Hinit; discriminate Hinit].
    exists h', state. split; [reflexivity|].
    vm_compute in Hinit. injection Hinit as <- <-. reflexivity.
Defined.

(** ** The balance analyzer *)

Section Distribution.
Local Open Scope Q_scope.

Lemma list_sum_indicator (x a k : nat) :
  list_sum (map (fun p => if Nat.eq_dec x p then 1%nat else 0%nat) (seq a k))
  = if decide (a <= x < a + k)%nat then 1%nat else 0%nat.
Proof.
  revert a. induction k as [|k IH]; intros a; cbn [seq map list_sum foldr].
  - rewrite decide_False by lia. reflexivity.
  - change (foldr Nat.add 0%nat ?l) with (list_sum l). rewrite IH.
    destruct (Nat.eq_dec x a) as [->|Hne].
    + rewrite decide_False by lia. rewrite decide_True by lia. reflexivity.
    + destruct (decide (S a <= x < S a + k)%nat).
      * rewrite decide_True by lia. reflexivity.
      * rewrite decide_False by lia. reflexivity.
Qed.

Lemma list_sum_map_add {A : Type} (f g : A -> nat) (l : list A) :
  list_sum (map (fun x => (f x + g x)%nat) l)
  = (list_sum (map f l) + list_sum (map g l))%nat.
Proof.
  induction l as [|x l IH]; [reflexivity|].
  cbn [map list_sum foldr]. change (foldr Nat.add 0%nat ?l) with (list_sum l).
  rewrite IH. lia.
Qed.

(** Counting every player's wins counts every game won by a player. *)
Lemma count_occ_sum (winners : list nat) (n : nat) :
  Forall (fun w => (w < n)%nat) winners ->
  list_sum (map (count_occ Nat.eq_dec winners) (seq 0 n)) = length winners.
Proof.
  induction 1 as [|w ws Hw _ IH].
  - cbn [count_occ length]. induction (seq 0 n) as [|x l IHl]; [reflexivity|].
    cbn [map list_sum foldr]. exact IHl.
  - cbn [length]. rewrite <- IH.
    rewrite (map_ext _ (fun p => ((if Nat.eq_dec w p then 1 else 0)
                                  + count_occ Nat.eq_dec ws p)%nat))
      by (intros p; cbn [count_occ]; destruct (Nat.eq_dec w p); reflexivity).
    rewrite list_sum_map_add, list_sum_indicator.
    rewrite decide_True by lia. reflexivity.
Qed.

Lemma Qsum_win_percentages (winners : list nat) (l : list nat) :
  Qsum (map (win_percentage winners) l)
  == inject_Z (Z.of_nat (list_sum (map (count_occ Nat.eq_dec winners) l)))
     / inject_Z (Z.of_nat (length winners)) * 100.
Proof.
  induction l as [|p l IH].
  - cbn. unfold Qdiv. ring.
  - cbn [map Qsum fold_right list_sum foldr].
    change (fold_right Qplus 0 ?l) with (Qsum l).
    change (foldr Nat.add 0%nat ?l) with (list_sum l).
    rewrite IH. unfold win_percentage.
    rewrite Nat2Z.inj_add, inject_Z_plus. unfold Qdiv. ring.
Qed.

(** X23: The win distribution of a non-empty list of winners who are all among
    the players [0 .. num_players - 1]: one entry per player, in order;
    every share lies in [[0, 100]]; the shares add up to 100. *)
Theorem win_distribution_total (winners : list nat) (num_players : Z) :
  winners <> []%list ->
  Forall (fun w => (Z.of_nat w < num_players)%Z) winners ->
  PyDict.keys (_calculate_win_distribution winners num_players) = range num_players
  /\ (forall p q, PyDict.get p (_calculate_win_distribution winners num_players) = Some q ->
                  0 <= q /\ q <= 100)
  /\ Qsum (PyDict.values (_calculate_win_distribution winners num_players)) == 100.
Proof.
  intros Hne Hall.
  assert (Hlen : 0 < inject_Z (Z.of_nat (length winners))) by apply length_pos_Q, Hne.
  split; [|split].
  - unfold _calculate_win_distribution. destruct winners as [|w ws]; [congruence|].
    rewrite comprehension_id_NoDup by apply NoDup_range.
    unfold PyDict.keys. rewrite map_map. apply map_id.
  - intros p q. unfold _calculate_win_distribution.
    destruct winners as [|w ws]; [congruence|].
    rewrite get_comprehension_id.
    destruct (decide (p ∈ range num_players)); [|discriminate].
    intros [= <-]. rewrite Counter_get.
    set (l := w :: ws) in *.
    pose proof (count_occ_bound Nat.eq_dec p l) as Hbound.
    assert (H0 : 0 <= inject_Z (Z.of_nat (count_occ Nat.eq_dec l p)))
      by (change 0 with (inject_Z 0); rewrite <- Zle_Qle; lia).
    assert (H1 : inject_Z (Z.of_nat (count_occ Nat.eq_dec l p))
                 <= inject_Z (Z.of_nat (length l)))
      by (rewrite <- Zle_Qle; lia).
    assert (Ht0 : 0 <= inject_Z (Z.of_nat (count_occ Nat.eq_dec l p))
                       / inject_Z (Z.of_nat (length l)))
      by (apply Qle_shift_div_l; [exact Hlen|]; rewrite Qmult_0_l; exact H0).
    assert (Ht1 : inject_Z (Z.of_nat (count_occ Nat.eq_dec l p))
                  / inject_Z (Z.of_nat (length l)) <= 1)
      by (apply Qle_shift_div_r; [exact Hlen|]; rewrite Qmult_1_l; exact H1).
    change (S (length ws)) with (length l).
    revert Ht0 Ht1. generalize (inject_Z (Z.of_nat (count_occ Nat.eq_dec l p))
                                / inject_Z (Z.of_nat (length l))).
    intros t Ht0 Ht1. split; lra.
  - rewrite win_distribution_values by exact Hne.
    unfold win_percentages. rewrite Qsum_win_percentages.
    unfold range. rewrite count_occ_sum.
    + field. intros E. rewrite E in Hlen. exact (Qlt_irrefl _ Hlen).
    + eapply Forall_impl; [exact Hall|]. cbn. intros w Hw. lia.
Qed.

Lemma win_distribution_total_witness :
  even_winners <> []%list
  /\ Forall (fun w => (Z.of_nat w < 4)%Z) even_winners
  /\ PyDict.keys (_calculate_win_distribution even_winners 4) = [0; 1; 2; 3]%nat
  /\ Qsum (PyDict.values (_calculate_win_distribution even_winners 4)) == 100.
Proof.
  assert (Hne : even_winners <> []%list) by discriminate.
  assert (Hall : Forall (fun w => (Z.of_nat w < 4)%Z) even_winners) by by_decide.
  split; [exact Hne|]. split; [exact Hall|].
  destruct (win_distribution_total even_winners 4 Hne Hall) as (Hkeys & _ & Hsum).
  split; [exact Hkeys | exact Hsum].
Defined.

End Distribution.

Section Scores.
Local Open Scope Q_scope.
Variable np_sqrt : Q -> Q.
Hypothesis np_sqrt_nonneg : forall v, 0 <= v -> 0 <= np_sqrt v.

Lemma np_mean_nonneg (l : list Q) (m : Q) :
  Forall (fun x => 0 <= x) l -> np_mean l = Some m -> 0 <= m.
Proof.
  intros Hall. destruct l as [|x l]; [discriminate|].
  rewrite np_mean_Some by discriminate. intros [= <-].
  apply Qle_shift_div_l; [apply (length_pos_Q (x :: l)); discriminate|].
  rewrite Qmult_0_l. apply (Qsum_nonneg (x :: l)), Hall.
Qed.

Lemma turns_of_nonneg (results : list SimulationResult) :
  Forall (fun r => (0 <= res_turns r)%Z) results ->
  Forall (fun x => 0 <= x) (turns_of results).
Proof.
  intros Hall. unfold turns_of. apply Forall_map.
  eapply Forall_impl; [exact Hall|]. cbn. intros r Hr.
  change 0 with (inject_Z 0). rewrite <- Zle_Qle. exact Hr.
Qed.

Lemma turns_of_nonempty (results : list SimulationResult) :
  results <> []%list -> turns_of results <> []%list.
Proof. destruct results; [congruence | discriminate]. Qed.

(** X24: The engagement score of a non-empty batch of games with non-negative
    lengths lies in [[25, 75]], not in all of [[0, 100]]: half of it is the
    constant 50.  It is 75 exactly for an average length from 20 to 40, and
    below 50 exactly for an average below 10 or above 65. *)
Theorem engagement_range (results : list SimulationResult) :
  results <> []%list ->
  Forall (fun r => (0 <= res_turns r)%Z) results ->
  exists avg e,
    np_mean (turns_of results) = Some avg
    /\ _calculate_engagement results = Some e
    /\ 25 <= e /\ e <= 75
    /\ (e == 75 <-> 20 <= avg /\ avg <= 40)
    /\ (e < 50 <-> avg < 10 \/ 65 < avg).
Proof.
  intros Hne Hall.
  pose proof (turns_of_nonneg results Hall) as Hturns.
  pose proof (turns_of_nonempty results Hne) as Hne'.
  unfold _calculate_engagement. destruct results as [|r0 rs]; [congruence|].
  set (results := r0 :: rs) in *.
  rewrite (np_mean_Some _ Hne'). cbn [mbind option_bind].
  pose proof (np_mean_nonneg _ _ Hturns (np_mean_Some _ Hne')) as Havg.
  revert Havg. generalize (Qsum (turns_of results)
                           / inject_Z (Z.of_nat (length (turns_of results)))).
  intros avg Havg. exists avg. eexists. split; [reflexivity|]. split; [reflexivity|].
  destruct (Qlt_le_dec avg 20) as [H20|H20]; [|destruct (Qlt_le_dec 40 avg) as [H40|H40]].
  - assert (E : (avg / 20 * 100 + 50) / 2 == avg * (5 # 2) + 25) by field.
    rewrite E. repeat split; intros; try lra.
    all: first [left; lra | right; lra
               | match goal with H : _ \/ _ |- _ => destruct H; lra end].
  - destruct (Q.max_spec 0 (100 - (avg - 40) * 2)) as [[Hlt E]|[Hlt E]]; rewrite E.
    + assert (E' : (100 - (avg - 40) * 2 + 50) / 2 == 115 - avg) by field.
      rewrite E'. repeat split; intros; try lra.
      all: first [left; lra | right; lra
                 | match goal with H : _ \/ _ |- _ => destruct H; lra end].
    + assert (E' : (0 + 50) / 2 == 25) by reflexivity.
      rewrite E'. repeat split; intros; try lra.
      all: first [left; lra | right; lra
                 | match goal with H : _ \/ _ |- _ => destruct H; lra end].
  - assert (E : (100 + 50) / 2 == 75) by reflexivity.
    rewrite E. repeat split; intros; try lra.
    all: first [left; lra | right; lra
               | match goal with H : _ \/ _ |- _ => destruct H; lra end].
Qed.

(** The engagement score is at least 25 and at most 75. *)
Lemma engagement_score_bounds (results : list SimulationResult) :
  results <> []%list ->
  Forall (fun r => (0 <= res_turns r)%Z) results ->
  exists e, _calculate_engagement results = Some e /\ 25 <= e /\ e <= 75.
Proof.
  intros Hne Hall.
  pose proof (turns_of_nonneg results Hall) as Hturns.
  pose proof (turns_of_nonempty results Hne) as Hne'.
  unfold _calculate_engagement. destruct results as [|r0 rs]; [congruence|].
  set (results := r0 :: rs) in *.
  rewrite (np_mean_Some _ Hne'). cbn [mbind option_bind].
  pose proof (np_mean_nonneg _ _ Hturns (np_mean_Some _ Hne')) as Havg.
  revert Havg. generalize (Qsum (turns_of results)
                           / inject_Z (Z.of_nat (length (turns_of results)))).
  intros avg Havg. eexists. split; [reflexivity|].
  destruct (Qlt_le_dec avg 20) as [H20|H20]; [|destruct (Qlt_le_dec 40 avg) as [H40|H40]].
  - assert (E : (avg / 20 * 100 + 50) / 2 == avg * (5 # 2) + 25) by field.
    rewrite E. split; lra.
  - destruct (Q.max_spec 0 (100 - (avg - 40) * 2)) as [[Hlt E]|[Hlt E]]; rewrite E.
    + assert (E' : (100 - (avg - 40) * 2 + 50) / 2 == 115 - avg) by field.
      rewrite E'. split; lra.
    + split; [discriminate | discriminate].
  - split; discriminate.
Qed.

Lemma fairness_score_range (winners : list nat) (num_players : Z) :
  (1 <= num_players)%Z ->
  exists f, _calculate_fairness_score winners num_players = Some f
            /\ 0 <= f /\ f <= 100.
Proof.
  intros HN. unfold _calculate_fairness_score.
  destruct winners as [|w ws]; [exists 0; repeat split; discriminate|].
  set (winners := w :: ws).
  rewrite decide_False by lia.
  rewrite win_distribution_values by discriminate.
  destruct (np_var_Some (win_percentages winners num_players)) as [v Hv];
    [apply win_percentages_nonempty, HN|].
  rewrite Hv. cbn [mbind option_bind]. eexists. split; [reflexivity|].
  pose proof (np_var_nonneg _ _ Hv) as Hv0.
  assert (Hn : 0 < inject_Z num_players)
    by (change 0 with (inject_Z 0); rewrite <- Zlt_Qlt; lia).
  assert (Hideal : 0 < 100 / inject_Z num_players)
    by (apply Qlt_shift_div_l; [exact Hn|]; rewrite Qmult_0_l; reflexivity).
  assert (Hmax : 0 < 100 / inject_Z num_players * (100 / inject_Z num_players))
    by (apply Qmult_lt_0_compat; exact Hideal).
  assert (Hratio : 0 <= v / (100 / inject_Z num_players * (100 / inject_Z num_players)))
    by (apply Qle_shift_div_l; [exact Hmax|]; rewrite Qmult_0_l; exact Hv0).
  revert Hratio.
  generalize (v / (100 / inject_Z num_players * (100 / inject_Z num_players))).
  intros t Ht.
  destruct (Q.min_spec t 1) as [[Hlt E]|[Hlt E]]; rewrite E; split; lra.
Qed.

Lemma complexity_range (results : list SimulationResult) :
  results <> []%list ->
  Forall (fun r => (0 <= res_turns r)%Z) results ->
  exists c, _calculate_complexity np_sqrt results = Some c /\ 0 <= c /\ c <= 100.
Proof.
  intros Hne Hall.
  pose proof (turns_of_nonneg results Hall) as Hturns.
  pose proof (turns_of_nonempty results Hne) as Hne'.
  unfold _calculate_complexity. destruct results as [|r0 rs]; [congruence|].
  set (results := r0 :: rs) in *.
  rewrite (np_mean_Some _ Hne'). cbn [mbind option_bind].
  pose proof (np_mean_nonneg _ _ Hturns (np_mean_Some _ Hne')) as Havg.
  revert Havg. generalize (Qsum (turns_of results)
                           / inject_Z (Z.of_nat (length (turns_of results)))).
  intros avg Havg.
  unfold np_std. destruct (np_var_Some _ Hne') as [v Hv]. rewrite Hv.
  cbn [mbind option_bind].
  pose proof (np_sqrt_nonneg v (np_var_nonneg _ _ Hv)) as Hstd.
  revert Hstd. generalize (np_sqrt v). intros std Hstd.
  eexists. split; [reflexivity|].
  assert (E1 : avg / 50 * 50 == avg) by field.
  assert (E2 : std / 10 * 50 == std * 5) by field.
  destruct (Q.min_spec (avg / 50 * 50) 50) as [[H1 F1]|[H1 F1]];
    destruct (Q.min_spec (std / 10 * 50) 50) as [[H2 F2]|[H2 F2]];
    rewrite F1, F2; split; lra.
Qed.

(** X25: The report on a non-empty batch of games with non-negative lengths, for
    at least one player: it counts the games, has one win share per player,
    its three scores are in range (fairness and complexity in [[0, 100]],
    engagement in [[25, 75]]), and its grade is the letter grade of its own
    fairness score, never ["N/A"]. *)
Theorem analyze_game_results_report (results : list SimulationResult)
    (num_players : Z) :
  results <> []%list ->
  Forall (fun r => (0 <= res_turns r)%Z) results ->
  (1 <= num_players)%Z ->
  exists report,
    analyze_game_results np_sqrt results num_players = Some report
    /\ total_games report = Z.of_nat (length results)
    /\ PyDict.keys (win_distribution report) = range num_players
    /\ 0 <= fairness_score report /\ fairness_score report <= 100
    /\ 0 <= average_game_length report
    /\ 0 <= complexity_score report /\ complexity_score report <= 100
    /\ 25 <= engagement_score report /\ engagement_score report <= 75
    /\ balance_grade report = _calculate_balance_grade report
    /\ balance_grade report ∈ letter_grades.
Proof.
  intros Hne Hall HN.
  destruct (fairness_score_range (omap res_winner results) num_players HN)
    as (f & Hf & Hf0 & Hf1).
  destruct (complexity_range results Hne Hall) as (c & Hc & Hc0 & Hc1).
  destruct (engagement_score_bounds results Hne Hall) as (e & He & He0 & He1).
  assert (Havg : exists avg, np_mean (turns_of results) = Some avg)
    by (rewrite np_mean_Some by (apply turns_of_nonempty, Hne); eexists; reflexivity).
  destruct Havg as [avg Havg].
  pose proof (np_mean_nonneg _ _ (turns_of_nonneg results Hall) Havg) as Havg0.
  destruct (np_var_Some _ (turns_of_nonempty results Hne)) as [v Hv].
  unfold analyze_game_results. destruct results as [|r0 rs]; [congruence|].
  set (results := r0 :: rs) in *.
  rewrite Hf, Havg. cbn [mbind option_bind].
  unfold np_std at 1. rewrite Hv. cbn [mbind option_bind].
  rewrite Hc, He. cbn [mbind option_bind].
  eexists. split; [reflexivity|].
  cbn [total_games win_distribution fairness_score average_game_length
       complexity_score engagement_score balance_grade with_balance_grade].
  split; [reflexivity|].
  split.
  { unfold _calculate_win_distribution.
    destruct (omap res_winner results);
      rewrite comprehension_id_NoDup by apply NoDup_range;
      unfold PyDict.keys; rewrite map_map; apply map_id. }
  repeat (split; [assumption|]).
  split; [reflexivity|].
  unfold _calculate_balance_grade. cbn [fairness_score].
  destruct (Qlt_le_dec f 90); [|by_decide].
  destruct (Qlt_le_dec f 75); [|by_decide].
  destruct (Qlt_le_dec f 60); [|by_decide].
  destruct (Qlt_le_dec f 45); by_decide.
Qed.

End Scores.

Section ScoreExamples.
Local Open Scope Q_scope.

Lemma engagement_range_witness :
  even_batch <> []%list
  /\ Forall (fun r => (0 <= res_turns r)%Z) even_batch
  /\ exists avg e,
       np_mean (turns_of even_batch) = Some avg
       /\ _calculate_engagement even_batch = Some e
       /\ 25 <= e /\ e <= 75.
Proof.
  assert (Hne : even_batch <> []%list) by discriminate.
  assert (Hall : Forall (fun r => (0 <= res_turns r)%Z) even_batch) by by_decide.
  split; [exact Hne|]. split; [exact Hall|].
  destruct (engagement_range even_batch Hne Hall) as (avg & e & Havg & He & H0 & H1 & _).
  exists avg, e. repeat split; assumption.
Defined.

Lemma analyze_game_results_report_witness :
  (forall v, 0 <= v -> 0 <= sqrt_at_zero v)
  /\ even_batch <> []%list
  /\ Forall (fun r => (0 <= res_turns r)%Z) even_batch
  /\ (1 <= 2)%Z
  /\ exists report,
       analyze_game_results sqrt_at_zero even_batch 2 = Some report
       /\ total_games report = 2%Z
       /\ balance_grade report ∈ letter_grades.
Proof.
  assert (Hsqrt : forall v, 0 <= v -> 0 <= sqrt_at_zero v) by (intros v Hv; exact Hv).
  assert (Hne : even_batch <> []%list) by discriminate.
  assert (Hall : Forall (fun r => (0 <= res_turns r)%Z) even_batch) by by_decide.
  assert (HN : (1 <= 2)%Z) by lia.
  split; [exact Hsqrt|]. split; [exact Hne|]. split; [exact Hall|]. split; [exact HN|].
  destruct (analyze_game_results_report sqrt_at_zero Hsqrt even_batch 2 Hne Hall HN)
    as (report & Hrep & Htotal & _ & _ & _ & _ & _ & _ & _ & _ & _ & Hgrade).
  exists report. split; [exact Hrep|]. split; [exact Htotal | exact Hgrade].
Defined.

End ScoreExamples.

(** ** Recommendations and comparison *)

Section Advice.
Local Open Scope Q_scope.

(** X26: [get_recommendations] always says something, at most four things and
    nothing twice.  The message of good balance is given exactly when
    fairness is at least 60, the average length is from 10 to 60, complexity
    is from 30 to 80 and engagement is at least 50; it is then the only
    message. *)
Theorem get_recommendations_spec (analysis : BalanceReport) :
  get_recommendations analysis <> []%list
  /\ (length (get_recommendations analysis) <= 4)%nat
  /\ NoDup (get_recommendations analysis)
  /\ (good_balance_message ∈ get_recommendations analysis <->
      60 <= fairness_score analysis
      /\ 10 <= average_game_length analysis /\ average_game_length analysis <= 60
      /\ 30 <= complexity_score analysis /\ complexity_score analysis <= 80
      /\ 50 <= engagement_score analysis)
  /\ (good_balance_message ∈ get_recommendations analysis ->
      get_recommendations analysis = [good_balance_message]).
Proof.
  unfold get_recommendations.
  destruct (Qlt_le_dec (fairness_score analysis) 60) as [Hf|Hf];
    (destruct (Qlt_le_dec (average_game_length analysis) 10) as [Hl|Hl];
       [|destruct (Qlt_le_dec 60 (average_game_length analysis)) as [Hl'|Hl']]);
    (destruct (Qlt_le_dec (complexity_score analysis) 30) as [Hc|Hc];
       [|destruct (Qlt_le_dec 80 (complexity_score analysis)) as [Hc'|Hc']]);
    destruct (Qlt_le_dec (engagement_score analysis) 50) as [He|He];
    (split; [discriminate|]); (split; [cbn; lia|]); (split; [by_decide|]);
    (split; [split|]);
    try (intros Hin; exfalso; revert Hin; by_decide);
    try (intros (H1 & H2 & H3 & H4 & H5 & H6); exfalso; lra);
    try (intros _; repeat split; assumption);
    try (intros _; by_decide);
    try (intros _; reflexivity).
Qed.

Variable np_sqrt : Q -> Q.

(** X27: Comparing the same two batches the other way round gives the mirrored
    verdict: the two reports change places, [similar] stays [similar], and
    a preference for game 1 becomes the preference for game 2.  Equal
    fairness (or engagement) scores are credited to game 2 in either
    order. *)
Theorem compare_games_swap (game1_results game2_results : list SimulationResult)
    (num_players : Z) (c : Comparison) :
  compare_games np_sqrt game1_results game2_results num_players = Some c ->
  exists c',
    compare_games np_sqrt game2_results game1_results num_players = Some c'
    /\ game1 c' = game2 c /\ game2 c' = game1 c
    /\ (recommendation c = "Both games are similarly balanced."
        <-> recommendation c' = "Both games are similarly balanced.")
    /\ (recommendation c = "Game 1 shows better overall balance and engagement."
        <-> recommendation c' = "Game 2 shows better overall balance and engagement.")
    /\ (recommendation c = "Game 2 shows better overall balance and engagement."
        <-> recommendation c' = "Game 1 shows better overall balance and engagement.")
    /\ (better_fairness c = 1%Z -> better_fairness c' = 2%Z)
    /\ (better_engagement c = 1%Z -> better_engagement c' = 2%Z)
    /\ (fairness_score (game1 c) == fairness_score (game2 c) ->
        better_fairness c = 2%Z /\ better_fairness c' = 2%Z)
    /\ (engagement_score (game1 c) == engagement_score (game2 c) ->
        better_engagement c = 2%Z /\ better_engagement c' = 2%Z).
Proof.
  unfold compare_games. intros Hc.
  destruct (analyze_game_results np_sqrt game1_results num_players) as [a1|];
    [|discriminate].
  cbn [mbind option_bind] in Hc.
  destruct (analyze_game_results np_sqrt game2_results num_players) as [a2|];
    [|discriminate].
  cbn [mbind option_bind] in Hc. injection Hc as <-.
  cbn [mbind option_bind]. eexists. split; [reflexivity|].
  cbn [game1 game2 recommendation better_fairness better_engagement].
  split; [reflexivity|]. split; [reflexivity|].
  unfold _get_comparison_recommendation.
  set (s1 := (fairness_score a1 + engagement_score a1) / 2).
  set (s2 := (fairness_score a2 + engagement_score a2) / 2).
  rewrite (Qabs_Qminus s2 s1).
  assert (Hzero : s1 <= s2 -> s2 <= s1 -> Qabs (s1 - s2) < 5).
  { intros H1 H2. rewrite Qabs_pos by lra. lra. }
  split; [|split; [|split]].
  - destruct (Qlt_le_dec (Qabs (s1 - s2)) 5); [split; reflexivity|].
    destruct (Qlt_le_dec s2 s1), (Qlt_le_dec s1 s2); split; discriminate.
  - destruct (Qlt_le_dec (Qabs (s1 - s2)) 5); [split; discriminate|].
    destruct (Qlt_le_dec s2 s1), (Qlt_le_dec s1 s2);
      split; intros; try reflexivity; try discriminate; exfalso; lra.
  - destruct (Qlt_le_dec (Qabs (s1 - s2)) 5); [split; discriminate|].
    destruct (Qlt_le_dec s2 s1), (Qlt_le_dec s1 s2);
      split; intros; try reflexivity; try discriminate; exfalso;
      try lra; pose proof (Hzero ltac:(assumption) ltac:(assumption)); lra.
  - destruct (Qlt_le_dec (fairness_score a2) (fairness_score a1)),
      (Qlt_le_dec (fairness_score a1) (fairness_score a2)),
      (Qlt_le_dec (engagement_score a2) (engagement_score a1)),
      (Qlt_le_dec (engagement_score a1) (engagement_score a2));
      repeat split; intros; try reflexivity; try discriminate; exfalso; lra.
Qed.

End Advice.

Section AdviceExamples.
Local Open Scope Q_scope.

Lemma compare_games_swap_witness :
  exists c c',
    compare_games sqrt_at_zero even_batch one_sided_batch 2 = Some c
    /\ compare_games sqrt_at_zero one_sided_batch even_batch 2 = Some c'
    /\ recommendation c = "Game 1 shows better overall balance and engagement."
    /\ recommendation c' = "Game 2 shows better overall balance and engagement."
    /\ better_engagement c = 2%Z /\ better_engagement c' = 2%Z.
Proof.
  destruct (compare_games sqrt_at_zero even_batch one_sided_batch 2) as [c|] eqn:Hc;
    [|vm_compute in Hc; discriminate Hc].
  destruct (compare_games_swap sqrt_at_zero _ _ _ c Hc)
    as (c' & Hc' & _ & _ & _ & Hrec & _ & _ & _ & _ & Heng).
  exists c, c'. split; [reflexivity|]. split; [exact Hc'|].
  assert (Hone : recommendation c = "Game 1 shows better overall balance and engagement.")
    by (vm_compute in Hc; injection Hc as <-; reflexivity).
  split; [exact Hone|]. split; [apply Hrec, Hone|].
  apply Heng. vm_compute in Hc. injection Hc as <-. reflexivity.
Defined.

End AdviceExamples.

(** ** Turn structure *)

Section TurnStructure.

(** X28: The turn structure: a selection of [turn_steps] in that order (so
    drawing a card comes before rolling the dice, both before the move, and
    placements after it, whatever the order of the mechanics), always with
    [move] and ending with [end_turn]; each of the other four steps is there
    exactly when its mechanic is. *)
Theorem generate_turn_structure_spec (mechanics : list string) :
  sublist (_generate_turn_structure mechanics) turn_steps
  /\ "move" ∈ _generate_turn_structure mechanics
  /\ last (_generate_turn_structure mechanics) = Some "end_turn"
  /\ ("draw_card" ∈ _generate_turn_structure mechanics <-> "card_drawing" ∈ mechanics)
  /\ ("roll_dice" ∈ _generate_turn_structure mechanics <-> "dice_rolling" ∈ mechanics)
  /\ ("place_worker" ∈ _generate_turn_structure mechanics
      <-> "worker_placement" ∈ mechanics)
  /\ ("place_tile" ∈ _generate_turn_structure mechanics <-> "tile_placement" ∈ mechanics).
Proof.
  unfold _generate_turn_structure, str_in, turn_steps.
  destruct (decide ("dice_rolling" ∈ mechanics)) as [Hd|Hd];
    [rewrite (bool_decide_eq_true_2 _ Hd) | rewrite (bool_decide_eq_false_2 _ Hd)];
    (destruct (decide ("card_drawing" ∈ mechanics)) as [Hc|Hc];
     [rewrite (bool_decide_eq_true_2 _ Hc) | rewrite (bool_decide_eq_false_2 _ Hc)]);
    (destruct (decide ("worker_placement" ∈ mechanics)) as [Hw|Hw];
     [rewrite (bool_decide_eq_true_2 _ Hw) | rewrite (bool_decide_eq_false_2 _ Hw)]);
    (destruct (decide ("tile_placement" ∈ mechanics)) as [Ht|Ht];
     [rewrite (bool_decide_eq_true_2 _ Ht) | rewrite (bool_decide_eq_false_2 _ Ht)]);
    cbn [app];
    (split;
     [repeat first [apply sublist_nil | apply sublist_skip | apply sublist_cons]|]);
    (split; [by_decide|]); (split; [reflexivity|]);
    repeat split; intros Hin; try assumption; try by_decide;
    try contradiction; exfalso; revert Hin; by_decide.
Qed.

End TurnStructure.
